(** * Simulation core of the top-down shooter (src/ggg/main.py)

    A shallow embedding of the entity classes, the enemy spawner, the shop and
    the per-tick bullet/enemy collision pass of [run], followed by the
    properties of the specification that concern them.

    Conventions.
    - Python [int] is [Z]; Python [float] is idealised as an exact rational [Q]
      (no rounding, no NaN, no infinities).
    - [random.random()] is an oracle [rng : nat -> Q] read at a cursor that is
      part of the state; [random.uniform a b] is [a + (b - a) * random()].
    - [pygame.Vector2] is a pair of rationals; [Vector2.normalize] needs a
      square root and is library code, so the functions that call it take it as
      an argument.
    - The module-level [WINDOW_WIDTH], [WINDOW_HEIGHT] are reassigned by [run]
      from the screen size; they are passed explicitly as a [Window]. *)

From stdpp Require Import gmap strings list.
From Stdlib Require Import ZArith QArith Qround Qminmax Lqa Lia.

Close Scope Q_scope.
Open Scope Z_scope.

(** ** Numbers *)

Definition Qltb (x y : Q) : bool := negb (Qle_bool y x).

(** [max(a, b)] and [min(a, b)] of Python return the first argument on a tie. *)
Definition py_max (a b : Q) : Q := if Qltb a b then b else a.
Definition py_min (a b : Q) : Q := if Qltb b a then b else a.

Definition clamp (value min_value max_value : Q) : Q :=
  py_max min_value (py_min value max_value).

(** [int(x)] of a float truncates toward zero. *)
Definition py_int (x : Q) : Z := Z.quot (Qnum x) (Zpos (Qden x)).

Definition uniform (a b u : Q) : Q := (a + (b - a) * u)%Q.

(** ** Config *)

Record Window : Type := { WINDOW_WIDTH : Q; WINDOW_HEIGHT : Q }.

Definition PLAYER_SPEED : Q := 280%Q.
Definition PLAYER_RADIUS : Q := 16%Q.
Definition PLAYER_MAX_HEALTH : Z := 5.
Definition BULLET_SPEED : Q := 600%Q.
Definition BULLET_RADIUS : Q := 4%Q.
Definition BULLET_COOLDOWN_SEC : Q := 0.12%Q.
Definition BULLET_LIFETIME_SEC : Q := 1.2%Q.
Definition ENEMY_SPEED_MIN : Q := 80%Q.
Definition ENEMY_SPEED_MAX : Q := 140%Q.
Definition ENEMY_RADIUS : Q := 14%Q.
Definition ENEMY_SPAWN_EVERY_SEC : Q := 1.1%Q.
Definition ENEMY_SPAWN_ACCEL_EVERY_SEC : Q := 20%Q.
Definition ENEMY_SPAWN_ACCEL_FACTOR : Q := 0.92%Q.
Definition INVULN_ON_HIT_SEC : Q := 0.6%Q.
Definition LEVEL_KILLS_TO_BOSS_BASE : Z := 30.
Definition LEVEL_KILLS_TO_BOSS_INC : Z := 10.
Definition NORMAL_DROP_CHANCE : Q := 0.30%Q.

(** ** Geometry *)

Record Vec : Type := Vector2 { vx : Q; vy : Q }.

Definition vsub (a b : Vec) : Vec := Vector2 (vx a - vx b)%Q (vy a - vy b)%Q.
Definition vscale (a : Vec) (k : Q) : Vec := Vector2 (vx a * k)%Q (vy a * k)%Q.
Definition vadd (a b : Vec) : Vec := Vector2 (vx a + vx b)%Q (vy a + vy b)%Q.
Definition length_squared (a : Vec) : Q := (vx a * vx a + vy a * vy a)%Q.

(** [center_a.distance_to(center_b) <= radius_a + radius_b].  The distance is
    a square root; with exact numbers the test is the same as comparing the
    squares once the right-hand side is known not to be negative. *)
Definition circle_intersects_circle
    (center_a : Vec) (radius_a : Q) (center_b : Vec) (radius_b : Q) : bool :=
  let s := (radius_a + radius_b)%Q in
  Qle_bool 0 s && Qle_bool (length_squared (vsub center_a center_b)) (s * s).

(** ** Entities *)

Module Bullet.
Record t : Type := mk {
  position : Vec;
  velocity : Vec;
  radius : Q;
  pierce_remaining : Z;
  lifetime : Q;
  damage : Z
}.

Definition set_pierce_remaining (v : Z) (b : t) : t :=
  mk (position b) (velocity b) (radius b) v (lifetime b) (damage b).
Definition set_lifetime (v : Q) (b : t) : t :=
  mk (position b) (velocity b) (radius b) (pierce_remaining b) v (damage b).
Definition set_damage (v : Z) (b : t) : t :=
  mk (position b) (velocity b) (radius b) (pierce_remaining b) (lifetime b) v.

Definition is_alive (win : Window) (b : t) : bool :=
  if Qle_bool (lifetime b) 0 then false
  else
    Qle_bool (-50) (vx (position b))
    && Qle_bool (vx (position b)) (WINDOW_WIDTH win + 50)
    && Qle_bool (-50) (vy (position b))
    && Qle_bool (vy (position b)) (WINDOW_HEIGHT win + 50).

Definition update (dt : Q) (b : t) : t :=
  mk (vadd (position b) (vscale (velocity b) dt)) (velocity b) (radius b)
     (pierce_remaining b) (lifetime b - dt)%Q (damage b).
End Bullet.

(** [ShooterEnemy] extends [Enemy] with two timers; the subclass is a tag. *)
Inductive EnemyKind : Type :=
  | Plain
  | Shooter (shoot_timer shoot_cooldown : Q).

Module Enemy.
Record t : Type := mk {
  position : Vec;
  speed : Q;
  radius : Q;
  max_health : Z;
  health : Z;
  is_boss : bool;
  kind : EnemyKind
}.

Definition set_health (v : Z) (e : t) : t :=
  mk (position e) (speed e) (radius e) (max_health e) v (is_boss e) (kind e).

Definition set_position (v : Vec) (e : t) : t :=
  mk v (speed e) (radius e) (max_health e) (health e) (is_boss e) (kind e).
Definition set_kind (v : EnemyKind) (e : t) : t :=
  mk (position e) (speed e) (radius e) (max_health e) (health e) (is_boss e) v.

(** [Enemy.update], and for a shooter the [shoot_timer -= dt] that
    [ShooterEnemy.update] adds to it. *)
Definition update (normalize : Vec -> Vec) (dt : Q) (target : Vec) (e : t) : t :=
  let to_target := vsub target (position e) in
  let e1 :=
    if Qltb 0.000001 (length_squared to_target) then
      let direction := normalize to_target in
      set_position
        (vadd (position e) (vscale (vscale direction (speed e)) dt)) e
    else e in
  match kind e1 with
  | Plain => e1
  | Shooter shoot_timer shoot_cooldown =>
      set_kind (Shooter (shoot_timer - dt)%Q shoot_cooldown) e1
  end.

(** [isinstance(e, ShooterEnemy) and e.ready_to_shoot()] *)
Definition ready_to_shoot (e : t) : bool :=
  match kind e with
  | Plain => false
  | Shooter shoot_timer _ => Qle_bool shoot_timer 0
  end.

Definition reset_shoot (e : t) : t :=
  match kind e with
  | Plain => e
  | Shooter _ shoot_cooldown => set_kind (Shooter shoot_cooldown shoot_cooldown) e
  end.
End Enemy.

Module Coin.
Record t : Type := mk {
  position : Vec;
  value : Z;
  velocity : Vec;
  radius : Q
}.

(** [Coin.update]: drag, the pull of the magnet, the move, then the four
    walls one after the other. *)
Definition update (win : Window) (normalize : Vec -> Vec)
    (dt : Q) (player_pos : Vec) (magnet_radius : Q) (c : t) : t :=
  let v := vscale (velocity c) 0.98 in
  let to_player := vsub player_pos (position c) in
  let dist_sq := length_squared to_player in
  let v :=
    if Qltb dist_sq (magnet_radius * magnet_radius) then
      if Qltb 0.0001 dist_sq
      then vadd v (vscale (vscale (normalize to_player) 600) dt)
      else v
    else v in
  let pos := vadd (position c) (vscale v dt) in
  let x := vx pos in
  let y := vy pos in
  let velx := vx v in
  let vely := vy v in
  let '(x, velx) := if Qltb x (radius c) then (radius c, 0%Q) else (x, velx) in
  let '(x, velx) :=
    if Qltb (WINDOW_WIDTH win - radius c) x
    then ((WINDOW_WIDTH win - radius c)%Q, 0%Q) else (x, velx) in
  let '(y, vely) := if Qltb y (radius c) then (radius c, 0%Q) else (y, vely) in
  let '(y, vely) :=
    if Qltb (WINDOW_HEIGHT win - radius c) y
    then ((WINDOW_HEIGHT win - radius c)%Q, 0%Q) else (y, vely) in
  mk (Vector2 x y) (value c) (Vector2 velx vely) (radius c).
End Coin.

Module Explosion.
Record t : Type := mk {
  position : Vec;
  radius : Q;
  max_radius : Q;
  damage : Z;
  lifetime : Q
}.

Definition update (dt : Q) (x : t) : t :=
  let lifetime' := (lifetime x - dt)%Q in
  mk (position x) (max_radius x * (1 - lifetime' / 0.3))%Q (max_radius x)
     (damage x) lifetime'.

Definition is_alive (x : t) : bool := Qltb 0 (lifetime x).
End Explosion.

Module EnemyBullet.
Record t : Type := mk {
  position : Vec;
  velocity : Vec;
  radius : Q;
  lifetime : Q
}.

Definition update (dt : Q) (b : t) : t :=
  mk (vadd (position b) (vscale (velocity b) dt)) (velocity b) (radius b)
     (lifetime b - dt)%Q.

Definition is_alive (win : Window) (b : t) : bool :=
  if Qle_bool (lifetime b) 0 then false
  else
    Qle_bool (-20) (vx (position b))
    && Qle_bool (vx (position b)) (WINDOW_WIDTH win + 20)
    && Qle_bool (-20) (vy (position b))
    && Qle_bool (vy (position b)) (WINDOW_HEIGHT win + 20).
End EnemyBullet.

(** The keys [Player.update] reads from [pygame.key.get_pressed()]. *)
Record Keys : Type := mkKeys {
  key_w : bool; key_up : bool;
  key_s : bool; key_down : bool;
  key_a : bool; key_left : bool;
  key_d : bool; key_right : bool
}.

Module Player.
Record t : Type := mk {
  position : Vec;
  radius : Q;
  health : Z;
  invuln_timer : Q;
  shoot_cooldown : Q;
  coins : Z;
  speed_multiplier : Q;
  fire_rate_multiplier : Q;
  bullet_size_level : Z;
  bullet_pierce_level : Z;
  magnet_radius : Q;
  max_health_bonus : Z;
  armor : Z;
  bullet_damage_level : Z;
  coin_gain_level : Z;
  dodge_level : Z;
  regen_level : Z;
  lifesteal_level : Z;
  crit_level : Z;
  aoe_on_kill_level : Z;
  magnet_bonus_level : Z;
  bullet_speed_level : Z;
  regen_timer : Q;
  bullet_speed_multiplier : Q;
  lifesteal_kills : Z
}.

Definition set_health (v : Z) (p : t) : t :=
  mk (position p) (radius p) v (invuln_timer p) (shoot_cooldown p) (coins p)
    (speed_multiplier p) (fire_rate_multiplier p) (bullet_size_level p)
    (bullet_pierce_level p) (magnet_radius p) (max_health_bonus p) (armor p)
    (bullet_damage_level p) (coin_gain_level p) (dodge_level p)
    (regen_level p) (lifesteal_level p) (crit_level p) (aoe_on_kill_level p)
    (magnet_bonus_level p) (bullet_speed_level p) (regen_timer p)
    (bullet_speed_multiplier p) (lifesteal_kills p).
Definition set_invuln_timer (v : Q) (p : t) : t :=
  mk (position p) (radius p) (health p) v (shoot_cooldown p) (coins p)
    (speed_multiplier p) (fire_rate_multiplier p) (bullet_size_level p)
    (bullet_pierce_level p) (magnet_radius p) (max_health_bonus p) (armor p)
    (bullet_damage_level p) (coin_gain_level p) (dodge_level p)
    (regen_level p) (lifesteal_level p) (crit_level p) (aoe_on_kill_level p)
    (magnet_bonus_level p) (bullet_speed_level p) (regen_timer p)
    (bullet_speed_multiplier p) (lifesteal_kills p).
Definition set_shoot_cooldown (v : Q) (p : t) : t :=
  mk (position p) (radius p) (health p) (invuln_timer p) v (coins p)
    (speed_multiplier p) (fire_rate_multiplier p) (bullet_size_level p)
    (bullet_pierce_level p) (magnet_radius p) (max_health_bonus p) (armor p)
    (bullet_damage_level p) (coin_gain_level p) (dodge_level p)
    (regen_level p) (lifesteal_level p) (crit_level p) (aoe_on_kill_level p)
    (magnet_bonus_level p) (bullet_speed_level p) (regen_timer p)
    (bullet_speed_multiplier p) (lifesteal_kills p).
Definition set_coins (v : Z) (p : t) : t :=
  mk (position p) (radius p) (health p) (invuln_timer p) (shoot_cooldown p) v
    (speed_multiplier p) (fire_rate_multiplier p) (bullet_size_level p)
    (bullet_pierce_level p) (magnet_radius p) (max_health_bonus p) (armor p)
    (bullet_damage_level p) (coin_gain_level p) (dodge_level p)
    (regen_level p) (lifesteal_level p) (crit_level p) (aoe_on_kill_level p)
    (magnet_bonus_level p) (bullet_speed_level p) (regen_timer p)
    (bullet_speed_multiplier p) (lifesteal_kills p).
Definition set_speed_multiplier (v : Q) (p : t) : t :=
  mk (position p) (radius p) (health p) (invuln_timer p) (shoot_cooldown p)
    (coins p) v (fire_rate_multiplier p) (bullet_size_level p)
    (bullet_pierce_level p) (magnet_radius p) (max_health_bonus p) (armor p)
    (bullet_damage_level p) (coin_gain_level p) (dodge_level p)
    (regen_level p) (lifesteal_level p) (crit_level p) (aoe_on_kill_level p)
    (magnet_bonus_level p) (bullet_speed_level p) (regen_timer p)
    (bullet_speed_multiplier p) (lifesteal_kills p).
Definition set_fire_rate_multiplier (v : Q) (p : t) : t :=
  mk (position p) (radius p) (health p) (invuln_timer p) (shoot_cooldown p)
    (coins p) (speed_multiplier p) v (bullet_size_level p)
    (bullet_pierce_level p) (magnet_radius p) (max_health_bonus p) (armor p)
    (bullet_damage_level p) (coin_gain_level p) (dodge_level p)
    (regen_level p) (lifesteal_level p) (crit_level p) (aoe_on_kill_level p)
    (magnet_bonus_level p) (bullet_speed_level p) (regen_timer p)
    (bullet_speed_multiplier p) (lifesteal_kills p).
Definition set_bullet_size_level (v : Z) (p : t) : t :=
  mk (position p) (radius p) (health p) (invuln_timer p) (shoot_cooldown p)
    (coins p) (speed_multiplier p) (fire_rate_multiplier p) v
    (bullet_pierce_level p) (magnet_radius p) (max_health_bonus p) (armor p)
    (bullet_damage_level p) (coin_gain_level p) (dodge_level p)
    (regen_level p) (lifesteal_level p) (crit_level p) (aoe_on_kill_level p)
    (magnet_bonus_level p) (bullet_speed_level p) (regen_timer p)
    (bullet_speed_multiplier p) (lifesteal_kills p).
Definition set_bullet_pierce_level (v : Z) (p : t) : t :=
  mk (position p) (radius p) (health p) (invuln_timer p) (shoot_cooldown p)
    (coins p) (speed_multiplier p) (fire_rate_multiplier p)
    (bullet_size_level p) v (magnet_radius p) (max_health_bonus p) (armor p)
    (bullet_damage_level p) (coin_gain_level p) (dodge_level p)
    (regen_level p) (lifesteal_level p) (crit_level p) (aoe_on_kill_level p)
    (magnet_bonus_level p) (bullet_speed_level p) (regen_timer p)
    (bullet_speed_multiplier p) (lifesteal_kills p).
Definition set_magnet_radius (v : Q) (p : t) : t :=
  mk (position p) (radius p) (health p) (invuln_timer p) (shoot_cooldown p)
    (coins p) (speed_multiplier p) (fire_rate_multiplier p)
    (bullet_size_level p) (bullet_pierce_level p) v (max_health_bonus p)
    (armor p) (bullet_damage_level p) (coin_gain_level p) (dodge_level p)
    (regen_level p) (lifesteal_level p) (crit_level p) (aoe_on_kill_level p)
    (magnet_bonus_level p) (bullet_speed_level p) (regen_timer p)
    (bullet_speed_multiplier p) (lifesteal_kills p).
Definition set_max_health_bonus (v : Z) (p : t) : t :=
  mk (position p) (radius p) (health p) (invuln_timer p) (shoot_cooldown p)
    (coins p) (speed_multiplier p) (fire_rate_multiplier p)
    (bullet_size_level p) (bullet_pierce_level p) (magnet_radius p) v
    (armor p) (bullet_damage_level p) (coin_gain_level p) (dodge_level p)
    (regen_level p) (lifesteal_level p) (crit_level p) (aoe_on_kill_level p)
    (magnet_bonus_level p) (bullet_speed_level p) (regen_timer p)
    (bullet_speed_multiplier p) (lifesteal_kills p).
Definition set_armor (v : Z) (p : t) : t :=
  mk (position p) (radius p) (health p) (invuln_timer p) (shoot_cooldown p)
    (coins p) (speed_multiplier p) (fire_rate_multiplier p)
    (bullet_size_level p) (bullet_pierce_level p) (magnet_radius p)
    (max_health_bonus p) v (bullet_damage_level p) (coin_gain_level p)
    (dodge_level p) (regen_level p) (lifesteal_level p) (crit_level p)
    (aoe_on_kill_level p) (magnet_bonus_level p) (bullet_speed_level p)
    (regen_timer p) (bullet_speed_multiplier p) (lifesteal_kills p).
Definition set_bullet_damage_level (v : Z) (p : t) : t :=
  mk (position p) (radius p) (health p) (invuln_timer p) (shoot_cooldown p)
    (coins p) (speed_multiplier p) (fire_rate_multiplier p)
    (bullet_size_level p) (bullet_pierce_level p) (magnet_radius p)
    (max_health_bonus p) (armor p) v (coin_gain_level p) (dodge_level p)
    (regen_level p) (lifesteal_level p) (crit_level p) (aoe_on_kill_level p)
    (magnet_bonus_level p) (bullet_speed_level p) (regen_timer p)
    (bullet_speed_multiplier p) (lifesteal_kills p).
Definition set_coin_gain_level (v : Z) (p : t) : t :=
  mk (position p) (radius p) (health p) (invuln_timer p) (shoot_cooldown p)
    (coins p) (speed_multiplier p) (fire_rate_multiplier p)
    (bullet_size_level p) (bullet_pierce_level p) (magnet_radius p)
    (max_health_bonus p) (armor p) (bullet_damage_level p) v (dodge_level p)
    (regen_level p) (lifesteal_level p) (crit_level p) (aoe_on_kill_level p)
    (magnet_bonus_level p) (bullet_speed_level p) (regen_timer p)
    (bullet_speed_multiplier p) (lifesteal_kills p).
Definition set_dodge_level (v : Z) (p : t) : t :=
  mk (position p) (radius p) (health p) (invuln_timer p) (shoot_cooldown p)
    (coins p) (speed_multiplier p) (fire_rate_multiplier p)
    (bullet_size_level p) (bullet_pierce_level p) (magnet_radius p)
    (max_health_bonus p) (armor p) (bullet_damage_level p) (coin_gain_level p)
    v (regen_level p) (lifesteal_level p) (crit_level p) (aoe_on_kill_level p)
    (magnet_bonus_level p) (bullet_speed_level p) (regen_timer p)
    (bullet_speed_multiplier p) (lifesteal_kills p).
Definition set_regen_level (v : Z) (p : t) : t :=
  mk (position p) (radius p) (health p) (invuln_timer p) (shoot_cooldown p)
    (coins p) (speed_multiplier p) (fire_rate_multiplier p)
    (bullet_size_level p) (bullet_pierce_level p) (magnet_radius p)
    (max_health_bonus p) (armor p) (bullet_damage_level p) (coin_gain_level p)
    (dodge_level p) v (lifesteal_level p) (crit_level p) (aoe_on_kill_level p)
    (magnet_bonus_level p) (bullet_speed_level p) (regen_timer p)
    (bullet_speed_multiplier p) (lifesteal_kills p).
Definition set_lifesteal_level (v : Z) (p : t) : t :=
  mk (position p) (radius p) (health p) (invuln_timer p) (shoot_cooldown p)
    (coins p) (speed_multiplier p) (fire_rate_multiplier p)
    (bullet_size_level p) (bullet_pierce_level p) (magnet_radius p)
    (max_health_bonus p) (armor p) (bullet_damage_level p) (coin_gain_level p)
    (dodge_level p) (regen_level p) v (crit_level p) (aoe_on_kill_level p)
    (magnet_bonus_level p) (bullet_speed_level p) (regen_timer p)
    (bullet_speed_multiplier p) (lifesteal_kills p).
Definition set_crit_level (v : Z) (p : t) : t :=
  mk (position p) (radius p) (health p) (invuln_timer p) (shoot_cooldown p)
    (coins p) (speed_multiplier p) (fire_rate_multiplier p)
    (bullet_size_level p) (bullet_pierce_level p) (magnet_radius p)
    (max_health_bonus p) (armor p) (bullet_damage_level p) (coin_gain_level p)
    (dodge_level p) (regen_level p) (lifesteal_level p) v
    (aoe_on_kill_level p) (magnet_bonus_level p) (bullet_speed_level p)
    (regen_timer p) (bullet_speed_multiplier p) (lifesteal_kills p).
Definition set_aoe_on_kill_level (v : Z) (p : t) : t :=
  mk (position p) (radius p) (health p) (invuln_timer p) (shoot_cooldown p)
    (coins p) (speed_multiplier p) (fire_rate_multiplier p)
    (bullet_size_level p) (bullet_pierce_level p) (magnet_radius p)
    (max_health_bonus p) (armor p) (bullet_damage_level p) (coin_gain_level p)
    (dodge_level p) (regen_level p) (lifesteal_level p) (crit_level p) v
    (magnet_bonus_level p) (bullet_speed_level p) (regen_timer p)
    (bullet_speed_multiplier p) (lifesteal_kills p).
Definition set_magnet_bonus_level (v : Z) (p : t) : t :=
  mk (position p) (radius p) (health p) (invuln_timer p) (shoot_cooldown p)
    (coins p) (speed_multiplier p) (fire_rate_multiplier p)
    (bullet_size_level p) (bullet_pierce_level p) (magnet_radius p)
    (max_health_bonus p) (armor p) (bullet_damage_level p) (coin_gain_level p)
    (dodge_level p) (regen_level p) (lifesteal_level p) (crit_level p)
    (aoe_on_kill_level p) v (bullet_speed_level p) (regen_timer p)
    (bullet_speed_multiplier p) (lifesteal_kills p).
Definition set_bullet_speed_level (v : Z) (p : t) : t :=
  mk (position p) (radius p) (health p) (invuln_timer p) (shoot_cooldown p)
    (coins p) (speed_multiplier p) (fire_rate_multiplier p)
    (bullet_size_level p) (bullet_pierce_level p) (magnet_radius p)
    (max_health_bonus p) (armor p) (bullet_damage_level p) (coin_gain_level p)
    (dodge_level p) (regen_level p) (lifesteal_level p) (crit_level p)
    (aoe_on_kill_level p) (magnet_bonus_level p) v (regen_timer p)
    (bullet_speed_multiplier p) (lifesteal_kills p).
Definition set_bullet_speed_multiplier (v : Q) (p : t) : t :=
  mk (position p) (radius p) (health p) (invuln_timer p) (shoot_cooldown p)
    (coins p) (speed_multiplier p) (fire_rate_multiplier p)
    (bullet_size_level p) (bullet_pierce_level p) (magnet_radius p)
    (max_health_bonus p) (armor p) (bullet_damage_level p) (coin_gain_level p)
    (dodge_level p) (regen_level p) (lifesteal_level p) (crit_level p)
    (aoe_on_kill_level p) (magnet_bonus_level p) (bullet_speed_level p)
    (regen_timer p) v (lifesteal_kills p).
Definition set_lifesteal_kills (v : Z) (p : t) : t :=
  mk (position p) (radius p) (health p) (invuln_timer p) (shoot_cooldown p)
    (coins p) (speed_multiplier p) (fire_rate_multiplier p)
    (bullet_size_level p) (bullet_pierce_level p) (magnet_radius p)
    (max_health_bonus p) (armor p) (bullet_damage_level p) (coin_gain_level p)
    (dodge_level p) (regen_level p) (lifesteal_level p) (crit_level p)
    (aoe_on_kill_level p) (magnet_bonus_level p) (bullet_speed_level p)
    (regen_timer p) (bullet_speed_multiplier p) v.

(** [Player.__init__] *)
Definition init (pos : Vec) : t :=
  mk pos PLAYER_RADIUS PLAYER_MAX_HEALTH 0 0 0 1 1 0 0 60 0 0 0 0
     0 0 0 0 0 0 0 0 1 0.

Definition max_health (p : t) : Z := PLAYER_MAX_HEALTH + max_health_bonus p.

Definition is_alive (p : t) : bool := 0 <? health p.

(** The chance compared with [random.random()] in [take_hit]. *)
Definition dodge_chance (p : t) : Q :=
  py_min 0.5 (0.05 * inject_Z (dodge_level p)).

(** Whether the hit is dodged when the draw is [u]; the draw is only made
    when [dodge_level > 0]. *)
Definition dodges (p : t) (u : Q) : bool :=
  (0 <? dodge_level p) && Qltb u (dodge_chance p).

(** [take_hit]; [u] is the value [random.random()] returns if it is called. *)
Definition take_hit (u : Q) (p : t) : t :=
  if Qltb 0 (invuln_timer p) then p
  else if dodges p u then set_invuln_timer 0.2 p
  else
    let p1 := if 0 <? armor p then set_armor (armor p - 1) p
              else set_health (health p - 1) p in
    set_invuln_timer INVULN_ON_HIT_SEC p1.

(** Whether [take_hit] consumes a draw of the generator. *)
Definition take_hit_draws (p : t) : bool :=
  negb (Qltb 0 (invuln_timer p)) && (0 <? dodge_level p).

Definition on_kill (p : t) : t :=
  if 0 <? lifesteal_level p then
    let p1 := set_lifesteal_kills (lifesteal_kills p + 1) p in
    let heal_interval := Z.max 1 (5 - lifesteal_level p1) in
    if heal_interval <=? lifesteal_kills p1 then
      let p2 := set_lifesteal_kills 0 p1 in
      set_health (Z.min (max_health p2) (health p2 + 1)) p2
    else p1
  else p.

(** The three outcomes of [try_shoot]: [None], a bullet (with the player
    whose cooldown was reset), or the [ZeroDivisionError] of
    [BULLET_COOLDOWN_SEC / self.fire_rate_multiplier]. *)
Inductive shot : Type :=
  | NoShot
  | Shot (b : Bullet.t) (p' : t)
  | ShotZeroDivision.

Definition try_shoot (normalize : Vec -> Vec) (aim_pos : Vec) (p : t) : shot :=
  if Qltb 0 (shoot_cooldown p) then NoShot
  else
    let direction := vsub aim_pos (position p) in
    if Qle_bool (length_squared direction) 0.000001 then NoShot
    else
      let direction := normalize direction in
      let speed_mult :=
        (bullet_speed_multiplier p
         * (1 + 0.08 * inject_Z (bullet_speed_level p)))%Q in
      let velocity := vscale (vscale direction BULLET_SPEED) speed_mult in
      if Qeq_bool (fire_rate_multiplier p) 0 then ShotZeroDivision
      else
        let cooldown := (BULLET_COOLDOWN_SEC / fire_rate_multiplier p)%Q in
        let p' := set_shoot_cooldown (py_max 0.02 cooldown) p in
        let size_multiplier := (1 + 0.35 * inject_Z (bullet_size_level p))%Q in
        let radius := (BULLET_RADIUS * size_multiplier)%Q in
        let pierce := bullet_pierce_level p in
        let dmg := 1 + bullet_damage_level p in
        Shot (Bullet.mk (position p) velocity radius pierce
                        BULLET_LIFETIME_SEC dmg) p'.

Definition set_position (v : Vec) (p : t) : t :=
  mk v (radius p) (health p) (invuln_timer p) (shoot_cooldown p) (coins p)
    (speed_multiplier p) (fire_rate_multiplier p) (bullet_size_level p)
    (bullet_pierce_level p) (magnet_radius p) (max_health_bonus p) (armor p)
    (bullet_damage_level p) (coin_gain_level p) (dodge_level p)
    (regen_level p) (lifesteal_level p) (crit_level p) (aoe_on_kill_level p)
    (magnet_bonus_level p) (bullet_speed_level p) (regen_timer p)
    (bullet_speed_multiplier p) (lifesteal_kills p).
Definition set_regen_timer (v : Q) (p : t) : t :=
  mk (position p) (radius p) (health p) (invuln_timer p) (shoot_cooldown p)
    (coins p) (speed_multiplier p) (fire_rate_multiplier p)
    (bullet_size_level p) (bullet_pierce_level p) (magnet_radius p)
    (max_health_bonus p) (armor p) (bullet_damage_level p) (coin_gain_level p)
    (dodge_level p) (regen_level p) (lifesteal_level p) (crit_level p)
    (aoe_on_kill_level p) (magnet_bonus_level p) (bullet_speed_level p) v
    (bullet_speed_multiplier p) (lifesteal_kills p).

(** The vector the pressed keys add up to. *)
Definition move_of (keys : Keys) : Vec :=
  let y := 0%Q in
  let y := if key_w keys || key_up keys then (y - 1)%Q else y in
  let y := if key_s keys || key_down keys then (y + 1)%Q else y in
  let x := 0%Q in
  let x := if key_a keys || key_left keys then (x - 1)%Q else x in
  let x := if key_d keys || key_right keys then (x + 1)%Q else x in
  Vector2 x y.

(** The passive regeneration at the end of [update]. *)
Definition regen (dt : Q) (p : t) : t :=
  if (0 <? regen_level p) && (health p <? max_health p) then
    let p1 := set_regen_timer (regen_timer p + dt) p in
    let interval := py_max 4 (12 - 1.6 * inject_Z (regen_level p1)) in
    if Qle_bool interval (regen_timer p1) then
      let p2 := set_regen_timer 0 p1 in
      set_health (Z.min (max_health p2) (health p2 + 1)) p2
    else p1
  else p.

Definition update (win : Window) (normalize : Vec -> Vec)
    (dt : Q) (keys : Keys) (p : t) : t :=
  let move := move_of keys in
  let move :=
    if Qltb 0 (length_squared move)
    then vscale (vscale (normalize move) PLAYER_SPEED) (speed_multiplier p)
    else move in
  let pos := vadd (position p) (vscale move dt) in
  let pos :=
    Vector2 (clamp (vx pos) (radius p) (WINDOW_WIDTH win - radius p)) (vy pos)
  in
  let pos :=
    Vector2 (vx pos) (clamp (vy pos) (radius p) (WINDOW_HEIGHT win - radius p))
  in
  let p := set_position pos p in
  let p :=
    if Qltb 0 (invuln_timer p)
    then set_invuln_timer (invuln_timer p - dt) p else p in
  let p :=
    if Qltb 0 (shoot_cooldown p)
    then set_shoot_cooldown (shoot_cooldown p - dt) p else p in
  regen dt p.
End Player.

(** ** Spawner *)

Module EnemySpawner.
Record t : Type := mk {
  timer : Q;
  current_interval : Q;
  accel_timer : Q;
  level : Z;
  kills_this_level : Z;
  boss_active : bool;
  level_transition_timer : Q;
  boss_banner_timer : Q
}.

Definition init : t :=
  mk ENEMY_SPAWN_EVERY_SEC ENEMY_SPAWN_EVERY_SEC 0 1 0 false 0 0.

Definition update (dt : Q) (s : t) : t :=
  if Qltb 0 (level_transition_timer s) then
    mk (timer s) (current_interval s) (accel_timer s) (level s)
       (kills_this_level s) (boss_active s)
       (level_transition_timer s - dt)%Q (boss_banner_timer s)
  else
    let timer' := (timer s - dt)%Q in
    let accel' := (accel_timer s + dt)%Q in
    if Qle_bool ENEMY_SPAWN_ACCEL_EVERY_SEC accel' then
      mk timer'
         (py_max 0.25 (current_interval s * ENEMY_SPAWN_ACCEL_FACTOR)%Q)
         0 (level s) (kills_this_level s) (boss_active s)
         (level_transition_timer s) (boss_banner_timer s)
    else
      mk timer' (current_interval s) accel' (level s) (kills_this_level s)
         (boss_active s) (level_transition_timer s) (boss_banner_timer s).

Definition should_spawn (s : t) : bool :=
  Qle_bool (timer s) 0 && Qle_bool (level_transition_timer s) 0.

Definition reset (s : t) : t :=
  mk (current_interval s) (current_interval s) (accel_timer s) (level s)
     (kills_this_level s) (boss_active s) (level_transition_timer s)
     (boss_banner_timer s).

Definition should_spawn_boss (s : t) : bool :=
  if boss_active s then false
  else
    let need :=
      LEVEL_KILLS_TO_BOSS_BASE + (level s - 1) * LEVEL_KILLS_TO_BOSS_INC in
    need <=? kills_this_level s.

(** [random.choice] of the four sides, read off one draw [u] of the oracle. *)
Inductive Side : Type := Top | Bottom | Left | Right.

Definition choose_side (u : Q) : Side :=
  match Qfloor (u * 4) with
  | 0 => Top
  | 1 => Bottom
  | 2 => Left
  | _ => Right
  end.

(** [spawn_boss]; [u_side] and [u_speed] are its two draws, in that order. *)
Definition spawn_boss (win : Window) (u_side u_speed : Q) (s : t)
    : Enemy.t * t :=
  let s' :=
    mk (timer s) (current_interval s) (accel_timer s) (level s)
       (kills_this_level s) true (level_transition_timer s) 1 in
  let pos :=
    match choose_side u_side with
    | Top => Vector2 (WINDOW_WIDTH win / 2) (- ENEMY_RADIUS * 4)
    | Bottom =>
        Vector2 (WINDOW_WIDTH win / 2) (WINDOW_HEIGHT win + ENEMY_RADIUS * 4)
    | Left => Vector2 (- ENEMY_RADIUS * 4) (WINDOW_HEIGHT win / 2)
    | Right =>
        Vector2 (WINDOW_WIDTH win + ENEMY_RADIUS * 4) (WINDOW_HEIGHT win / 2)
    end in
  let base_hp := 280 + 120 * (level s' - 1) in
  (Enemy.mk pos (uniform 100 140 u_speed) 34 base_hp base_hp true Plain, s').

Definition on_boss_killed (s : t) : t :=
  let interval := py_max 0.25 (current_interval s * 0.95)%Q in
  mk interval interval (accel_timer s) (level s + 1) 0 false 1.2
     (boss_banner_timer s).

(** [spawner.kills_this_level += 1] in [run]. *)
Definition count_kill (s : t) : t :=
  mk (timer s) (current_interval s) (accel_timer s) (level s)
     (kills_this_level s + 1) (boss_active s) (level_transition_timer s)
     (boss_banner_timer s).

(** [spawner.level += 10], the console and admin-panel command. *)
Definition cheat_level (s : t) : t :=
  mk (timer s) (current_interval s) (accel_timer s) (level s + 10)
     (kills_this_level s) (boss_active s) (level_transition_timer s)
     (boss_banner_timer s).

(** [spawn_enemy], reading its draws from [rng] at [cur] on: the side, the
    place along it, the speed, and from level 2 the roll for a shooter.  The
    second component is the cursor after the call. *)
Definition spawn_enemy (win : Window) (rng : nat -> Q) (cur : nat) (s : t)
    : Enemy.t * nat :=
  let side := choose_side (rng cur) in
  let u := rng (S cur) in
  let pos :=
    match side with
    | Top => Vector2 (uniform 0 (WINDOW_WIDTH win) u) (- ENEMY_RADIUS * 2)
    | Bottom =>
        Vector2 (uniform 0 (WINDOW_WIDTH win) u)
                (WINDOW_HEIGHT win + ENEMY_RADIUS * 2)
    | Left => Vector2 (- ENEMY_RADIUS * 2) (uniform 0 (WINDOW_HEIGHT win) u)
    | Right =>
        Vector2 (WINDOW_WIDTH win + ENEMY_RADIUS * 2)
                (uniform 0 (WINDOW_HEIGHT win) u)
    end in
  let speed :=
    (uniform ENEMY_SPEED_MIN ENEMY_SPEED_MAX (rng (S (S cur)))
     * (1 + 0.06 * inject_Z (level s - 1)))%Q in
  let plain :=
    let hp := 1 + (level s - 1) / 3 in
    Enemy.mk pos speed ENEMY_RADIUS hp hp false Plain in
  if 2 <=? level s then
    if Qltb (rng (S (S (S cur))))
            (py_min (0.20 + 0.04 * inject_Z (level s - 2)) 0.55)
    then
      let max_health := 3 + level s / 2 in
      let cooldown := py_max 0.9 (1.6 - 0.06 * inject_Z (level s)) in
      (Enemy.mk pos (speed * 0.95) (ENEMY_RADIUS + 2) max_health max_health
                false (Shooter cooldown cooldown),
       S (S (S (S cur))))
    else (plain, S (S (S (S cur))))
  else (plain, S (S (S cur))).
End EnemySpawner.

(** ** The state of a match

    The locals of [run] that the collision pass reads and writes, apart from
    the two lists it walks ([enemies] and [bullets]).  [cursor] counts the
    draws made from the oracle so far. *)

Record Match : Type := mkMatch {
  player : Player.t;
  spawner : EnemySpawner.t;
  coins : list Coin.t;
  explosions : list Explosion.t;
  score : Z;
  cursor : nat
}.

Section Collisions.
Variable rng : nat -> Q.

(** [for _ in range(n): coins.append(Coin(e.position, 2, Vector2(uniform(-180,
    180), uniform(-180, 180))))], the coins in the order they are appended. *)
Fixpoint boss_coins (n : nat) (pos : Vec) (cur : nat) : list Coin.t * nat :=
  match n with
  | O => ([], cur)
  | S n' =>
      let c :=
        Coin.mk pos 2
          (Vector2 (uniform (-180) 180 (rng cur))
                   (uniform (-180) 180 (rng (S cur)))) 6 in
      let '(cs, cur') := boss_coins n' pos (S (S cur)) in
      (c :: cs, cur')
  end.

(** The coin drop of a kill: the bundle of a boss (with
    [spawner.on_boss_killed()] and the armor roll), or the roll of a normal
    enemy. *)
Definition drop_coins (e : Enemy.t) (m : Match) : Match :=
  if Enemy.is_boss e then
    let '(cs, cur) := boss_coins 14 (Enemy.position e) (cursor m) in
    let sp := EnemySpawner.on_boss_killed (spawner m) in
    let p :=
      if Qltb (rng cur) 0.5
      then Player.set_armor (Player.armor (player m) + 1) (player m)
      else player m in
    mkMatch p sp (coins m ++ cs) (explosions m) (score m) (S cur)
  else
    let cur := cursor m in
    if Qltb (rng cur) NORMAL_DROP_CHANCE then
      let coin_value := if Qltb (rng (S cur)) 0.85 then 1 else 2 in
      let c :=
        Coin.mk (Enemy.position e) coin_value
          (Vector2 (uniform (-40) 40 (rng (S (S cur))))
                   (uniform (-40) 40 (rng (S (S (S cur)))))) 6 in
      mkMatch (player m) (spawner m) (coins m ++ [c]) (explosions m)
              (score m) (S (S (S (S cur))))
    else
      mkMatch (player m) (spawner m) (coins m) (explosions m) (score m)
              (S cur).

(** The body of [if e.health <= 0:] up to and including
    [spawner.kills_this_level += 1]; [e] already carries the new health. *)
Definition kill_effects (e : Enemy.t) (m : Match) : Match :=
  let p := Player.on_kill (player m) in
  let exps :=
    if 0 <? Player.aoe_on_kill_level p then
      let explosion_radius := 40 + 10 * Player.aoe_on_kill_level p in
      explosions m ++
        [Explosion.mk (Enemy.position e) 0 (inject_Z explosion_radius)
                      (1 + Player.aoe_on_kill_level p) 0.3]
    else explosions m in
  let m1 := mkMatch p (spawner m) (coins m) exps (score m + 1) (cursor m) in
  let m2 := drop_coins e m1 in
  mkMatch (player m2) (EnemySpawner.count_kill (spawner m2)) (coins m2)
          (explosions m2) (score m2) (cursor m2).

(** [if b.pierce_remaining > 0: b.pierce_remaining -= 1
     else: b.lifetime = 0.0], the same on a kill and on a plain hit. *)
Definition use_pierce (b : Bullet.t) : Bullet.t :=
  if 0 <? Bullet.pierce_remaining b
  then Bullet.set_pierce_remaining (Bullet.pierce_remaining b - 1) b
  else Bullet.set_lifetime 0 b.

(** The result of the inner loop [for b in bullets] for one enemy: the
    bullets (the one that hit updated in place), the enemy, whether it died,
    and the match. *)
Record Scan : Type := mkScan {
  scan_bullets : list Bullet.t;
  scan_enemy : Enemy.t;
  scan_dead : bool;
  scan_match : Match
}.

Fixpoint scan_bullets_for (e : Enemy.t) (bs : list Bullet.t) (m : Match)
    : Scan :=
  match bs with
  | [] => mkScan [] e false m
  | b :: rest =>
      if circle_intersects_circle (Enemy.position e) (Enemy.radius e)
                                  (Bullet.position b) (Bullet.radius b)
      then
        let e1 := Enemy.set_health (Enemy.health e - 1) e in
        if Enemy.health e1 <=? 0
        then mkScan (use_pierce b :: rest) e1 true (kill_effects e1 m)
        else mkScan (use_pierce b :: rest) e1 false m
      else
        let r := scan_bullets_for e rest m in
        mkScan (b :: scan_bullets r) (scan_enemy r) (scan_dead r)
               (scan_match r)
  end.

(** The outer loop [for e in enemies], building [alive_enemies]. *)
Fixpoint enemies_loop (es : list Enemy.t) (bs : list Bullet.t) (m : Match)
    : list Enemy.t * list Bullet.t * Match :=
  match es with
  | [] => ([], bs, m)
  | e :: rest =>
      let r := scan_bullets_for e bs m in
      let '(alive, bs', m') :=
        enemies_loop rest (scan_bullets r) (scan_match r) in
      (if scan_dead r then alive else scan_enemy r :: alive, bs', m')
  end.

(** "Collisions: bullets vs enemies" of [run], up to the purge of the
    bullets. *)
Definition bullets_vs_enemies (win : Window)
    (es : list Enemy.t) (bs : list Bullet.t) (m : Match)
    : list Enemy.t * list Bullet.t * Match :=
  let '(alive, bs', m') := enemies_loop es bs m in
  (alive, filter (fun b => Bullet.is_alive win b = true) bs', m').

(** "Spawn boss when ready", the last step of the same block. *)
Definition boss_gate (win : Window) (es : list Enemy.t) (m : Match)
    : list Enemy.t * Match :=
  if EnemySpawner.should_spawn_boss (spawner m) then
    let '(boss, sp) :=
      EnemySpawner.spawn_boss win (rng (cursor m)) (rng (S (cursor m)))
                              (spawner m) in
    (es ++ [boss],
     mkMatch (player m) sp (coins m) (explosions m) (score m)
             (S (S (cursor m))))
  else (es, m).

End Collisions.

(** "Pickup coins" of [run]: the coins the player overlaps are added to the
    balance and removed. *)
Fixpoint pickup_coins (cs : list Coin.t) (p : Player.t)
    : list Coin.t * Player.t :=
  match cs with
  | [] => ([], p)
  | c :: rest =>
      if circle_intersects_circle (Player.position p) (Player.radius p + 4)
                                  (Coin.position c) (Coin.radius c)
      then pickup_coins rest (Player.set_coins (Player.coins p + Coin.value c) p)
      else
        let '(remaining, p') := pickup_coins rest p in
        (c :: remaining, p')
  end.

(** ** The shop

    The six counters [run] keeps next to the player, and the page shown. *)

Record Shop : Type := mkShop {
  buyer : Player.t;
  speed_levels : Z;
  firerate_levels : Z;
  pierce_levels : Z;
  size_levels : Z;
  magnet_levels : Z;
  hp_levels : Z;
  shop_page : Z
}.

Definition set_buyer (p : Player.t) (s : Shop) : Shop :=
  mkShop p (speed_levels s) (firerate_levels s) (pierce_levels s)
         (size_levels s) (magnet_levels s) (hp_levels s) (shop_page s).
Definition set_shop_page (v : Z) (s : Shop) : Shop :=
  mkShop (buyer s) (speed_levels s) (firerate_levels s) (pierce_levels s)
         (size_levels s) (magnet_levels s) (hp_levels s) v.

(** [table[i]] on a Python list: negative indices count from the end, an
    index out of range raises [IndexError] ([None]). *)
Definition py_index (table : list Z) (i : Z) : option Z :=
  let n := Z.of_nat (length table) in
  if 0 <=? i then table !! Z.to_nat i
  else if - n <=? i then table !! Z.to_nat (n + i)
  else None.

(** [table[lvl] if lvl < len(table) else 0] *)
Definition cost_entry (table : list Z) (lvl : Z) : option Z :=
  if lvl <? Z.of_nat (length table) then py_index table lvl else Some 0.

Record Costs : Type := mkCosts {
  speed_cost : Z;
  firerate_cost : Z;
  pierce_cost : Z;
  size_cost : Z;
  magnet_cost : Z;
  hp_cost : Z;
  dmg_cost : Z;
  coin_cost : Z
}.

(** [compute_costs]; the dictionary is built entry by entry, so one failing
    lookup fails the call. *)
Definition compute_costs (s : Shop) : option Costs :=
  c1 ← cost_entry [10; 20; 35; 55] (speed_levels s);
  c2 ← cost_entry [12; 24; 40; 60; 85] (firerate_levels s);
  c3 ← cost_entry [15; 30; 50] (pierce_levels s);
  c4 ← cost_entry [12; 24; 40] (size_levels s);
  c5 ← cost_entry [10; 20; 32; 48] (magnet_levels s);
  c6 ← cost_entry [20; 40; 70; 110; 160] (hp_levels s);
  c7 ← cost_entry [18; 36; 60; 90; 130] (Player.bullet_damage_level (buyer s));
  c8 ← cost_entry [14; 28; 50] (Player.coin_gain_level (buyer s));
  Some (mkCosts c1 c2 c3 c4 c5 c6 c7 c8).

Inductive Upgrade : Type :=
  | UpSpeed | UpFirerate | UpPierce | UpSize | UpMagnet | UpHp | UpDmg
  | UpCoin.

Definition cost_of (u : Upgrade) (c : Costs) : Z :=
  match u with
  | UpSpeed => speed_cost c
  | UpFirerate => firerate_cost c
  | UpPierce => pierce_cost c
  | UpSize => size_cost c
  | UpMagnet => magnet_cost c
  | UpHp => hp_cost c
  | UpDmg => dmg_cost c
  | UpCoin => coin_cost c
  end.

(** What follows [player.coins -= cost] in each purchase ([save_state()]
    writes a file and changes nothing in memory). *)
Definition apply_upgrade (u : Upgrade) (s : Shop) : Shop :=
  let p := buyer s in
  match u with
  | UpSpeed =>
      mkShop (Player.set_speed_multiplier (Player.speed_multiplier p * 1.12) p)
             (speed_levels s + 1) (firerate_levels s) (pierce_levels s)
             (size_levels s) (magnet_levels s) (hp_levels s) (shop_page s)
  | UpFirerate =>
      mkShop (Player.set_fire_rate_multiplier
                (Player.fire_rate_multiplier p * 1.15) p)
             (speed_levels s) (firerate_levels s + 1) (pierce_levels s)
             (size_levels s) (magnet_levels s) (hp_levels s) (shop_page s)
  | UpPierce =>
      mkShop (Player.set_bullet_pierce_level
                (Player.bullet_pierce_level p + 1) p)
             (speed_levels s) (firerate_levels s) (pierce_levels s + 1)
             (size_levels s) (magnet_levels s) (hp_levels s) (shop_page s)
  | UpSize =>
      mkShop (Player.set_bullet_size_level (Player.bullet_size_level p + 1) p)
             (speed_levels s) (firerate_levels s) (pierce_levels s)
             (size_levels s + 1) (magnet_levels s) (hp_levels s) (shop_page s)
  | UpMagnet =>
      mkShop (Player.set_magnet_radius (Player.magnet_radius p + 60) p)
             (speed_levels s) (firerate_levels s) (pierce_levels s)
             (size_levels s) (magnet_levels s + 1) (hp_levels s) (shop_page s)
  | UpHp =>
      let p1 := Player.set_max_health_bonus (Player.max_health_bonus p + 1) p in
      let p2 :=
        Player.set_health
          (Z.min (Player.max_health p1) (Player.health p1 + 1)) p1 in
      mkShop p2 (speed_levels s) (firerate_levels s) (pierce_levels s)
             (size_levels s) (magnet_levels s) (hp_levels s + 1) (shop_page s)
  | UpDmg =>
      set_buyer (Player.set_bullet_damage_level
                   (Player.bullet_damage_level p + 1) p) s
  | UpCoin =>
      set_buyer (Player.set_coin_gain_level (Player.coin_gain_level p + 1) p) s
  end.

(** [cost = costs[...]; if cost > 0 and player.coins >= cost: ...] *)
Definition purchase (u : Upgrade) (costs : Costs) (s : Shop) : Shop :=
  let cost := cost_of u costs in
  if (0 <? cost) && (cost <=? Player.coins (buyer s)) then
    apply_upgrade u
      (set_buyer (Player.set_coins (Player.coins (buyer s) - cost) (buyer s)) s)
  else s.

Inductive Key : Type :=
  | K_1 | K_2 | K_3 | K_4 | K_5 | K_6 | K_7 | K_8
  | K_KP1 | K_KP2 | K_KP3 | K_KP4 | K_KP5 | K_KP6 | K_KP7 | K_KP8
  | K_LEFT | K_RIGHT | K_OTHER.

#[global] Instance Key_eq_dec : EqDecision Key.
Proof. solve_decision. Defined.

(** [event.key in (a, b)] *)
Definition key_in (k a b : Key) : bool := bool_decide (k = a ∨ k = b).

Definition when (c : bool) (f : Shop -> Shop) (s : Shop) : Shop :=
  if c then f s else s.

(** The [if shop_open:] part of the [KEYDOWN] handler.  [None] is the
    [IndexError] of [compute_costs]. *)
Definition shop_keydown (key : Key) (s : Shop) : option Shop :=
  costs ← compute_costs s;
  let s := when (key_in key K_1 K_KP1) (purchase UpSpeed costs) s in
  let s := when (key_in key K_2 K_KP2) (purchase UpFirerate costs) s in
  let s := when (key_in key K_3 K_KP3) (purchase UpPierce costs) s in
  let s := when (key_in key K_4 K_KP4) (purchase UpSize costs) s in
  let s := when (key_in key K_5 K_KP5) (purchase UpMagnet costs) s in
  let s := when (key_in key K_6 K_KP6) (purchase UpHp costs) s in
  let s := when (bool_decide (key = K_LEFT)) (set_shop_page 0) s in
  let s := when (bool_decide (key = K_RIGHT)) (set_shop_page 1) s in
  let s :=
    when (shop_page s =? 1)
      (fun s =>
         let s := when (key_in key K_7 K_KP7) (purchase UpDmg costs) s in
         when (key_in key K_8 K_KP8) (purchase UpCoin costs) s) s in
  Some s.

(** The [MOUSEBUTTONDOWN] handler of the shop for the button of index [idx]
    under the pointer.  [draw_shop] returns six buttons on page 0 and two on
    the other page, and they do not overlap. *)
Definition shop_buttons (s : Shop) : nat :=
  if shop_page s =? 0 then 6%nat else 2%nat.

Definition shop_click (idx : nat) (s : Shop) : option Shop :=
  costs ← compute_costs s;
  if bool_decide (idx < shop_buttons s)%nat then
    Some
      match idx with
      | 0%nat => purchase UpSpeed costs s
      | 1%nat => purchase UpFirerate costs s
      | 2%nat => purchase UpPierce costs s
      | 3%nat => purchase UpSize costs s
      | 4%nat => purchase UpMagnet costs s
      | 5%nat => if shop_page s =? 0 then purchase UpHp costs s else s
      | _ => s
      end
  else Some s.

(** ** The item shop

    The click handler of the second shop, for the button [kc] under the
    pointer.  [u1] and [u2] are the draws behind [random.choice] (index
    [floor (4 * u1)]) and [random.randint(5, 12)] ([5 + floor (8 * u2)]) of
    the chest. *)

Inductive Item : Type :=
  | ItQ | ItW | ItE | ItR | ItT | ItY | ItU | ItI | ItO | ItP.

(** [int(base * (1 + 0.5 * lvl))] *)
Definition item_cost (base : Q) (lvl : Z) : Z :=
  py_int (base * (1 + 0.5 * inject_Z lvl)).

Definition pay (cost : Z) (p : Player.t) : Player.t :=
  Player.set_coins (Player.coins p - cost) p.

Definition heal_one (p : Player.t) : Player.t :=
  Player.set_health (Z.min (Player.max_health p) (Player.health p + 1)) p.

Definition open_chest (u1 u2 : Q) (p : Player.t) : Player.t :=
  match Qfloor (u1 * 4) with
  | 0 => Player.set_armor (Player.armor p + 1) p
  | 1 => heal_one p
  | 2 => Player.set_bullet_damage_level (Player.bullet_damage_level p + 1) p
  | _ => Player.set_coins (Player.coins p + (5 + Qfloor (u2 * 8))) p
  end.

Definition item_click (kc : Item) (u1 u2 : Q) (p : Player.t) : Player.t :=
  let afford cost := cost <=? Player.coins p in
  match kc with
  | ItQ =>
      let cost := item_cost 16 (Player.dodge_level p) in
      if afford cost
      then let p := pay cost p in
           Player.set_dodge_level (Player.dodge_level p + 1) p
      else p
  | ItW =>
      let cost := item_cost 20 (Player.regen_level p) in
      if afford cost
      then let p := pay cost p in
           Player.set_regen_level (Player.regen_level p + 1) p
      else p
  | ItE =>
      let cost := item_cost 28 (Player.lifesteal_level p) in
      if afford cost
      then let p := pay cost p in
           Player.set_lifesteal_level (Player.lifesteal_level p + 1) p
      else p
  | ItR =>
      let cost := item_cost 24 (Player.crit_level p) in
      if afford cost
      then let p := pay cost p in
           Player.set_crit_level (Player.crit_level p + 1) p
      else p
  | ItT =>
      let cost := item_cost 30 (Player.aoe_on_kill_level p) in
      if afford cost
      then let p := pay cost p in
           Player.set_aoe_on_kill_level (Player.aoe_on_kill_level p + 1) p
      else p
  | ItY =>
      let cost := item_cost 12 (Player.magnet_bonus_level p) in
      if afford cost
      then let p := pay cost p in
           let p :=
             Player.set_magnet_bonus_level (Player.magnet_bonus_level p + 1) p
           in Player.set_magnet_radius (Player.magnet_radius p + 20) p
      else p
  | ItU =>
      let cost := item_cost 14 (Player.bullet_speed_level p) in
      if afford cost
      then let p := pay cost p in
           Player.set_bullet_speed_level (Player.bullet_speed_level p + 1) p
      else p
  | ItI =>
      if afford 22
      then let p := pay 22 p in Player.set_armor (Player.armor p + 1) p
      else p
  | ItO => if afford 18 then heal_one (pay 18 p) else p
  | ItP => if afford 26 then open_chest u1 u2 (pay 26 p) else p
  end.

(** ** Loading a saved game

    What [json.load] can return for a field.  The contents of arrays and
    nested objects play no part ([int] and [float] raise [TypeError] on
    both); the non-standard literals [NaN] and [Infinity] are left out. *)

Inductive json : Type :=
  | JNull
  | JBool (b : bool)
  | JInt (n : Z)
  | JFloat (x : Q)
  | JString (s : string)
  | JArray
  | JObject.

(** The file [save.json]: absent, not loadable as a dictionary ([json.load]
    or the first [data.get] raises), or a dictionary. *)
Inductive SaveFile : Type :=
  | SaveMissing
  | SaveBroken
  | SaveDict (data : gmap string json).

Record Loaded : Type := mkLoaded {
  loaded_speed : Z;
  loaded_firerate : Z;
  loaded_pierce : Z;
  loaded_size : Z;
  loaded_magnet : Z;
  loaded_hp : Z
}.

Definition loaded_zero : Loaded := mkLoaded 0 0 0 0 0 0.

Section Restore.
(** [int(s)] and [float(s)] of a string are Python's own parsers. *)
Variable int_of_str : string -> option Z.
Variable float_of_str : string -> option Q.

(** [int(v)]; [None] is the [TypeError] or [ValueError]. *)
Definition int_of (v : json) : option Z :=
  match v with
  | JNull => None
  | JBool b => Some (if b then 1 else 0)
  | JInt n => Some n
  | JFloat x => Some (py_int x)
  | JString s => int_of_str s
  | JArray => None
  | JObject => None
  end.

(** [float(v)] *)
Definition float_of (v : json) : option Q :=
  match v with
  | JNull => None
  | JBool b => Some (if b then 1%Q else 0%Q)
  | JInt n => Some (inject_Z n)
  | JFloat x => Some x
  | JString s => float_of_str s
  | JArray => None
  | JObject => None
  end.

(** [int(data.get(key, default))] and [float(data.get(key, default))] *)
Definition get_int (data : gmap string json) (key : string) (default : Z)
    : option Z :=
  match data !! key with
  | Some v => int_of v
  | None => Some default
  end.

Definition get_float (data : gmap string json) (key : string) (default : Q)
    : option Q :=
  match data !! key with
  | Some v => float_of v
  | None => Some default
  end.

(** One statement of the [try] block: on an exception the player keeps the
    assignments made so far and no counter is loaded. *)
Definition stmt {A : Type} (e : option A) (p : Player.t)
    (k : A -> Player.t * option Loaded) : Player.t * option Loaded :=
  match e with
  | Some v => k v
  | None => (p, None)
  end.

Definition load_fields (data : gmap string json) (p : Player.t)
    : Player.t * option Loaded :=
  stmt (get_int data "coins" 0) p (fun v =>
  let p := Player.set_coins v p in
  stmt (get_float data "speed_multiplier" 1) p (fun v =>
  let p := Player.set_speed_multiplier v p in
  stmt (get_float data "fire_rate_multiplier" 1) p (fun v =>
  let p := Player.set_fire_rate_multiplier v p in
  stmt (get_int data "bullet_size_level" 0) p (fun v =>
  let p := Player.set_bullet_size_level v p in
  stmt (get_int data "bullet_pierce_level" 0) p (fun v =>
  let p := Player.set_bullet_pierce_level v p in
  stmt (get_float data "magnet_radius" 60) p (fun v =>
  let p := Player.set_magnet_radius v p in
  stmt (get_int data "max_health_bonus" 0) p (fun v =>
  let p := Player.set_max_health_bonus v p in
  stmt (get_int data "armor" 0) p (fun v =>
  let p := Player.set_armor v p in
  stmt (get_int data "bullet_damage_level" 0) p (fun v =>
  let p := Player.set_bullet_damage_level v p in
  stmt (get_int data "coin_gain_level" 0) p (fun v =>
  let p := Player.set_coin_gain_level v p in
  let p := Player.set_health (Player.max_health p) p in
  stmt (get_int data "speed_levels" 0) p (fun l1 =>
  stmt (get_int data "firerate_levels" 0) p (fun l2 =>
  stmt (get_int data "pierce_levels" 0) p (fun l3 =>
  stmt (get_int data "size_levels" 0) p (fun l4 =>
  stmt (get_int data "magnet_levels" 0) p (fun l5 =>
  stmt (get_int data "hp_levels" 0) p (fun l6 =>
  (p, Some (mkLoaded l1 l2 l3 l4 l5 l6)))))))))))))))))).

(** "try load save" of [run], applied to the player [Player(...)] just
    built. *)
Definition load_save (f : SaveFile) (p : Player.t) : Player.t * Loaded :=
  match f with
  | SaveMissing => (p, loaded_zero)
  | SaveBroken => (p, loaded_zero)
  | SaveDict data =>
      match load_fields data p with
      | (p', Some l) => (p', l)
      | (p', None) => (p', loaded_zero)
      end
  end.

End Restore.

(** The shop state a match starts with. *)
Definition open_shop (p : Player.t) (l : Loaded) : Shop :=
  mkShop p (loaded_speed l) (loaded_firerate l) (loaded_pierce l)
         (loaded_size l) (loaded_magnet l) (loaded_hp l) 0.

(** ** Histories of the spawner

    Everything [run] and the console do to the spawner. *)

Inductive SpawnerEvent : Type :=
  | EvUpdate (dt : Q)
  | EvRearm
  | EvSpawnBoss (win : Window) (u_side u_speed : Q)
  | EvBossKilled
  | EvKill
  | EvCheatLevel.

Definition spawner_step (s : EnemySpawner.t) (ev : SpawnerEvent)
    : EnemySpawner.t :=
  match ev with
  | EvUpdate dt => EnemySpawner.update dt s
  | EvRearm => EnemySpawner.reset s
  | EvSpawnBoss win u1 u2 => snd (EnemySpawner.spawn_boss win u1 u2 s)
  | EvBossKilled => EnemySpawner.on_boss_killed s
  | EvKill => EnemySpawner.count_kill s
  | EvCheatLevel => EnemySpawner.cheat_level s
  end.

Definition spawner_run (evs : list SpawnerEvent) : EnemySpawner.t :=
  fold_left spawner_step evs EnemySpawner.init.

(** ** Vocabulary of the statements

    What the specification says of the bullet/enemy pass, enemy by enemy: an
    enemy is struck when some bullet of the list overlaps it, a struck enemy
    loses one point of health, and it leaves the list when that brings its
    health to zero or below. *)

Definition overlaps (e : Enemy.t) (b : Bullet.t) : bool :=
  circle_intersects_circle (Enemy.position e) (Enemy.radius e)
                           (Bullet.position b) (Bullet.radius b).

Definition struck (bs : list Bullet.t) (e : Enemy.t) : bool :=
  existsb (overlaps e) bs.

Definition hurt (e : Enemy.t) : Enemy.t :=
  Enemy.set_health (Enemy.health e - 1) e.

Definition killed (bs : list Bullet.t) (e : Enemy.t) : bool :=
  struck bs e && (Enemy.health e - 1 <=? 0).

Definition survivor (bs : list Bullet.t) (e : Enemy.t) : option Enemy.t :=
  if struck bs e
  then if Enemy.health e - 1 <=? 0 then None else Some (hurt e)
  else Some e.

(** The bullets [bs] with their [damage] fields replaced by [dmg]. *)
Definition redamage (dmg : Bullet.t -> Z) (bs : list Bullet.t)
    : list Bullet.t :=
  map (fun b => Bullet.set_damage (dmg b) b) bs.

(** Two bullets at the same place with the same radius. *)
Definition same_shape (b b' : Bullet.t) : Prop :=
  Bullet.position b = Bullet.position b' /\ Bullet.radius b = Bullet.radius b'.

(** The upgrade a key asks for on a page of the shop: 1 to 6 on either page,
    7 and 8 on the second page only. *)
Definition addressed (key : Key) (page : Z) : option Upgrade :=
  match key with
  | K_1 | K_KP1 => Some UpSpeed
  | K_2 | K_KP2 => Some UpFirerate
  | K_3 | K_KP3 => Some UpPierce
  | K_4 | K_KP4 => Some UpSize
  | K_5 | K_KP5 => Some UpMagnet
  | K_6 | K_KP6 => Some UpHp
  | K_7 | K_KP7 => if page =? 1 then Some UpDmg else None
  | K_8 | K_KP8 => if page =? 1 then Some UpCoin else None
  | K_LEFT | K_RIGHT | K_OTHER => None
  end.

(** The effect of each upgrade as the specification lists it, between the
    shop before ([s]) and after ([s']) the purchase. *)
Definition upgraded (u : Upgrade) (s s' : Shop) : Prop :=
  let p := buyer s in
  let p' := buyer s' in
  match u with
  | UpSpeed =>
      speed_levels s' = speed_levels s + 1
      /\ Player.speed_multiplier p' = (Player.speed_multiplier p * 1.12)%Q
  | UpFirerate =>
      firerate_levels s' = firerate_levels s + 1
      /\ Player.fire_rate_multiplier p'
         = (Player.fire_rate_multiplier p * 1.15)%Q
  | UpPierce =>
      pierce_levels s' = pierce_levels s + 1
      /\ Player.bullet_pierce_level p' = Player.bullet_pierce_level p + 1
  | UpSize =>
      size_levels s' = size_levels s + 1
      /\ Player.bullet_size_level p' = Player.bullet_size_level p + 1
  | UpMagnet =>
      magnet_levels s' = magnet_levels s + 1
      /\ Player.magnet_radius p' = (Player.magnet_radius p + 60)%Q
  | UpHp =>
      hp_levels s' = hp_levels s + 1
      /\ Player.max_health_bonus p' = Player.max_health_bonus p + 1
      /\ Player.health p' = Z.min (Player.max_health p') (Player.health p + 1)
  | UpDmg => Player.bullet_damage_level p' = Player.bullet_damage_level p + 1
  | UpCoin => Player.coin_gain_level p' = Player.coin_gain_level p + 1
  end.

(** Everything of the shop but the page shown. *)
Definition same_goods (s s' : Shop) : Prop :=
  buyer s' = buyer s
  /\ speed_levels s' = speed_levels s
  /\ firerate_levels s' = firerate_levels s
  /\ pierce_levels s' = pierce_levels s
  /\ size_levels s' = size_levels s
  /\ magnet_levels s' = magnet_levels s
  /\ hp_levels s' = hp_levels s.

(** ** Sample states

    A player at the centre of a 960 x 540 window, as [run] creates it. *)

Definition sample_window : Window := Build_Window 960 540.

Definition sample_player : Player.t := Player.init (Vector2 480 270).

(** The shop of a new game, with 25 coins in hand. *)
Definition sample_shop : Shop :=
  open_shop (Player.set_coins 25 sample_player) loaded_zero.

Definition sample_costs : Costs := mkCosts 10 12 15 12 10 20 18 14.

(** [Vector2.normalize] on the vectors that point along the positive x axis,
    which is where the sample shots are aimed. *)
Definition unit_x (v : Vec) : Vec := Vector2 1 0.

(** An aim point half a thousandth of a pixel to the right of the sample
    player, and one a hundred pixels to the right. *)
Definition near_aim : Vec := Vector2 480.0005 270.
Definition far_aim : Vec := Vector2 580 270.

(** Whether a key is absent from what was saved. *)
Definition missing (f : SaveFile) (key : string) : Prop :=
  match f with
  | SaveDict data => data !! key = None
  | _ => True
  end.

(** A save whose [armor] is [null]. *)
Definition torn_save : gmap string json :=
  <["max_health_bonus" := JInt 2]> (<["armor" := JNull]> ∅).

(** A boss with one point of health left, plain enemies standing next to
    it, and a bullet on top of them all. *)
Definition sample_boss : Enemy.t :=
  Enemy.mk (Vector2 100 100) 120 34 280 1 true Plain.

Definition sample_grunt (x : Q) : Enemy.t :=
  Enemy.mk (Vector2 x 100) 100 ENEMY_RADIUS 1 1 false Plain.

Definition sample_bullet (pierce : Z) : Bullet.t :=
  Bullet.mk (Vector2 100 100) (Vector2 600 0) BULLET_RADIUS pierce
            BULLET_LIFETIME_SEC 1.

(** A new match, and a match at level 1 in which the boss has come after 30
    kills. *)
Definition new_match : Match :=
  mkMatch sample_player EnemySpawner.init [] [] 0 0.

Definition boss_fight : Match :=
  mkMatch sample_player (EnemySpawner.mk 0.5 1.1 3 1 30 true 0 0) [] [] 0 0.

(** The same player with other crit and coin-gain levels, and the same match
    around such a player. *)
Definition relabel (crit gain : Z) (p : Player.t) : Player.t :=
  Player.set_crit_level crit (Player.set_coin_gain_level gain p).

Definition relabel_match (crit gain : Z) (m : Match) : Match :=
  mkMatch (relabel crit gain (player m)) (spawner m) (coins m) (explosions m)
          (score m) (cursor m).

Definition relabel_shot (crit gain : Z) (r : Player.shot) : Player.shot :=
  match r with
  | Player.NoShot => Player.NoShot
  | Player.Shot b p' => Player.Shot b (relabel crit gain p')
  | Player.ShotZeroDivision => Player.ShotZeroDivision
  end.

(** ** The rest of a tick of [run]

    The updates of the lists and the collision passes on the player. *)

Section Tick.
Variable win : Window.
Variable normalize : Vec -> Vec.
Variable rng : nat -> Q.



Definition explosions_update (dt : Q) (xs : list Explosion.t)
    : list Explosion.t :=
  filter (fun x => Explosion.is_alive x = true) (map (Explosion.update dt) xs).

(** [spawner.update(dt)] and the spawn that follows when the timer has run
    out. *)
Definition spawn_step (dt : Q) (es : list Enemy.t) (sp : EnemySpawner.t)
    (cur : nat) : list Enemy.t * EnemySpawner.t * nat :=
  let sp1 := EnemySpawner.update dt sp in
  if Qle_bool (EnemySpawner.timer sp1) 0 then
    let '(e, cur') := EnemySpawner.spawn_enemy win rng cur sp1 in
    (es ++ [e], EnemySpawner.reset sp1, cur')
  else (es, sp1, cur).

(** [for e in enemies: e.update(dt, player.position)] with the shot of a
    shooter that is ready. *)
Fixpoint enemies_update (dt : Q) (player_pos : Vec) (level : Z)
    (es : list Enemy.t) (ebs : list EnemyBullet.t)
    : list Enemy.t * list EnemyBullet.t :=
  match es with
  | [] => ([], ebs)
  | e :: rest =>
      let e1 := Enemy.update normalize dt player_pos e in
      let '(e2, ebs1) :=
        if Enemy.ready_to_shoot e1 then
          let dir_vec := vsub player_pos (Enemy.position e1) in
          if Qltb 0.000001 (length_squared dir_vec) then
            let v := vscale (normalize dir_vec) (inject_Z (220 + 6 * level)) in
            (Enemy.reset_shoot e1,
             ebs ++ [EnemyBullet.mk (Enemy.position e1) v 3 3])
          else (e1, ebs)
        else (e1, ebs) in
      let '(rest', ebs2) := enemies_update dt player_pos level rest ebs1 in
      (e2 :: rest', ebs2)
  end.

(** [player.take_hit()] with the draw it may make. *)
Definition hit_player (p : Player.t) (cur : nat) : Player.t * nat :=
  (Player.take_hit (rng cur) p,
   if Player.take_hit_draws p then S cur else cur).

(** "Collisions: enemies vs player". *)
Fixpoint enemies_vs_player (es : list Enemy.t) (p : Player.t) (cur : nat)
    : list Enemy.t * Player.t * nat :=
  match es with
  | [] => ([], p, cur)
  | e :: rest =>
      if circle_intersects_circle (Player.position p) (Player.radius p)
                                  (Enemy.position e) (Enemy.radius e)
      then
        let '(p1, cur1) := hit_player p cur in
        let to_enemy := vsub (Enemy.position e) (Player.position p1) in
        let e1 :=
          if Qltb 0 (length_squared to_enemy)
          then Enemy.set_position
                 (vadd (Enemy.position e) (vscale (normalize to_enemy) 12)) e
          else e in
        let '(rest', p2, cur2) := enemies_vs_player rest p1 cur1 in
        (e1 :: rest', p2, cur2)
      else
        let '(rest', p2, cur2) := enemies_vs_player rest p cur in
        (e :: rest', p2, cur2)
  end.

(** "Collisions: enemy bullets vs player". *)
Fixpoint enemy_bullets_vs_player (ebs : list EnemyBullet.t) (p : Player.t)
    (cur : nat) : list EnemyBullet.t * Player.t * nat :=
  match ebs with
  | [] => ([], p, cur)
  | eb :: rest =>
      if circle_intersects_circle (Player.position p) (Player.radius p)
                                  (EnemyBullet.position eb)
                                  (EnemyBullet.radius eb)
      then
        let '(p1, cur1) := hit_player p cur in
        enemy_bullets_vs_player rest p1 cur1
      else
        let '(remaining, p2, cur2) := enemy_bullets_vs_player rest p cur in
        (eb :: remaining, p2, cur2)
  end.

End Tick.

(** ** Saving

    The dictionary [save_state] hands to [json.dump]. *)
Definition save_state (s : Shop) : gmap string json :=
  let p := buyer s in
  list_to_map
    [ ("coins", JInt (Player.coins p));
      ("speed_multiplier", JFloat (Player.speed_multiplier p));
      ("fire_rate_multiplier", JFloat (Player.fire_rate_multiplier p));
      ("bullet_size_level", JInt (Player.bullet_size_level p));
      ("bullet_pierce_level", JInt (Player.bullet_pierce_level p));
      ("magnet_radius", JFloat (Player.magnet_radius p));
      ("max_health_bonus", JInt (Player.max_health_bonus p));
      ("armor", JInt (Player.armor p));
      ("bullet_damage_level", JInt (Player.bullet_damage_level p));
      ("coin_gain_level", JInt (Player.coin_gain_level p));
      ("speed_levels", JInt (speed_levels s));
      ("firerate_levels", JInt (firerate_levels s));
      ("pierce_levels", JInt (pierce_levels s));
      ("size_levels", JInt (size_levels s));
      ("magnet_levels", JInt (magnet_levels s));
      ("hp_levels", JInt (hp_levels s)) ].

(** ** Vocabulary of the further properties *)

(** What a collision pass may have done to a bullet [b] that is now [b']:
    the pierce count may have gone down (never below zero from a count that
    was not negative) and the lifetime may have been set to zero; nothing else
    changes. *)
Definition worn (b b' : Bullet.t) : Prop :=
  Bullet.position b' = Bullet.position b
  /\ Bullet.velocity b' = Bullet.velocity b
  /\ Bullet.radius b' = Bullet.radius b
  /\ Bullet.damage b' = Bullet.damage b
  /\ Bullet.pierce_remaining b' <= Bullet.pierce_remaining b
  /\ (0 <= Bullet.pierce_remaining b -> 0 <= Bullet.pierce_remaining b')
  /\ (Bullet.lifetime b' = Bullet.lifetime b \/ Bullet.lifetime b' = 0%Q).

(** An enemy, an enemy bullet and a coin that the player overlaps, the coin
    with the four extra pixels of the pickup. *)
Definition touches (p : Player.t) (e : Enemy.t) : bool :=
  circle_intersects_circle (Player.position p) (Player.radius p)
                           (Enemy.position e) (Enemy.radius e).

Definition grazes (p : Player.t) (eb : EnemyBullet.t) : bool :=
  circle_intersects_circle (Player.position p) (Player.radius p)
                           (EnemyBullet.position eb) (EnemyBullet.radius eb).

Definition reaches (p : Player.t) (c : Coin.t) : bool :=
  circle_intersects_circle (Player.position p) (Player.radius p + 4)
                           (Coin.position c) (Coin.radius c).

(** The worth of a list of coins. *)
Definition worth (cs : list Coin.t) : Z :=
  foldr (fun c acc => Coin.value c + acc) 0 cs.

(** A generator whose every draw is one half. *)
Definition steady_rng (n : nat) : Q := 0.5%Q.

(** The counter [compute_costs] reads for an upgrade, and the length of its
    price table. *)
Definition counter (u : Upgrade) (s : Shop) : Z :=
  match u with
  | UpSpeed => speed_levels s
  | UpFirerate => firerate_levels s
  | UpPierce => pierce_levels s
  | UpSize => size_levels s
  | UpMagnet => magnet_levels s
  | UpHp => hp_levels s
  | UpDmg => Player.bullet_damage_level (buyer s)
  | UpCoin => Player.coin_gain_level (buyer s)
  end.

Definition cap (u : Upgrade) : Z :=
  match u with
  | UpSpeed => 4
  | UpFirerate => 5
  | UpPierce => 3
  | UpSize => 3
  | UpMagnet => 4
  | UpHp => 5
  | UpDmg => 5
  | UpCoin => 3
  end.

(** The keys [load_save] converts with [int] and with [float]. *)
Definition int_keys : list string :=
  ["coins"; "bullet_size_level"; "bullet_pierce_level"; "max_health_bonus";
   "armor"; "bullet_damage_level"; "coin_gain_level"; "speed_levels";
   "firerate_levels"; "pierce_levels"; "size_levels"; "magnet_levels";
   "hp_levels"].

Definition float_keys : list string :=
  ["speed_multiplier"; "fire_rate_multiplier"; "magnet_radius"].

(** A coin of value 1 or 2. *)
Definition small_coin (c : Coin.t) : Prop :=
  Coin.value c = 1 \/ Coin.value c = 2.

Definition is_shooter (e : Enemy.t) : bool :=
  match Enemy.kind e with
  | Plain => false
  | Shooter _ _ => true
  end.

(** What one enemy of the pass does to the match. *)
Definition kill_step (rng : nat -> Q) (bs : list Bullet.t)
    (m : Match) (e : Enemy.t) : Match :=
  if killed bs e then kill_effects rng (hurt e) m else m.
(** * Properties *)

(** ** Comparisons *)

Lemma Qltb_lt (x y : Q) : Qltb x y = true <-> (x < y)%Q.
Proof.
  unfold Qltb. rewrite negb_true_iff, <- not_true_iff_false, Qle_bool_iff.
  split; [apply Qnot_le_lt | apply Qlt_not_le].
Qed.

Lemma Qltb_ge (x y : Q) : Qltb x y = false <-> (y <= x)%Q.
Proof.
  unfold Qltb. rewrite negb_false_iff. apply Qle_bool_iff.
Qed.

Lemma Qle_bool_gt (x y : Q) : Qle_bool x y = false <-> (y < x)%Q.
Proof.
  rewrite <- not_true_iff_false, Qle_bool_iff.
  split; [apply Qnot_le_lt | apply Qlt_not_le].
Qed.

Lemma py_max_lower (a b : Q) : (a <= py_max a b)%Q.
Proof.
  unfold py_max. destruct (Qltb a b) eqn:E.
  - apply Qltb_lt in E. lra.
  - lra.
Qed.

Lemma py_max_shrink (a b c : Q) : (a <= c)%Q -> (b <= c)%Q -> (py_max a b <= c)%Q.
Proof. unfold py_max. destruct (Qltb a b); auto. Qed.

(** ** The spawn interval *)

Lemma spawner_step_interval (s : EnemySpawner.t) (ev : SpawnerEvent) :
  (0.25 <= EnemySpawner.current_interval s)%Q ->
  (0.25 <= EnemySpawner.current_interval (spawner_step s ev))%Q
  /\ (EnemySpawner.current_interval (spawner_step s ev)
      <= EnemySpawner.current_interval s)%Q.
Proof.
  intros Hs. destruct ev; cbn.
  - unfold EnemySpawner.update.
    destruct (Qltb 0 _); [cbn; lra|].
    destruct (Qle_bool _ _); cbn; [|lra].
    split; [apply py_max_lower|].
    apply py_max_shrink; [assumption|]. unfold ENEMY_SPAWN_ACCEL_FACTOR. lra.
  - lra.
  - lra.
  - split; [apply py_max_lower|]. apply py_max_shrink; [assumption|lra].
  - lra.
  - lra.
Qed.

Lemma spawner_fold_floor (evs : list SpawnerEvent) (s : EnemySpawner.t) :
  (0.25 <= EnemySpawner.current_interval s)%Q ->
  (0.25 <= EnemySpawner.current_interval (fold_left spawner_step evs s))%Q.
Proof.
  revert s. induction evs as [|ev evs IH]; intros s Hs; cbn; [assumption|].
  apply IH. now apply spawner_step_interval.
Qed.

Lemma spawner_run_floor (evs : list SpawnerEvent) :
  (0.25 <= EnemySpawner.current_interval (spawner_run evs))%Q.
Proof. apply spawner_fold_floor. cbn. unfold ENEMY_SPAWN_EVERY_SEC. lra. Qed.

Lemma spawner_run_snoc (evs : list SpawnerEvent) (ev : SpawnerEvent) :
  spawner_run (evs ++ [ev]) = spawner_step (spawner_run evs) ev.
Proof. unfold spawner_run. now rewrite fold_left_app. Qed.

(** C7.  Along every history of the spawner (updates by any time step, boss
    kills, and everything else the program does to it) the spawn interval
    never grows: after any continuation of a history it is at most what it
    was, and it is never below the floor of 0.25 s. *)
Theorem spawn_interval_monotone_floor (evs later : list SpawnerEvent) :
  (EnemySpawner.current_interval (spawner_run (evs ++ later))
   <= EnemySpawner.current_interval (spawner_run evs))%Q
  /\ (0.25 <= EnemySpawner.current_interval (spawner_run (evs ++ later)))%Q.
Proof.
  split; [|apply spawner_run_floor].
  induction later as [|ev later IH] using rev_ind.
  - rewrite app_nil_r. lra.
  - rewrite app_assoc, spawner_run_snoc.
    pose proof (spawner_step_interval (spawner_run (evs ++ later)) ev
                  (spawner_run_floor _)) as [_ H].
    lra.
Qed.

(** ** The boss gate *)

Lemma should_spawn_boss_iff (s : EnemySpawner.t) :
  EnemySpawner.should_spawn_boss s = true
  <-> EnemySpawner.boss_active s = false
      /\ 30 + (EnemySpawner.level s - 1) * 10
         <= EnemySpawner.kills_this_level s.
Proof.
  unfold EnemySpawner.should_spawn_boss, LEVEL_KILLS_TO_BOSS_BASE,
    LEVEL_KILLS_TO_BOSS_INC.
  destruct (EnemySpawner.boss_active s).
  - split; [discriminate | intros [H _]; discriminate].
  - rewrite Z.leb_le. tauto.
Qed.

Lemma spawner_step_level (s : EnemySpawner.t) (ev : SpawnerEvent) :
  1 <= EnemySpawner.level s -> 1 <= EnemySpawner.level (spawner_step s ev).
Proof.
  intros Hs. destruct ev; cbn; try lia.
  unfold EnemySpawner.update.
  destruct (Qltb 0 _); [exact Hs|]. destruct (Qle_bool _ _); exact Hs.
Qed.

Lemma spawner_run_level (evs : list SpawnerEvent) :
  1 <= EnemySpawner.level (spawner_run evs).
Proof.
  induction evs as [|ev evs IH] using rev_ind.
  - cbn. lia.
  - rewrite spawner_run_snoc. now apply spawner_step_level.
Qed.

Lemma count_kill_iter (k : nat) (s : EnemySpawner.t) :
  EnemySpawner.kills_this_level (Nat.iter k EnemySpawner.count_kill s)
  = EnemySpawner.kills_this_level s + Z.of_nat k
  /\ EnemySpawner.level (Nat.iter k EnemySpawner.count_kill s)
     = EnemySpawner.level s
  /\ EnemySpawner.boss_active (Nat.iter k EnemySpawner.count_kill s)
     = EnemySpawner.boss_active s.
Proof.
  induction k as [|k IH].
  - cbn. repeat split. lia.
  - rewrite Nat.iter_succ.
    set (x := Nat.iter k EnemySpawner.count_kill s) in *.
    destruct IH as (Hk & Hl & Hb). cbn. rewrite Hk, Hl, Hb.
    repeat split. lia.
Qed.

(** C6.  [should_spawn_boss] is true exactly when no boss is active and the
    kills of the level have reached [30 + (level - 1) * 10].  In every state
    the spawner can be in, it is false right after [on_boss_killed], whatever
    the counter was before, and after [k] further kills it is true exactly
    when [k] has reached the threshold of the incremented level, which is
    [30 + level * 10] for the level before the kill. *)
Theorem boss_gate_threshold (evs : list SpawnerEvent) :
  let s := spawner_run evs in
  (forall t : EnemySpawner.t,
     EnemySpawner.should_spawn_boss t = true
     <-> EnemySpawner.boss_active t = false
         /\ 30 + (EnemySpawner.level t - 1) * 10
            <= EnemySpawner.kills_this_level t)
  /\ EnemySpawner.should_spawn_boss (EnemySpawner.on_boss_killed s) = false
  /\ (forall k : nat,
        EnemySpawner.should_spawn_boss
          (Nat.iter k EnemySpawner.count_kill (EnemySpawner.on_boss_killed s))
        = true
        <-> 30 + EnemySpawner.level s * 10 <= Z.of_nat k).
Proof.
  intros s. pose proof (spawner_run_level evs) as Hl. fold s in Hl.
  split; [exact should_spawn_boss_iff|]. split.
  - apply not_true_iff_false. rewrite should_spawn_boss_iff. cbn. lia.
  - intros k. rewrite should_spawn_boss_iff.
    destruct (count_kill_iter k (EnemySpawner.on_boss_killed s))
      as (Hk & Hv & Hb).
    rewrite Hk, Hv, Hb. cbn. split; [lia|]. split; [reflexivity|lia].
Qed.

(** ** Hits on the player *)

Ltac qclosed :=
  first [ apply Qle_bool_iff; reflexivity
        | apply Qltb_lt; reflexivity
        | apply Qltb_ge; reflexivity ].

Lemma take_hit_invulnerable (u : Q) (p : Player.t) :
  (0 < Player.invuln_timer p)%Q -> Player.take_hit u p = p.
Proof.
  intros H. apply Qltb_lt in H. unfold Player.take_hit. now rewrite H.
Qed.

Lemma take_hit_lands (u : Q) (p : Player.t) :
  (Player.invuln_timer p <= 0)%Q -> Player.dodges p u = false ->
  Player.take_hit u p
  = Player.set_invuln_timer INVULN_ON_HIT_SEC
      (if 0 <? Player.armor p
       then Player.set_armor (Player.armor p - 1) p
       else Player.set_health (Player.health p - 1) p).
Proof.
  intros Hi Hd. apply Qltb_ge in Hi. unfold Player.take_hit.
  now rewrite Hi, Hd.
Qed.

Lemma dodges_level (p q : Player.t) (u : Q) :
  Player.dodge_level p = Player.dodge_level q ->
  Player.dodges p u = Player.dodges q u.
Proof.
  intros H. unfold Player.dodges, Player.dodge_chance. now rewrite H.
Qed.

(** C4.  [take_hit] changes nothing while the invulnerability timer is
    positive.  A hit that lands (timer not positive, not dodged) takes one
    point of armor when there is armor and one point of health otherwise, and
    sets the timer to [INVULN_ON_HIT_SEC].  From armor 2 and health 5, three
    hits that land, the timer having run out before each, give armor 1 and
    health 5, then armor 0 and health 5, then armor 0 and health 4. *)
Theorem take_hit_armor_before_health (u : Q) (p : Player.t) :
  ((0 < Player.invuln_timer p)%Q -> Player.take_hit u p = p)
  /\ ((Player.invuln_timer p <= 0)%Q -> Player.dodges p u = false ->
      (0 < Player.armor p ->
       Player.armor (Player.take_hit u p) = Player.armor p - 1
       /\ Player.health (Player.take_hit u p) = Player.health p)
      /\ (Player.armor p <= 0 ->
          Player.armor (Player.take_hit u p) = Player.armor p
          /\ Player.health (Player.take_hit u p) = Player.health p - 1)
      /\ Player.invuln_timer (Player.take_hit u p) = INVULN_ON_HIT_SEC)
  /\ (forall (u2 u3 t1 t2 : Q),
        Player.armor p = 2 -> Player.health p = 5 ->
        (Player.invuln_timer p <= 0)%Q -> (t1 <= 0)%Q -> (t2 <= 0)%Q ->
        Player.dodges p u = false -> Player.dodges p u2 = false ->
        Player.dodges p u3 = false ->
        let p1 := Player.take_hit u p in
        let p2 := Player.take_hit u2 (Player.set_invuln_timer t1 p1) in
        let p3 := Player.take_hit u3 (Player.set_invuln_timer t2 p2) in
        (Player.armor p1 = 1 /\ Player.health p1 = 5)
        /\ (Player.armor p2 = 0 /\ Player.health p2 = 5)
        /\ (Player.armor p3 = 0 /\ Player.health p3 = 4)).
Proof.
  split; [apply take_hit_invulnerable|]. split.
  - intros Hi Hd. rewrite (take_hit_lands u p Hi Hd).
    destruct (0 <? Player.armor p) eqn:Ha.
    + apply Z.ltb_lt in Ha. cbn. repeat split; lia.
    + apply Z.ltb_ge in Ha. cbn. repeat split; lia.
  - intros u2 u3 t1 t2 Ha Hh Hi Ht1 Ht2 Hd1 Hd2 Hd3 p1 p2 p3.
    assert (E1 : p1 = Player.set_invuln_timer INVULN_ON_HIT_SEC
                        (Player.set_armor 1 p)).
    { unfold p1. rewrite (take_hit_lands u p Hi Hd1), Ha. reflexivity. }
    assert (E2 : p2 = Player.set_invuln_timer INVULN_ON_HIT_SEC
                        (Player.set_armor 0 p)).
    { unfold p2. rewrite take_hit_lands.
      - rewrite E1. reflexivity.
      - exact Ht1.
      - rewrite <- Hd2. apply dodges_level. rewrite E1. reflexivity. }
    assert (E3 : p3 = Player.set_invuln_timer INVULN_ON_HIT_SEC
                        (Player.set_health 4 (Player.set_armor 0 p))).
    { unfold p3. rewrite take_hit_lands.
      - rewrite E2. cbn. rewrite Hh. reflexivity.
      - exact Ht2.
      - rewrite <- Hd3. apply dodges_level. rewrite E2. reflexivity. }
    rewrite E1, E2, E3. cbn. rewrite Hh. repeat split.
Qed.

(** The three hits on the sample player with two points of armor; a fourth
    call during the invulnerability changes nothing. *)
Lemma take_hit_armor_before_health_witness :
  let p := Player.set_armor 2 (Player.init (Vector2 480 270)) in
  let p1 := Player.take_hit 0.9 p in
  let p2 := Player.take_hit 0.9 (Player.set_invuln_timer 0 p1) in
  let p3 := Player.take_hit 0.9 (Player.set_invuln_timer (-1) p2) in
  Player.take_hit 0.9 p1 = p1
  /\ Player.invuln_timer p1 = INVULN_ON_HIT_SEC
  /\ (Player.armor p1 = 1 /\ Player.health p1 = 5)
  /\ (Player.armor p2 = 0 /\ Player.health p2 = 5)
  /\ (Player.armor p3 = 0 /\ Player.health p3 = 4).
Proof.
  intros p p1 p2 p3.
  destruct (take_hit_armor_before_health 0.9 p) as (_ & Hland & Hthree).
  destruct (take_hit_armor_before_health 0.9 p1) as (Hinv & _ & _).
  split; [apply Hinv; qclosed|].
  split; [apply Hland; [qclosed | reflexivity]|].
  apply (Hthree 0.9%Q 0.9%Q 0%Q (-1)%Q);
    first [reflexivity | qclosed].
Defined.

(** ** The bullet/enemy pass, enemy by enemy *)

Section Pass.
Variable rng : nat -> Q.

Lemma use_pierce_shape (b : Bullet.t) : same_shape b (use_pierce b).
Proof. unfold use_pierce. destruct (0 <? _); split; reflexivity. Qed.

Lemma same_shape_refl (bs : list Bullet.t) : Forall2 same_shape bs bs.
Proof. induction bs; constructor; [split; reflexivity | assumption]. Qed.

Lemma struck_same_shape (bs bs' : list Bullet.t) (e : Enemy.t) :
  Forall2 same_shape bs bs' -> struck bs e = struck bs' e.
Proof.
  induction 1 as [|b b' bs bs' [Hp Hr] _ IH]; [reflexivity|].
  unfold struck in *. cbn. unfold overlaps at 1 3. now rewrite Hp, Hr, IH.
Qed.

(** One enemy against the bullets: the first bullet that overlaps it takes
    one point of health, whatever the bullets carry. *)
Lemma scan_bullets_for_spec (e : Enemy.t) (bs : list Bullet.t) (m : Match) :
  let r := scan_bullets_for rng e bs m in
  Forall2 same_shape bs (scan_bullets r)
  /\ scan_enemy r = (if struck bs e then hurt e else e)
  /\ scan_dead r = killed bs e
  /\ scan_match r
     = (if killed bs e then kill_effects rng (hurt e) m else m).
Proof.
  induction bs as [|b bs IH]; cbn.
  - repeat split. constructor.
  - unfold killed, struck in *. cbn. fold (overlaps e b).
    destruct (overlaps e b) eqn:Ho; cbn.
    + destruct (Enemy.health e - 1 <=? 0) eqn:Hd; cbn;
        (repeat split;
         constructor; [apply use_pierce_shape | apply same_shape_refl]).
    + destruct IH as (Hs & He & Hd & Hm). repeat split; try assumption.
      constructor; [split; reflexivity | assumption].
Qed.

Lemma enemies_loop_spec (es : list Enemy.t) :
  forall (bs0 bs : list Bullet.t) (m : Match),
    Forall2 same_shape bs0 bs ->
    (enemies_loop rng es bs m).1.1 = omap (survivor bs0) es
    /\ (enemies_loop rng es bs m).2
       = fold_left
           (fun m e => if killed bs0 e then kill_effects rng (hurt e) m else m)
           es m.
Proof.
  induction es as [|e es IH]; intros bs0 bs m Hs; cbn; [split; reflexivity|].
  destruct (scan_bullets_for_spec e bs m) as (Hs' & He & Hd & Hm).
  assert (Hs0 : Forall2 same_shape bs0 (scan_bullets (scan_bullets_for rng e bs m))).
  { eapply Forall2_trans; [|exact Hs|exact Hs'].
    intros x y z [H1 H2] [H3 H4]. split; congruence. }
  specialize (IH bs0 _ (scan_match (scan_bullets_for rng e bs m)) Hs0).
  destruct (enemies_loop rng es _ _) as [[alive bs'] m'] eqn:El.
  cbn in IH |- *. destruct IH as [IHa IHm].
  rewrite Hd, He, Hm in *. unfold killed, survivor in *.
  rewrite <- (struck_same_shape bs0 bs e Hs) in *.
  destruct (struck bs0 e); cbn in *.
  - destruct (Enemy.health e - 1 <=? 0); cbn; split; congruence.
  - split; congruence.
Qed.

End Pass.

(** C3.  In the bullet/enemy pass an enemy that some bullet overlaps loses
    exactly one point of health, however many bullets overlap it, and an
    enemy that none overlaps loses nothing; the enemies left are those whose
    health stays positive.  Replacing the [damage] fields of the bullets by
    anything else changes neither the enemies left nor the match. *)
Theorem one_point_per_struck_enemy
    (rng : nat -> Q) (win : Window)
    (es : list Enemy.t) (bs : list Bullet.t) (m : Match) :
  (bullets_vs_enemies rng win es bs m).1.1 = omap (survivor bs) es
  /\ (forall dmg : Bullet.t -> Z,
        (bullets_vs_enemies rng win es (redamage dmg bs) m).1.1
        = (bullets_vs_enemies rng win es bs m).1.1
        /\ (bullets_vs_enemies rng win es (redamage dmg bs) m).2
           = (bullets_vs_enemies rng win es bs m).2).
Proof.
  assert (Hpass : forall bs0 bs1, Forall2 same_shape bs0 bs1 ->
            (bullets_vs_enemies rng win es bs1 m).1.1 = omap (survivor bs0) es
            /\ (bullets_vs_enemies rng win es bs1 m).2
               = (enemies_loop rng es bs0 m).2).
  { intros bs0 bs1 Hs. unfold bullets_vs_enemies.
    destruct (enemies_loop_spec rng es bs0 bs1 m Hs) as [Ha Hm].
    destruct (enemies_loop_spec rng es bs0 bs0 m (same_shape_refl bs0))
      as [_ Hm0].
    destruct (enemies_loop rng es bs1 m) as [[alive bs'] m'].
    cbn in *. split; congruence. }
  split; [apply Hpass, same_shape_refl|].
  intros dmg.
  assert (Hs : Forall2 same_shape bs (redamage dmg bs)).
  { unfold redamage. induction bs; constructor;
      [split; reflexivity | assumption]. }
  destruct (Hpass bs (redamage dmg bs) Hs) as [Ha Hm].
  destruct (Hpass bs bs (same_shape_refl bs)) as [Ha0 Hm0].
  split; congruence.
Qed.

(** ** Purchases *)

Lemma purchase_declined (u : Upgrade) (costs : Costs) (s : Shop) :
  cost_of u costs <= 0 \/ Player.coins (buyer s) < cost_of u costs ->
  purchase u costs s = s.
Proof.
  intros H. unfold purchase.
  destruct (0 <? cost_of u costs) eqn:E1; cbn; [|reflexivity].
  destruct (cost_of u costs <=? Player.coins (buyer s)) eqn:E2;
    [|reflexivity].
  apply Z.ltb_lt in E1. apply Z.leb_le in E2. lia.
Qed.

Lemma purchase_accepted (u : Upgrade) (costs : Costs) (s : Shop) :
  0 < cost_of u costs -> cost_of u costs <= Player.coins (buyer s) ->
  Player.coins (buyer (purchase u costs s))
  = Player.coins (buyer s) - cost_of u costs
  /\ upgraded u s (purchase u costs s)
  /\ shop_page (purchase u costs s) = shop_page s.
Proof.
  intros H1 H2. unfold purchase.
  apply Z.ltb_lt in H1. apply Z.leb_le in H2. rewrite H1, H2. cbn.
  destruct u; cbn; repeat split; reflexivity.
Qed.

Lemma purchase_page (u : Upgrade) (costs : Costs) (s : Shop) :
  shop_page (purchase u costs s) = shop_page s.
Proof.
  unfold purchase. destruct (_ && _); [|reflexivity]. destruct u; reflexivity.
Qed.

Lemma purchase_nonneg (u : Upgrade) (costs : Costs) (s : Shop) :
  0 <= Player.coins (buyer s) ->
  0 <= Player.coins (buyer (purchase u costs s)).
Proof.
  intros H. unfold purchase.
  destruct (0 <? cost_of u costs) eqn:E1; cbn; [|exact H].
  destruct (cost_of u costs <=? Player.coins (buyer s)) eqn:E2; [|exact H].
  apply Z.leb_le in E2. destruct u; cbn in *; lia.
Qed.

(** What the keyboard handler does, key by key. *)
Lemma shop_keydown_cases (key : Key) (s : Shop) (costs : Costs) :
  compute_costs s = Some costs ->
  shop_keydown key s
  = Some match addressed key (shop_page s) with
         | Some u => purchase u costs s
         | None =>
             match key with
             | K_LEFT => set_shop_page 0 s
             | K_RIGHT => set_shop_page 1 s
             | _ => s
             end
         end.
Proof.
  intros Hc. unfold shop_keydown. rewrite Hc. cbn [mbind option_bind].
  f_equal.
  destruct key; unfold when;
    repeat match goal with
      | |- context [key_in ?a ?b ?c] =>
          let v := eval vm_compute in (key_in a b c) in
          change (key_in a b c) with v
      | |- context [bool_decide (?a = ?b)] =>
          let v := eval vm_compute in (bool_decide (a = b)) in
          change (bool_decide (a = b)) with v
      end;
    cbn; rewrite ?purchase_page; destruct (shop_page s =? 1); reflexivity.
Qed.

Lemma shop_click_cases (idx : nat) (s : Shop) (costs : Costs) :
  compute_costs s = Some costs ->
  shop_click idx s = Some s
  \/ exists u, shop_click idx s = Some (purchase u costs s).
Proof.
  intros Hc. unfold shop_click. rewrite Hc. cbn [mbind option_bind].
  destruct (bool_decide _); [|now left].
  do 6 (destruct idx as [|idx]; [try (right; eexists; reflexivity)|]);
    [|now left].
  destruct (shop_page s =? 0); [right; eexists; reflexivity | now left].
Qed.

Lemma Qfloor_nonneg (x : Q) : (0 <= x)%Q -> 0 <= Qfloor x.
Proof. intros H. exact (Qfloor_resp_le 0 x H). Qed.

Lemma item_click_nonneg (kc : Item) (u1 u2 : Q) (p : Player.t) :
  (0 <= u2)%Q -> 0 <= Player.coins p ->
  0 <= Player.coins (item_click kc u1 u2 p).
Proof.
  intros Hu Hp. unfold item_click.
  destruct kc;
    match goal with
    | |- context [if ?c <=? ?d then _ else _] =>
        destruct (c <=? d) eqn:E; [apply Z.leb_le in E|exact Hp]
    end; cbn; try lia.
  unfold open_chest.
  assert (Hk : 0 <= Qfloor (u2 * 8)) by (apply Qfloor_nonneg; lra).
  set (k := Qfloor (u2 * 8)) in *. clearbody k.
  destruct (Qfloor (u1 * 4)) as [|[[q|q|]|[q|q|]|]|q]; cbn; lia.
Qed.

(** C5.  Once [compute_costs] has produced the prices, a key of the shop
    that asks for an upgrade whose price is 0 (maxed) or above the balance
    leaves the whole shop state as it was; otherwise the balance goes down
    by exactly the price and the effect of that upgrade is applied.  A key
    that asks for no upgrade leaves the player and the counters alone.  The
    same guard stands in front of every purchase by click, and no purchase,
    in the shop or in the item shop, makes a balance negative that was not. *)
Theorem purchase_guard (key : Key) (s : Shop) (costs : Costs) :
  compute_costs s = Some costs ->
  (exists s',
     shop_keydown key s = Some s'
     /\ (forall u, addressed key (shop_page s) = Some u ->
           ((cost_of u costs = 0
             \/ Player.coins (buyer s) < cost_of u costs) -> s' = s)
           /\ (0 < cost_of u costs ->
               cost_of u costs <= Player.coins (buyer s) ->
               Player.coins (buyer s')
               = Player.coins (buyer s) - cost_of u costs
               /\ upgraded u s s'))
     /\ (addressed key (shop_page s) = None -> same_goods s s')
     /\ (0 <= Player.coins (buyer s) -> 0 <= Player.coins (buyer s')))
  /\ (forall idx : nat,
        exists s',
          shop_click idx s = Some s'
          /\ (s' = s
              \/ exists u,
                   0 < cost_of u costs <= Player.coins (buyer s)
                   /\ Player.coins (buyer s')
                      = Player.coins (buyer s) - cost_of u costs
                   /\ upgraded u s s')
          /\ (0 <= Player.coins (buyer s) -> 0 <= Player.coins (buyer s')))
  /\ (forall (kc : Item) (u1 u2 : Q),
        (0 <= u2)%Q -> 0 <= Player.coins (buyer s) ->
        0 <= Player.coins (item_click kc u1 u2 (buyer s))).
Proof.
  intros Hc. split; [|split].
  - eexists. split; [apply (shop_keydown_cases key s costs Hc)|].
    destruct (addressed key (shop_page s)) as [u|] eqn:Ha.
    + split; [|split].
      * intros u' Hu. injection Hu as <-. split.
        -- intros H. apply purchase_declined. lia.
        -- intros H1 H2.
           destruct (purchase_accepted u costs s H1 H2) as (? & ? & _).
           now split.
      * discriminate.
      * apply purchase_nonneg.
    + split; [discriminate|]. split.
      * intros _. destruct key; try discriminate; repeat split.
      * intros H. destruct key; exact H.
  - intros idx.
    destruct (shop_click_cases idx s costs Hc) as [E|[u E]];
      rewrite E; eexists; (split; [reflexivity|]).
    + split; [now left | auto].
    + split; [|apply purchase_nonneg].
      destruct (Z_lt_le_dec 0 (cost_of u costs)) as [H1|H1];
        [destruct (Z_le_gt_dec (cost_of u costs) (Player.coins (buyer s)))
           as [H2|H2]|].
      * right. exists u.
        destruct (purchase_accepted u costs s H1 H2) as (? & ? & _).
        repeat split; assumption.
      * left. apply purchase_declined. lia.
      * left. apply purchase_declined. lia.
  - intros kc u1 u2. apply item_click_nonneg.
Qed.

(** With 25 coins in a new shop, key 1 buys speed for 10; key 6 then asks for
    health at 20 with 15 in hand and is declined. *)
Lemma purchase_guard_witness :
  exists s',
    shop_keydown K_1 sample_shop = Some s'
    /\ Player.coins (buyer s') = 15
    /\ speed_levels s' = 1
    /\ shop_keydown K_6 s' = Some s'.
Proof.
  destruct (purchase_guard K_1 sample_shop sample_costs eq_refl)
    as ((s' & Hk & Hbuy & _) & _).
  destruct (Hbuy UpSpeed eq_refl) as [_ Hok].
  destruct Hok as [Hcoins [Hlvl _]]; [reflexivity | discriminate |].
  exists s'. split; [exact Hk|]. split; [exact Hcoins|]. split; [exact Hlvl|].
  assert (Es : purchase UpSpeed sample_costs sample_shop = s')
    by (injection Hk as E; exact E).
  destruct Es.
  destruct (purchase_guard K_6 (purchase UpSpeed sample_costs sample_shop)
              (mkCosts 20 12 15 12 10 20 18 14) eq_refl)
    as ((s2 & Hk2 & Hbuy2 & _) & _).
  destruct (Hbuy2 UpHp eq_refl) as [Hno _].
  rewrite Hk2. f_equal. apply Hno. right. reflexivity.
Defined.

(** ** Shooting *)

Lemma py_max_Qmax (a b : Q) : (py_max a b == Qmax a b)%Q.
Proof.
  unfold py_max. destruct (Qltb a b) eqn:E.
  - apply Qltb_lt in E. symmetry. apply Q.max_r. lra.
  - apply Qltb_ge in E. symmetry. apply Q.max_l. exact E.
Qed.

(** C8, as the code has it.  [try_shoot] returns [None] exactly when the
    cooldown is positive or the aim point is within a thousandth of a pixel
    of the player (squared distance at most 1e-6).  A bullet it returns
    starts at the player, flies along [normalize (aim - position)] at speed
    [BULLET_SPEED * bullet_speed_multiplier * (1 + 0.08 * bullet_speed_level)],
    has radius [BULLET_RADIUS * (1 + 0.35 * bullet_size_level)], pierce
    [bullet_pierce_level] and damage [1 + bullet_damage_level], and the only
    change to the player is the cooldown, set to
    [max(0.02, BULLET_COOLDOWN_SEC / fire_rate_multiplier)].  A bullet is
    returned whenever neither condition holds and the fire-rate multiplier is
    not zero. *)
Theorem try_shoot_threshold (normalize : Vec -> Vec) (aim : Vec) (p : Player.t) :
  (Player.try_shoot normalize aim p = Player.NoShot
   <-> (0 < Player.shoot_cooldown p)%Q
       \/ (length_squared (vsub aim (Player.position p)) <= 0.000001)%Q)
  /\ (forall (b : Bullet.t) (p' : Player.t),
        Player.try_shoot normalize aim p = Player.Shot b p' ->
        let d := normalize (vsub aim (Player.position p)) in
        let speed :=
          (BULLET_SPEED * Player.bullet_speed_multiplier p
           * (1 + 0.08 * inject_Z (Player.bullet_speed_level p)))%Q in
        (vx (Bullet.velocity b) == vx d * speed)%Q
        /\ (vy (Bullet.velocity b) == vy d * speed)%Q
        /\ Bullet.position b = Player.position p
        /\ Bullet.radius b
           = (BULLET_RADIUS
              * (1 + 0.35 * inject_Z (Player.bullet_size_level p)))%Q
        /\ Bullet.pierce_remaining b = Player.bullet_pierce_level p
        /\ Bullet.damage b = 1 + Player.bullet_damage_level p
        /\ Bullet.lifetime b = BULLET_LIFETIME_SEC
        /\ (Player.shoot_cooldown p'
            == Qmax 0.02 (BULLET_COOLDOWN_SEC / Player.fire_rate_multiplier p))%Q
        /\ Player.set_shoot_cooldown (Player.shoot_cooldown p') p = p')
  /\ ((Player.shoot_cooldown p <= 0)%Q ->
      (0.000001 < length_squared (vsub aim (Player.position p)))%Q ->
      ~ (Player.fire_rate_multiplier p == 0)%Q ->
      exists (b : Bullet.t) (p' : Player.t),
        Player.try_shoot normalize aim p = Player.Shot b p').
Proof.
  unfold Player.try_shoot.
  destruct (Qltb 0 (Player.shoot_cooldown p)) eqn:Ec.
  { apply Qltb_lt in Ec. split; [|split].
    - split; [now left | reflexivity].
    - discriminate.
    - lra. }
  apply Qltb_ge in Ec.
  destruct (Qle_bool (length_squared (vsub aim (Player.position p))) 0.000001)
    eqn:Ed.
  { apply Qle_bool_iff in Ed. split; [|split].
    - split; [now right | reflexivity].
    - discriminate.
    - lra. }
  apply Qle_bool_gt in Ed.
  destruct (Qeq_bool (Player.fire_rate_multiplier p) 0) eqn:Ef.
  { apply Qeq_bool_iff in Ef. split; [|split].
    - split; [discriminate | lra].
    - discriminate.
    - intros _ _ H. now destruct H. }
  split; [|split].
  - split; [discriminate | lra].
  - intros b p' H. injection H as <- <-. cbn.
    repeat split; try reflexivity; try ring.
    apply py_max_Qmax.
  - intros _ _ _. eauto.
Qed.

(** The sample player shoots to the right: the bullet flies at 600, the
    cooldown is 0.12, and a second shot at once returns [None]. *)
Lemma try_shoot_threshold_witness :
  exists (b : Bullet.t) (p' : Player.t),
    Player.try_shoot unit_x far_aim sample_player = Player.Shot b p'
    /\ (vx (Bullet.velocity b) == 600)%Q
    /\ (Player.shoot_cooldown p' == 0.12)%Q
    /\ Player.try_shoot unit_x far_aim p' = Player.NoShot.
Proof.
  destruct (try_shoot_threshold unit_x far_aim sample_player)
    as (_ & Hshot & Hfire).
  destruct Hfire as (b & p' & E); [qclosed | apply Qltb_lt; reflexivity | |].
  { intros H. apply Qeq_bool_iff in H. discriminate. }
  exists b, p'. split; [exact E|].
  destruct (Hshot b p' E) as (Hv & _ & _ & _ & _ & _ & _ & Hc & _).
  split; [rewrite Hv; reflexivity|].
  split; [rewrite Hc; reflexivity|].
  destruct (try_shoot_threshold unit_x far_aim p') as (Hnone & _ & _).
  apply Hnone. left. rewrite Hc. reflexivity.
Defined.

(** C8 as written fails: with no cooldown pending and the aim point half a
    thousandth of a pixel away from the player, [try_shoot] returns [None]
    although the two points do not coincide. *)
Lemma try_shoot_near_aim_counterexample :
  ~ (Player.try_shoot unit_x near_aim sample_player = Player.NoShot
     <-> (0 < Player.shoot_cooldown sample_player)%Q
         \/ (vx near_aim == vx (Player.position sample_player)
             /\ vy near_aim == vy (Player.position sample_player))%Q).
Proof.
  intros [H _]. destruct (H eq_refl) as [Hc | [Hx _]].
  - apply Qltb_lt in Hc. discriminate.
  - apply Qeq_bool_iff in Hx. discriminate.
Qed.

(** ** Loading *)

Section Loading.
Variable int_of_str : string -> option Z.
Variable float_of_str : string -> option Q.

Ltac load_cases :=
  unfold load_fields, stmt;
  repeat match goal with
    | |- context [match get_int ?a ?d ?k ?v with _ => _ end] =>
        destruct (get_int a d k v) eqn:?
    | |- context [match get_float ?a ?d ?k ?v with _ => _ end] =>
        destruct (get_float a d k v) eqn:?
    end.

Ltac absent :=
  let H := fresh in
  intros H;
  repeat match goal with
    | E : get_int _ _ _ _ = Some _ |- _ =>
        unfold get_int in E; rewrite ?H in E;
        first [injection E as <- | clear E]
    | E : get_float _ _ _ _ = Some _ |- _ =>
        unfold get_float in E; rewrite ?H in E;
        first [injection E as <- | clear E]
    end;
  reflexivity.

(** A field that the save lacks has its baseline value after the load,
    whatever else the file holds and even when the load is cut short. *)
Lemma load_save_missing (f : SaveFile) (pos : Vec) :
  let r := load_save int_of_str float_of_str f (Player.init pos) in
  (missing f "coins" -> Player.coins r.1 = 0)
  /\ (missing f "speed_multiplier" -> Player.speed_multiplier r.1 = 1%Q)
  /\ (missing f "fire_rate_multiplier" ->
      Player.fire_rate_multiplier r.1 = 1%Q)
  /\ (missing f "bullet_size_level" -> Player.bullet_size_level r.1 = 0)
  /\ (missing f "bullet_pierce_level" -> Player.bullet_pierce_level r.1 = 0)
  /\ (missing f "magnet_radius" -> Player.magnet_radius r.1 = 60%Q)
  /\ (missing f "max_health_bonus" -> Player.max_health_bonus r.1 = 0)
  /\ (missing f "armor" -> Player.armor r.1 = 0)
  /\ (missing f "bullet_damage_level" -> Player.bullet_damage_level r.1 = 0)
  /\ (missing f "coin_gain_level" -> Player.coin_gain_level r.1 = 0)
  /\ (missing f "speed_levels" -> loaded_speed r.2 = 0)
  /\ (missing f "firerate_levels" -> loaded_firerate r.2 = 0)
  /\ (missing f "pierce_levels" -> loaded_pierce r.2 = 0)
  /\ (missing f "size_levels" -> loaded_size r.2 = 0)
  /\ (missing f "magnet_levels" -> loaded_magnet r.2 = 0)
  /\ (missing f "hp_levels" -> loaded_hp r.2 = 0).
Proof.
  destruct f as [| |data]; cbn -[load_fields];
    [repeat split; reflexivity | repeat split; reflexivity |].
  load_cases; cbn; repeat split; absent.
Qed.

(** When every statement of the [try] block runs, the player ends at full
    health. *)
Lemma load_fields_full_health
    (data : gmap string json) (p p' : Player.t) (l : Loaded) :
  load_fields int_of_str float_of_str data p = (p', Some l) ->
  Player.health p' = Player.max_health p'.
Proof.
  load_cases; intros E; try discriminate.
  injection E as <- _. reflexivity.
Qed.

End Loading.

(** A [health] entry in the save is never read. *)
Lemma load_save_ignores_health
    (int_of_str : string -> option Z) (float_of_str : string -> option Q)
    (data : gmap string json) (v : json) (p : Player.t) :
  load_fields int_of_str float_of_str (<["health" := v]> data) p
  = load_fields int_of_str float_of_str data p.
Proof.
  unfold load_fields, get_int, get_float.
  now rewrite !lookup_insert_ne by discriminate.
Qed.

(** C9, the part the code misses.  On a save that holds
    [max_health_bonus = 2] and [armor = null] the load is cut short at
    [int(None)]: the bonus has been read, the health is still the 5 of a new
    player, and [max_health()] is 7. *)
Theorem load_save_torn_not_healed
    (int_of_str : string -> option Z) (float_of_str : string -> option Q) :
  Player.max_health_bonus
    (load_save int_of_str float_of_str (SaveDict torn_save) sample_player).1
  = 2
  /\ Player.health
       (load_save int_of_str float_of_str (SaveDict torn_save) sample_player).1
     = 5
  /\ Player.max_health
       (load_save int_of_str float_of_str (SaveDict torn_save) sample_player).1
     = 7.
Proof. vm_compute. repeat split. Qed.

(** ** Kills *)

Section Kills.
Variable rng : nat -> Q.

Lemma boss_coins_spec (n : nat) (pos : Vec) (cur : nat) :
  length (boss_coins rng n pos cur).1 = n
  /\ Forall (fun c => Coin.value c = 2 /\ Coin.position c = pos)
            (boss_coins rng n pos cur).1.
Proof.
  revert cur. induction n as [|n IH]; intros cur; cbn.
  - split; [reflexivity | constructor].
  - specialize (IH (S (S cur))).
    destruct (boss_coins rng n pos (S (S cur))) as [cs cur']. cbn in *.
    destruct IH as [Hl Hf]. split; [now rewrite Hl|].
    constructor; [split; reflexivity | exact Hf].
Qed.

(** What the kill of a boss leaves: 14 coins of value 2 where it stood, the
    next level, no boss active, the transition running, and a kill counter
    that is 1 because the kill is counted after the reset. *)
Lemma kill_effects_boss (e : Enemy.t) (m : Match) :
  Enemy.is_boss e = true ->
  let m' := kill_effects rng e m in
  (exists cs,
     coins m' = coins m ++ cs /\ length cs = 14%nat
     /\ Forall (fun c => Coin.value c = 2
                         /\ Coin.position c = Enemy.position e) cs)
  /\ EnemySpawner.level (spawner m') = EnemySpawner.level (spawner m) + 1
  /\ EnemySpawner.boss_active (spawner m') = false
  /\ EnemySpawner.should_spawn (spawner m') = false
  /\ EnemySpawner.kills_this_level (spawner m') = 1.
Proof.
  intros Hb. unfold kill_effects, drop_coins. rewrite Hb.
  pose proof (boss_coins_spec 14 (Enemy.position e) (cursor m)) as [Hl Hf].
  cbn [cursor] in *.
  destruct (boss_coins rng 14 (Enemy.position e) (cursor m)) as [cs cur].
  cbn in Hl, Hf. cbn -[EnemySpawner.should_spawn].
  split; [exists cs; auto|]. repeat split.
  unfold EnemySpawner.should_spawn. cbn. apply andb_false_r.
Qed.

Lemma kill_effects_kills (e : Enemy.t) (m : Match) :
  EnemySpawner.kills_this_level (spawner (kill_effects rng e m))
  = if Enemy.is_boss e then 1
    else EnemySpawner.kills_this_level (spawner m) + 1.
Proof.
  unfold kill_effects, drop_coins. destruct (Enemy.is_boss e).
  - destruct (boss_coins _ _ _ _). reflexivity.
  - cbn. destruct (Qltb _ _); reflexivity.
Qed.

(** A pass in which a boss dies never ends with the kill counter at 0. *)
Lemma boss_kill_counter_positive
    (win : Window) (es : list Enemy.t) (bs : list Bullet.t) (m : Match) :
  0 <= EnemySpawner.kills_this_level (spawner m) ->
  1 <= EnemySpawner.kills_this_level
         (spawner (bullets_vs_enemies rng win es bs m).2)
  \/ Forall (fun e => killed bs e = false) es.
Proof.
  intros Hm. unfold bullets_vs_enemies.
  destruct (enemies_loop_spec rng es bs bs m (same_shape_refl bs)) as [_ E].
  destruct (enemies_loop rng es bs m) as [[alive bs'] m']. cbn in *. subst m'.
  clear alive bs'.
  assert (G : forall es m,
             (1 <= EnemySpawner.kills_this_level (spawner m) ->
              1 <= EnemySpawner.kills_this_level
                     (spawner (fold_left
                        (fun m e => if killed bs e
                                    then kill_effects rng (hurt e) m else m)
                        es m)))
             /\ (0 <= EnemySpawner.kills_this_level (spawner m) ->
                 1 <= EnemySpawner.kills_this_level
                        (spawner (fold_left
                           (fun m e => if killed bs e
                                       then kill_effects rng (hurt e) m else m)
                           es m))
                 \/ Forall (fun e => killed bs e = false) es)).
  { clear. induction es as [|e es IH]; intros m; cbn.
    - split; [auto | right; constructor].
    - destruct (killed bs e) eqn:Ek.
      + assert (1 <= EnemySpawner.kills_this_level
                       (spawner (kill_effects rng (hurt e) m))
                \/ EnemySpawner.kills_this_level (spawner m) < 0) as Hk.
        { rewrite kill_effects_kills. destruct (Enemy.is_boss (hurt e)); lia. }
        split; intros H; [|left]; apply IH; lia.
      + destruct (IH m) as [IH1 IH2]. split; [exact IH1|].
        intros H. destruct (IH2 H) as [?|?]; [now left|right].
        now constructor. }
  now apply G.
Qed.

Lemma kill_effects_score (e : Enemy.t) (m : Match) :
  score (kill_effects rng e m) = score m + 1.
Proof.
  unfold kill_effects, drop_coins. destruct (Enemy.is_boss e).
  - destruct (boss_coins _ _ _ _). reflexivity.
  - cbn. destruct (Qltb _ _); reflexivity.
Qed.

(** The enemies left by a pass and the score after it, read off the
    positions alone. *)
Lemma pass_outcome
    (win : Window) (es : list Enemy.t) (bs : list Bullet.t) (m : Match) :
  (bullets_vs_enemies rng win es bs m).1.1 = omap (survivor bs) es
  /\ score (bullets_vs_enemies rng win es bs m).2
     = score m + Z.of_nat (length (filter (fun e => killed bs e = true) es)).
Proof.
  unfold bullets_vs_enemies.
  destruct (enemies_loop_spec rng es bs bs m (same_shape_refl bs)) as [Ea Em].
  destruct (enemies_loop rng es bs m) as [[alive bs'] m']. cbn in *.
  split; [exact Ea|]. subst m'. clear. revert m.
  induction es as [|e es IH]; intros m; [cbn; lia|].
  rewrite filter_cons. cbn [fold_left]. rewrite IH.
  destruct (killed bs e) eqn:Ek.
  - rewrite decide_True by reflexivity. rewrite kill_effects_score.
    cbn [length]. lia.
  - rewrite decide_False by discriminate. reflexivity.
Qed.

End Kills.

(** C1, the part the code misses.  A boss with one point of health is hit:
    it leaves the list, 14 coins of value 2 lie where it stood, the level is
    2, no boss is active and [should_spawn] is false; but the kill counter is
    1, not 0, since [run] counts the kill after [on_boss_killed] has reset the
    counter. *)
Theorem boss_kill_counted_after_reset (rng : nat -> Q) :
  (bullets_vs_enemies rng sample_window [sample_boss] [sample_bullet 0]
                      boss_fight).1.1 = []
  /\ length (coins (bullets_vs_enemies rng sample_window [sample_boss]
                      [sample_bullet 0] boss_fight).2) = 14%nat
  /\ Forall (fun c => Coin.value c = 2
                      /\ Coin.position c = Enemy.position sample_boss)
            (coins (bullets_vs_enemies rng sample_window [sample_boss]
                      [sample_bullet 0] boss_fight).2)
  /\ EnemySpawner.level
       (spawner (bullets_vs_enemies rng sample_window [sample_boss]
                   [sample_bullet 0] boss_fight).2) = 2
  /\ EnemySpawner.boss_active
       (spawner (bullets_vs_enemies rng sample_window [sample_boss]
                   [sample_bullet 0] boss_fight).2) = false
  /\ EnemySpawner.should_spawn
       (spawner (bullets_vs_enemies rng sample_window [sample_boss]
                   [sample_bullet 0] boss_fight).2) = false
  /\ EnemySpawner.kills_this_level
       (spawner (bullets_vs_enemies rng sample_window [sample_boss]
                   [sample_bullet 0] boss_fight).2) = 1.
Proof.
  vm_compute. repeat split. repeat constructor.
Qed.

(** C2, the part the code misses.  A bullet without pierce lies on two
    enemies of one point of health: both die in the same pass, the second one
    after the bullet was consumed by the first kill.  A bullet with pierce 2
    on four such enemies kills all four. *)
Theorem spent_bullet_still_hits (rng : nat -> Q) :
  (bullets_vs_enemies rng sample_window
     [sample_grunt 100; sample_grunt 101] [sample_bullet 0] new_match).1.1
  = []
  /\ score (bullets_vs_enemies rng sample_window
              [sample_grunt 100; sample_grunt 101] [sample_bullet 0]
              new_match).2 = 2
  /\ (bullets_vs_enemies rng sample_window
        [sample_grunt 100; sample_grunt 101; sample_grunt 102;
         sample_grunt 103] [sample_bullet 2] new_match).1.1 = []
  /\ score (bullets_vs_enemies rng sample_window
              [sample_grunt 100; sample_grunt 101; sample_grunt 102;
               sample_grunt 103] [sample_bullet 2] new_match).2 = 4.
Proof.
  rewrite !(proj1 (pass_outcome rng _ _ _ _)),
          !(proj2 (pass_outcome rng _ _ _ _)).
  vm_compute. repeat split.
Qed.

(** ** The two idle counters *)

Section Idle.
Variables (rng : nat -> Q) (crit gain : Z).

Lemma on_kill_relabel (p : Player.t) :
  Player.on_kill (relabel crit gain p) = relabel crit gain (Player.on_kill p).
Proof.
  unfold Player.on_kill, relabel. cbn.
  destruct (0 <? Player.lifesteal_level p); [|reflexivity].
  destruct (_ <=? _); reflexivity.
Qed.

Lemma drop_coins_relabel (e : Enemy.t) (m : Match) :
  drop_coins rng e (relabel_match crit gain m)
  = relabel_match crit gain (drop_coins rng e m).
Proof.
  unfold drop_coins, relabel_match.
  cbn [player spawner coins explosions score cursor].
  destruct (Enemy.is_boss e).
  - destruct (boss_coins rng 14 (Enemy.position e) (cursor m)) as [cs cur].
    destruct (Qltb (rng cur) 0.5); reflexivity.
  - destruct (Qltb (rng (cursor m)) NORMAL_DROP_CHANCE); reflexivity.
Qed.

Lemma kill_effects_relabel (e : Enemy.t) (m : Match) :
  kill_effects rng e (relabel_match crit gain m)
  = relabel_match crit gain (kill_effects rng e m).
Proof.
  unfold kill_effects. cbn [player spawner coins explosions score cursor
                            relabel_match].
  rewrite on_kill_relabel.
  replace (Player.aoe_on_kill_level (relabel crit gain (Player.on_kill (player m))))
    with (Player.aoe_on_kill_level (Player.on_kill (player m)))
    by reflexivity.
  match goal with
  | |- context [drop_coins rng e (mkMatch (relabel crit gain ?p) ?s ?c ?x ?n ?k)] =>
      change (mkMatch (relabel crit gain p) s c x n k)
        with (relabel_match crit gain (mkMatch p s c x n k))
  end.
  rewrite drop_coins_relabel. reflexivity.
Qed.

Lemma scan_bullets_for_relabel (e : Enemy.t) (bs : list Bullet.t) (m : Match) :
  scan_bullets_for rng e bs (relabel_match crit gain m)
  = let r := scan_bullets_for rng e bs m in
    mkScan (scan_bullets r) (scan_enemy r) (scan_dead r)
           (relabel_match crit gain (scan_match r)).
Proof.
  induction bs as [|b bs IH]; cbn [scan_bullets_for]; [reflexivity|].
  destruct (circle_intersects_circle _ _ _ _).
  - destruct (_ <=? 0); [|reflexivity].
    now rewrite kill_effects_relabel.
  - now rewrite IH.
Qed.

Lemma enemies_loop_relabel (es : list Enemy.t) :
  forall (bs : list Bullet.t) (m : Match),
    enemies_loop rng es bs (relabel_match crit gain m)
    = ((enemies_loop rng es bs m).1.1, (enemies_loop rng es bs m).1.2,
       relabel_match crit gain (enemies_loop rng es bs m).2).
Proof.
  induction es as [|e es IH]; intros bs m; [reflexivity|].
  cbn [enemies_loop]. rewrite scan_bullets_for_relabel.
  cbn [scan_bullets scan_enemy scan_dead scan_match]. rewrite IH.
  destruct (enemies_loop rng es _ _) as [[alive bs'] m']. reflexivity.
Qed.

Lemma pickup_coins_relabel (cs : list Coin.t) :
  forall p : Player.t,
    pickup_coins cs (relabel crit gain p)
    = ((pickup_coins cs p).1, relabel crit gain (pickup_coins cs p).2).
Proof.
  induction cs as [|c cs IH]; intros p; [reflexivity|].
  cbn [pickup_coins].
  change (Player.position (relabel crit gain p)) with (Player.position p).
  change (Player.radius (relabel crit gain p)) with (Player.radius p).
  destruct (circle_intersects_circle _ _ _ _).
  - rewrite <- IH. reflexivity.
  - rewrite IH. destruct (pickup_coins cs p). reflexivity.
Qed.

End Idle.

(** C10.  Giving the player other crit and coin-gain levels changes nothing
    in what the game does: the bullet/enemy pass leaves the same enemies,
    bullets, coins, explosions, score and spawner and draws the same numbers;
    a hit on the player, a kill, a shot and a coin pickup come out the same;
    in each case the player differs in those two counters only.  Buying the
    coin-gain upgrade (key 8) changes the balance and [coin_gain_level] and
    nothing else, buying the crit item changes the balance and [crit_level]
    and nothing else, and the price of every other upgrade is the same
    whatever the two counters are. *)
Theorem idle_counters (crit gain : Z) :
  (forall (rng : nat -> Q) (win : Window) (es : list Enemy.t)
          (bs : list Bullet.t) (m : Match),
     bullets_vs_enemies rng win es bs (relabel_match crit gain m)
     = ((bullets_vs_enemies rng win es bs m).1.1,
        (bullets_vs_enemies rng win es bs m).1.2,
        relabel_match crit gain (bullets_vs_enemies rng win es bs m).2))
  /\ (forall (u : Q) (p : Player.t),
        Player.take_hit u (relabel crit gain p)
        = relabel crit gain (Player.take_hit u p))
  /\ (forall p : Player.t,
        Player.on_kill (relabel crit gain p)
        = relabel crit gain (Player.on_kill p))
  /\ (forall (normalize : Vec -> Vec) (aim : Vec) (p : Player.t),
        Player.try_shoot normalize aim (relabel crit gain p)
        = relabel_shot crit gain (Player.try_shoot normalize aim p))
  /\ (forall (cs : list Coin.t) (p : Player.t),
        pickup_coins cs (relabel crit gain p)
        = ((pickup_coins cs p).1, relabel crit gain (pickup_coins cs p).2))
  /\ (forall (s s' : Shop),
        shop_page s = 1 -> shop_keydown K_8 s = Some s' ->
        exists balance level : Z,
          s' = set_buyer
                 (Player.set_coins balance
                    (Player.set_coin_gain_level level (buyer s))) s)
  /\ (forall (u1 u2 : Q) (p : Player.t),
        exists balance level : Z,
          item_click ItR u1 u2 p
          = Player.set_coins balance (Player.set_crit_level level p))
  /\ (forall (s : Shop) (costs costs' : Costs) (u : Upgrade),
        compute_costs s = Some costs ->
        compute_costs (set_buyer (relabel crit gain (buyer s)) s)
        = Some costs' ->
        u <> UpCoin -> cost_of u costs' = cost_of u costs).
Proof.
  split; [|split; [|split; [|split; [|split; [|split; [|split]]]]]].
  - intros rng win es bs m. unfold bullets_vs_enemies.
    rewrite enemies_loop_relabel.
    destruct (enemies_loop rng es bs m) as [[alive bs'] m']. reflexivity.
  - intros u p. unfold Player.take_hit, Player.dodges, Player.dodge_chance.
    cbn. destruct (Qltb 0 (Player.invuln_timer p)); [reflexivity|].
    destruct (_ && _); [reflexivity|].
    destruct (0 <? Player.armor p); reflexivity.
  - apply on_kill_relabel.
  - intros normalize aim p. unfold Player.try_shoot. cbn.
    destruct (Qltb 0 _); [reflexivity|].
    destruct (Qle_bool _ _); [reflexivity|].
    destruct (Qeq_bool _ _); reflexivity.
  - intros cs p. apply pickup_coins_relabel.
  - intros s s' Hpage Hkey.
    destruct (compute_costs s) as [costs|] eqn:Hc;
      [|unfold shop_keydown in Hkey; rewrite Hc in Hkey; discriminate].
    rewrite (shop_keydown_cases K_8 s costs Hc) in Hkey. cbn in Hkey.
    rewrite Hpage in Hkey. cbn in Hkey. injection Hkey as <-.
    unfold purchase. destruct (_ && _).
    + eexists _, _. destruct s as [p ? ? ? ? ? ? ?]. destruct p. reflexivity.
    + exists (Player.coins (buyer s)), (Player.coin_gain_level (buyer s)).
      destruct s as [p ? ? ? ? ? ? ?]. destruct p. reflexivity.
  - intros u1 u2 p. unfold item_click. destruct (_ <=? _).
    + eexists _, _. destruct p. reflexivity.
    + exists (Player.coins p), (Player.crit_level p). destruct p. reflexivity.
  - intros s costs costs' u. unfold compute_costs.
    cbn [buyer set_buyer speed_levels firerate_levels pierce_levels
         size_levels magnet_levels hp_levels].
    change (Player.bullet_damage_level (relabel crit gain (buyer s)))
      with (Player.bullet_damage_level (buyer s)).
    destruct (cost_entry _ (speed_levels s)); [|discriminate].
    destruct (cost_entry _ (firerate_levels s)); [|discriminate].
    destruct (cost_entry _ (pierce_levels s)); [|discriminate].
    destruct (cost_entry _ (size_levels s)); [|discriminate].
    destruct (cost_entry _ (magnet_levels s)); [|discriminate].
    destruct (cost_entry _ (hp_levels s)); [|discriminate].
    destruct (cost_entry _ (Player.bullet_damage_level (buyer s)));
      [|discriminate].
    cbn [mbind option_bind].
    destruct (cost_entry _ (Player.coin_gain_level (buyer s)));
      [|discriminate].
    destruct (cost_entry _ _); [|discriminate].
    cbn [mbind option_bind]. intros E E' Hu. injection E as <-. injection E' as <-.
    destruct u; [reflexivity .. | contradiction].
Qed.

(** Key 8 on the second page of the sample shop. *)
Lemma idle_counters_witness :
  exists balance level : Z,
    shop_keydown K_8 (set_shop_page 1 sample_shop)
    = Some (set_buyer
              (Player.set_coins balance
                 (Player.set_coin_gain_level level (buyer sample_shop)))
              (set_shop_page 1 sample_shop)).
Proof.
  destruct (idle_counters 0 0) as (_ & _ & _ & _ & _ & Hbuy & _).
  destruct (Hbuy (set_shop_page 1 sample_shop)
                 (purchase UpCoin sample_costs (set_shop_page 1 sample_shop))
                 eq_refl eq_refl) as (balance & level & E).
  exists balance, level.
  transitivity
    (Some (purchase UpCoin sample_costs (set_shop_page 1 sample_shop)));
    [reflexivity | f_equal; exact E].
Defined.

(** * Further properties of the code *)

(** ** Geometry *)

Lemma py_min_upper (a b : Q) : (py_min a b <= b)%Q /\ (py_min a b <= a)%Q.
Proof.
  unfold py_min. destruct (Qltb b a) eqn:E.
  - apply Qltb_lt in E. lra.
  - apply Qltb_ge in E. lra.
Qed.

Lemma clamp_range (v lo hi : Q) :
  (lo <= hi)%Q -> (lo <= clamp v lo hi)%Q /\ (clamp v lo hi <= hi)%Q.
Proof.
  intros H. unfold clamp. split; [apply py_max_lower|].
  apply py_max_shrink; [exact H | apply py_min_upper].
Qed.

(** X1.  [clamp] keeps a value between the bounds when they are in order, gives
    back (a number equal to) a value already between them, and returns the
    lower bound whenever the bounds are crossed. *)
Theorem clamp_between (v lo hi : Q) :
  ((lo <= hi)%Q ->
   (lo <= clamp v lo hi)%Q /\ (clamp v lo hi <= hi)%Q
   /\ ((lo <= v)%Q -> (v <= hi)%Q -> (clamp v lo hi == v)%Q))
  /\ ((hi < lo)%Q -> clamp v lo hi = lo).
Proof.
  split.
  - intros H. destruct (clamp_range v lo hi H) as [H1 H2].
    split; [exact H1|]. split; [exact H2|].
    intros Hl Hh. unfold clamp, py_max, py_min.
    destruct (Qltb hi v) eqn:E1; [apply Qltb_lt in E1; lra|].
    destruct (Qltb lo v) eqn:E2; [reflexivity|].
    apply Qltb_ge in E2. lra.
  - intros H. unfold clamp, py_max.
    destruct (Qltb lo (py_min v hi)) eqn:E; [|reflexivity].
    apply Qltb_lt in E. pose proof (py_min_upper v hi). lra.
Qed.

Lemma clamp_between_witness :
  (clamp 700 16 944 == 700)%Q /\ (clamp 2000 16 944 <= 944)%Q
  /\ clamp 5 16 10 = 16%Q.
Proof.
  destruct (clamp_between 700 16 944) as [Hin _].
  destruct (clamp_between 2000 16 944) as [Hout _].
  destruct (clamp_between 5 16 10) as [_ Hx].
  split; [apply Hin; qclosed|]. split; [apply Hout; qclosed|].
  apply Hx. apply Qltb_lt. reflexivity.
Defined.

Lemma Qle_bool_eq (x y x' y' : Q) :
  (x == x')%Q -> (y == y')%Q -> Qle_bool x y = Qle_bool x' y'.
Proof. intros Hx Hy. now rewrite Hx, Hy. Qed.

Lemma length_squared_swap (a b : Vec) :
  (length_squared (vsub a b) == length_squared (vsub b a))%Q.
Proof. unfold length_squared, vsub. cbn. ring. Qed.

(** X2.  The overlap test does not depend on the order of the two circles, and
    making one of them larger never loses an overlap. *)
Theorem circle_overlap_symmetric_monotone
    (a : Vec) (ra : Q) (b : Vec) (rb : Q) :
  circle_intersects_circle a ra b rb = circle_intersects_circle b rb a ra
  /\ (forall ra' : Q,
        (ra <= ra')%Q -> circle_intersects_circle a ra b rb = true ->
        circle_intersects_circle a ra' b rb = true).
Proof.
  split.
  - unfold circle_intersects_circle. f_equal.
    + apply Qle_bool_eq; [reflexivity | ring].
    + apply Qle_bool_eq; [apply length_squared_swap | ring].
  - intros ra' Hr. unfold circle_intersects_circle.
    rewrite !andb_true_iff, !Qle_bool_iff. intros [H0 Hd].
    split; [lra|]. eapply Qle_trans; [exact Hd|].
    assert (0 <= (ra' - ra) * (ra' + ra + 2 * rb))%Q
      by (apply Qmult_le_0_compat; lra).
    lra.
Qed.

Lemma circle_overlap_symmetric_monotone_witness :
  circle_intersects_circle (Vector2 0 0) 10 (Vector2 7 0) 4 = true.
Proof.
  destruct (circle_overlap_symmetric_monotone (Vector2 0 0) 4 (Vector2 7 0) 4)
    as [_ Hgrow].
  apply Hgrow; [qclosed | reflexivity].
Defined.

(** ** Bullets and explosions *)



(** What the pass may do to one bullet. *)
Lemma use_pierce_worn (b : Bullet.t) :
  Bullet.position (use_pierce b) = Bullet.position b
  /\ Bullet.velocity (use_pierce b) = Bullet.velocity b
  /\ Bullet.radius (use_pierce b) = Bullet.radius b
  /\ Bullet.damage (use_pierce b) = Bullet.damage b
  /\ Bullet.pierce_remaining (use_pierce b) <= Bullet.pierce_remaining b
  /\ (0 <= Bullet.pierce_remaining b ->
      0 <= Bullet.pierce_remaining (use_pierce b))
  /\ (Bullet.lifetime (use_pierce b) = Bullet.lifetime b
      \/ Bullet.lifetime (use_pierce b) = 0%Q
         /\ Bullet.pierce_remaining b <= 0).
Proof.
  unfold use_pierce. destruct (0 <? Bullet.pierce_remaining b) eqn:E; cbn.
  - apply Z.ltb_lt in E. repeat split; try lia. now left.
  - apply Z.ltb_ge in E. repeat split; try lia. now right.
Qed.

Lemma worn_refl (bs : list Bullet.t) : Forall2 worn bs bs.
Proof.
  induction bs; constructor; [|assumption].
  unfold worn. repeat split; try lia. now left.
Qed.

Lemma worn_trans (b1 b2 b3 : Bullet.t) : worn b1 b2 -> worn b2 b3 -> worn b1 b3.
Proof.
  unfold worn. intros (P1 & V1 & R1 & D1 & L1 & N1 & T1)
                      (P2 & V2 & R2 & D2 & L2 & N2 & T2).
  repeat split; try congruence; try lia.
  destruct T2 as [T2|T2]; [destruct T1 as [T1|T1]|]; [left|right|right];
    congruence.
Qed.

Section Wear.
Variable rng : nat -> Q.

Lemma scan_bullets_for_worn (e : Enemy.t) (bs : list Bullet.t) (m : Match) :
  Forall2 worn bs (scan_bullets (scan_bullets_for rng e bs m)).
Proof.
  induction bs as [|b bs IH]; cbn; [constructor|].
  assert (Hw : worn b (use_pierce b)).
  { destruct (use_pierce_worn b) as (? & ? & ? & ? & ? & ? & Hl).
    unfold worn. repeat split; try assumption.
    destruct Hl as [?|[? _]]; [now left | now right]. }
  destruct (circle_intersects_circle _ _ _ _).
  - destruct (_ <=? 0); cbn; (constructor; [exact Hw | apply worn_refl]).
  - cbn. constructor; [|exact IH].
    unfold worn. repeat split; try lia. now left.
Qed.

Lemma enemies_loop_worn (es : list Enemy.t) :
  forall (bs : list Bullet.t) (m : Match),
    Forall2 worn bs (enemies_loop rng es bs m).1.2.
Proof.
  induction es as [|e es IH]; intros bs m; cbn; [apply worn_refl|].
  specialize (IH (scan_bullets (scan_bullets_for rng e bs m))
                 (scan_match (scan_bullets_for rng e bs m))).
  destruct (enemies_loop rng es _ _) as [[alive bs'] m']. cbn in *.
  eapply Forall2_trans; [exact worn_trans | apply scan_bullets_for_worn | exact IH].
Qed.

End Wear.

(** X4.  The bullet/enemy pass only wears bullets out: the bullets it returns are
    the live ones among the bullets it was given, each with its place, speed,
    radius and damage as before, a pierce count that did not grow and did not
    become negative, and a lifetime either kept or set to zero.  No bullet is
    added. *)
Theorem pass_wears_bullets
    (rng : nat -> Q) (win : Window)
    (es : list Enemy.t) (bs : list Bullet.t) (m : Match) :
  exists bs' : list Bullet.t,
    Forall2 worn bs bs'
    /\ (bullets_vs_enemies rng win es bs m).1.2
       = filter (fun b => Bullet.is_alive win b = true) bs'
    /\ (length (bullets_vs_enemies rng win es bs m).1.2 <= length bs)%nat.
Proof.
  exists (enemies_loop rng es bs m).1.2.
  pose proof (enemies_loop_worn rng es bs m) as Hw.
  unfold bullets_vs_enemies.
  destruct (enemies_loop rng es bs m) as [[alive bs'] m']. cbn in *.
  split; [exact Hw|]. split; [reflexivity|].
  rewrite (Forall2_length _ _ _ Hw). apply length_filter.
Qed.

(** ** Explosions *)




(** ** The player *)

Section PlayerUpdate.
Variable win : Window.
Variable normalize : Vec -> Vec.

Lemma regen_frame (dt : Q) (p : Player.t) :
  Player.position (Player.regen dt p) = Player.position p
  /\ Player.radius (Player.regen dt p) = Player.radius p
  /\ Player.max_health_bonus (Player.regen dt p) = Player.max_health_bonus p
  /\ Player.regen_level (Player.regen dt p) = Player.regen_level p
  /\ Player.coins (Player.regen dt p) = Player.coins p
  /\ Player.armor (Player.regen dt p) = Player.armor p.
Proof.
  unfold Player.regen. destruct (_ && _); [|repeat split].
  destruct (Qle_bool _ _); repeat split.
Qed.

Lemma update_as_regen (dt : Q) (keys : Keys) (p : Player.t) :
  exists q : Player.t,
    Player.update win normalize dt keys p = Player.regen dt q
    /\ Player.health q = Player.health p
    /\ Player.max_health_bonus q = Player.max_health_bonus p
    /\ Player.regen_level q = Player.regen_level p
    /\ Player.regen_timer q = Player.regen_timer p
    /\ Player.radius q = Player.radius p
    /\ Player.coins q = Player.coins p
    /\ Player.armor q = Player.armor p
    /\ vx (Player.position q)
       = clamp (vx (vadd (Player.position p)
                      (vscale (if Qltb 0 (length_squared (Player.move_of keys))
                               then vscale (vscale (normalize (Player.move_of keys))
                                                   PLAYER_SPEED)
                                           (Player.speed_multiplier p)
                               else Player.move_of keys) dt)))
               (Player.radius p) (WINDOW_WIDTH win - Player.radius p)
    /\ vy (Player.position q)
       = clamp (vy (vadd (Player.position p)
                      (vscale (if Qltb 0 (length_squared (Player.move_of keys))
                               then vscale (vscale (normalize (Player.move_of keys))
                                                   PLAYER_SPEED)
                                           (Player.speed_multiplier p)
                               else Player.move_of keys) dt)))
               (Player.radius p) (WINDOW_HEIGHT win - Player.radius p).
Proof.
  unfold Player.update. eexists. split; [reflexivity|].
  destruct (Qltb 0 (Player.invuln_timer _)); destruct (Qltb 0 (Player.shoot_cooldown _));
    cbn; repeat split.
Qed.

End PlayerUpdate.

(** X6.  After [Player.update] the player is inside the window inset by its
    radius, whatever the keys, the time step and the speed, provided the
    window is at least as wide and as high as the player. *)
Theorem player_update_in_bounds
    (win : Window) (normalize : Vec -> Vec) (dt : Q) (keys : Keys)
    (p : Player.t) :
  (Player.radius p <= WINDOW_WIDTH win - Player.radius p)%Q ->
  (Player.radius p <= WINDOW_HEIGHT win - Player.radius p)%Q ->
  let p' := Player.update win normalize dt keys p in
  (Player.radius p <= vx (Player.position p'))%Q
  /\ (vx (Player.position p') <= WINDOW_WIDTH win - Player.radius p)%Q
  /\ (Player.radius p <= vy (Player.position p'))%Q
  /\ (vy (Player.position p') <= WINDOW_HEIGHT win - Player.radius p)%Q.
Proof.
  intros Hw Hh p'.
  destruct (update_as_regen win normalize dt keys p)
    as (q & E & _ & _ & _ & _ & _ & _ & _ & Hx & Hy).
  unfold p'. rewrite E.
  destruct (regen_frame dt q) as (Hp & _). rewrite Hp, Hx, Hy.
  pose proof (clamp_range
    (vx (vadd (Player.position p)
          (vscale (if Qltb 0 (length_squared (Player.move_of keys))
                   then vscale (vscale (normalize (Player.move_of keys))
                                       PLAYER_SPEED)
                               (Player.speed_multiplier p)
                   else Player.move_of keys) dt)))
    _ _ Hw) as [? ?].
  pose proof (clamp_range
    (vy (vadd (Player.position p)
          (vscale (if Qltb 0 (length_squared (Player.move_of keys))
                   then vscale (vscale (normalize (Player.move_of keys))
                                       PLAYER_SPEED)
                               (Player.speed_multiplier p)
                   else Player.move_of keys) dt)))
    _ _ Hh) as [? ?].
  repeat split; assumption.
Qed.

Lemma player_update_in_bounds_witness :
  (vx (Player.position
         (Player.update sample_window unit_x 10
            (mkKeys false false false false false false true false)
            sample_player)) <= 944)%Q.
Proof.
  destruct (player_update_in_bounds sample_window unit_x 10
              (mkKeys false false false false false false true false)
              sample_player) as (_ & H & _); [qclosed | qclosed |].
  exact H.
Defined.

(** X7.  [Player.update] never lowers the health and never raises it above
    [max_health()] when it was not above it; it heals one point exactly
    when [regen_level] is positive, the player is hurt and the regeneration
    timer, advanced by the time step, has reached
    [max(4.0, 12.0 - 1.6 * regen_level)], and then the timer restarts at 0;
    coins, armor and the health bonus are left alone. *)
Theorem player_update_regen
    (win : Window) (normalize : Vec -> Vec) (dt : Q) (keys : Keys)
    (p : Player.t) :
  let p' := Player.update win normalize dt keys p in
  let due :=
    (0 <? Player.regen_level p) && (Player.health p <? Player.max_health p)
    && Qle_bool (py_max 4 (12 - 1.6 * inject_Z (Player.regen_level p)))
                (Player.regen_timer p + dt) in
  Player.health p' = (if due then Player.health p + 1 else Player.health p)
  /\ (due = true -> Player.regen_timer p' = 0%Q)
  /\ (Player.health p <= Player.max_health p ->
      Player.health p' <= Player.max_health p')
  /\ Player.coins p' = Player.coins p
  /\ Player.armor p' = Player.armor p
  /\ Player.max_health_bonus p' = Player.max_health_bonus p.
Proof.
  intros p' due.
  destruct (update_as_regen win normalize dt keys p)
    as (q & E & Hh & Hb & Hl & Ht & _ & Hc & Ha & _).
  unfold p'. rewrite E. clear E p'.
  destruct (regen_frame dt q) as (_ & _ & Hb' & _ & Hc' & Ha').
  rewrite Hc', Ha', Hb', Hc, Ha, Hb.
  assert (Hm : Player.max_health q = Player.max_health p)
    by (unfold Player.max_health; now rewrite Hb).
  assert (Hm' : Player.max_health (Player.regen dt q) = Player.max_health p)
    by (unfold Player.max_health; now rewrite Hb', Hb).
  rewrite Hm'. unfold due. clear due.
  unfold Player.regen. rewrite Hl, Hh, Hm.
  destruct (0 <? Player.regen_level p); cbn [andb];
    [|repeat split; [exact Hh | discriminate | now rewrite Hh]].
  destruct (Player.health p <? Player.max_health p) eqn:Eh; cbn [andb];
    [|repeat split; [exact Hh | discriminate | now rewrite Hh]].
  apply Z.ltb_lt in Eh. cbn. rewrite Hl, Ht.
  destruct (Qle_bool _ _); cbn.
  - change (Player.max_health
              (Player.set_regen_timer 0
                 (Player.set_regen_timer (Player.regen_timer p + dt) q)))
      with (Player.max_health q).
    rewrite Hh, Hm. repeat split; lia.
  - repeat split; [exact Hh | discriminate | now rewrite Hh].
Qed.

Lemma player_update_regen_witness :
  Player.health
    (Player.update sample_window unit_x 10.4
       (mkKeys false false false false false false false false)
       (Player.set_regen_level 1 (Player.set_health 3 sample_player)))
  = 4.
Proof.
  destruct (player_update_regen sample_window unit_x 10.4
              (mkKeys false false false false false false false false)
              (Player.set_regen_level 1 (Player.set_health 3 sample_player)))
    as (H & _).
  exact H.
Defined.

(** ** Hits on the player, pass by pass *)

Lemma take_hit_shields (u : Q) (p : Player.t) :
  (Player.invuln_timer p <= 0)%Q ->
  (0 < Player.invuln_timer (Player.take_hit u p))%Q.
Proof.
  intros H. apply Qltb_ge in H. unfold Player.take_hit. rewrite H.
  destruct (Player.dodges p u); [cbn; lra|].
  destruct (0 <? Player.armor p); cbn; unfold INVULN_ON_HIT_SEC; lra.
Qed.

Lemma take_hit_twice (u1 u2 : Q) (p : Player.t) :
  Player.take_hit u2 (Player.take_hit u1 p) = Player.take_hit u1 p.
Proof.
  destruct (Qltb 0 (Player.invuln_timer p)) eqn:E.
  - apply Qltb_lt in E. rewrite (take_hit_invulnerable u1 p E).
    now apply take_hit_invulnerable.
  - apply Qltb_ge in E. apply take_hit_invulnerable. now apply take_hit_shields.
Qed.

Lemma take_hit_frame (u : Q) (p : Player.t) :
  Player.position (Player.take_hit u p) = Player.position p
  /\ Player.radius (Player.take_hit u p) = Player.radius p
  /\ Player.coins (Player.take_hit u p) = Player.coins p
  /\ Player.dodge_level (Player.take_hit u p) = Player.dodge_level p.
Proof.
  unfold Player.take_hit. destruct (Qltb 0 _); [repeat split|].
  destruct (Player.dodges p u); [repeat split|].
  destruct (0 <? Player.armor p); repeat split.
Qed.

Lemma take_hit_draws_after (u : Q) (p : Player.t) :
  Player.take_hit_draws (Player.take_hit u p) = false.
Proof.
  unfold Player.take_hit_draws.
  destruct (Qltb 0 (Player.invuln_timer p)) eqn:E.
  - rewrite take_hit_invulnerable by now apply Qltb_lt. now rewrite E.
  - apply Qltb_ge in E. pose proof (take_hit_shields u p E) as H.
    apply Qltb_lt in H. now rewrite H.
Qed.

(** X8.  A second [take_hit] right after a first one changes nothing, whatever
    the draws; a hit costs at most one point, of armor before health; armor
    that is not negative stays so, and a living player is left with health
    that is not negative. *)
Theorem take_hit_once (u1 u2 : Q) (p : Player.t) :
  Player.take_hit u2 (Player.take_hit u1 p) = Player.take_hit u1 p
  /\ Player.armor p + Player.health p - 1
     <= Player.armor (Player.take_hit u1 p) + Player.health (Player.take_hit u1 p)
     <= Player.armor p + Player.health p
  /\ (0 < Player.armor p ->
      Player.health (Player.take_hit u1 p) = Player.health p)
  /\ (0 <= Player.armor p -> 0 <= Player.armor (Player.take_hit u1 p))
  /\ (0 < Player.health p -> 0 <= Player.health (Player.take_hit u1 p)).
Proof.
  split; [apply take_hit_twice|].
  unfold Player.take_hit. destruct (Qltb 0 _); [repeat split; lia|].
  destruct (Player.dodges p u1); [cbn; repeat split; lia|].
  destruct (0 <? Player.armor p) eqn:E; cbn.
  - apply Z.ltb_lt in E. repeat split; lia.
  - apply Z.ltb_ge in E. repeat split; lia.
Qed.

Lemma take_hit_once_witness :
  Player.health (Player.take_hit 0.9 (Player.set_armor 1 sample_player)) = 5
  /\ 0 <= Player.health (Player.take_hit 0.9 (Player.set_health 1 sample_player)).
Proof.
  destruct (take_hit_once 0.9 0.9 (Player.set_armor 1 sample_player))
    as (_ & _ & Ha & _).
  destruct (take_hit_once 0.9 0.9 (Player.set_health 1 sample_player))
    as (_ & _ & _ & _ & Hh).
  split; [apply Ha; reflexivity | apply Hh; reflexivity].
Defined.

Section PlayerPasses.
Variable normalize : Vec -> Vec.
Variable rng : nat -> Q.

Lemma enemies_vs_player_touched (es : list Enemy.t) :
  forall (p : Player.t) (cur : nat),
    (enemies_vs_player normalize rng es p cur).1.2
    = (if existsb (touches p) es then Player.take_hit (rng cur) p else p)
    /\ (enemies_vs_player normalize rng es p cur).2
       = (if existsb (touches p) es && Player.take_hit_draws p
          then S cur else cur)
    /\ map Enemy.health (enemies_vs_player normalize rng es p cur).1.1
       = map Enemy.health es
    /\ map Enemy.radius (enemies_vs_player normalize rng es p cur).1.1
       = map Enemy.radius es.
Proof.
  assert (Hstay : forall es p cur,
            Player.take_hit_draws p = false ->
            (forall u, Player.take_hit u p = p) ->
            (enemies_vs_player normalize rng es p cur).1.2 = p
            /\ (enemies_vs_player normalize rng es p cur).2 = cur
            /\ map Enemy.health (enemies_vs_player normalize rng es p cur).1.1
               = map Enemy.health es
            /\ map Enemy.radius (enemies_vs_player normalize rng es p cur).1.1
               = map Enemy.radius es).
  { clear es. induction es as [|e es IH]; intros p cur Hd Hp;
      [repeat split|].
    cbn [enemies_vs_player]. unfold hit_player. rewrite Hd, Hp.
    destruct (IH p cur Hd Hp) as (I1 & I2 & I3 & I4).
    destruct (enemies_vs_player normalize rng es p cur) as [[es' p'] cur'].
    cbn in *.
    destruct (circle_intersects_circle _ _ _ _); cbn;
      [destruct (Qltb 0 _)|]; cbn; repeat split; congruence. }
  induction es as [|e es IH]; intros p cur; [repeat split|].
  destruct (touches p e) eqn:Eg; pose proof Eg as Et; unfold touches in Et;
    cbn [enemies_vs_player existsb]; rewrite Et, Eg; cbn [orb andb].
  - unfold hit_player.
    destruct (Hstay es (Player.take_hit (rng cur) p)
                (if Player.take_hit_draws p then S cur else cur)
                (take_hit_draws_after _ _)
                (fun u => take_hit_twice _ u p)) as (I1 & I2 & I3 & I4).
    destruct (enemies_vs_player normalize rng es _ _) as [[es' p'] cur'].
    cbn in *. destruct (Qltb 0 _); cbn; repeat split; congruence.
  - destruct (IH p cur) as (I1 & I2 & I3 & I4).
    destruct (enemies_vs_player normalize rng es p cur) as [[es' p'] cur'].
    cbn in *. repeat split; congruence.
Qed.

Lemma enemy_bullets_vs_player_touched (ebs : list EnemyBullet.t) :
  forall (p : Player.t) (cur : nat),
    (enemy_bullets_vs_player rng ebs p cur).1.1
    = filter (fun eb => grazes p eb = false) ebs
    /\ (enemy_bullets_vs_player rng ebs p cur).1.2
       = (if existsb (grazes p) ebs then Player.take_hit (rng cur) p else p)
    /\ (enemy_bullets_vs_player rng ebs p cur).2
       = (if existsb (grazes p) ebs && Player.take_hit_draws p
          then S cur else cur).
Proof.
  assert (Hstay : forall ebs p cur,
            Player.take_hit_draws p = false ->
            (forall u, Player.take_hit u p = p) ->
            (enemy_bullets_vs_player rng ebs p cur).1.1
            = filter (fun eb => grazes p eb = false) ebs
            /\ (enemy_bullets_vs_player rng ebs p cur).1.2 = p
            /\ (enemy_bullets_vs_player rng ebs p cur).2 = cur).
  { clear ebs. induction ebs as [|eb ebs IH]; intros p cur Hd Hp;
      [repeat split|].
    cbn [enemy_bullets_vs_player]. unfold hit_player. rewrite Hd, Hp.
    destruct (IH p cur Hd Hp) as (I1 & I2 & I3).
    destruct (circle_intersects_circle _ _ _ _) eqn:Et.
    - rewrite filter_cons_False
        by (unfold grazes; rewrite Et; discriminate).
      repeat split; assumption.
    - rewrite filter_cons_True by (unfold grazes; exact Et).
      destruct (enemy_bullets_vs_player rng ebs p cur) as [[r p'] cur'].
      cbn in *. repeat split; congruence. }
  induction ebs as [|eb ebs IH]; intros p cur; [repeat split|].
  destruct (grazes p eb) eqn:Eg; pose proof Eg as Et; unfold grazes in Et;
    cbn [enemy_bullets_vs_player existsb]; rewrite Et, Eg; cbn [orb andb].
  - rewrite filter_cons_False by (rewrite Eg; discriminate).
    unfold hit_player.
    destruct (Hstay ebs (Player.take_hit (rng cur) p)
                (if Player.take_hit_draws p then S cur else cur)
                (take_hit_draws_after _ _)
                (fun u => take_hit_twice _ u p)) as (I1 & I2 & I3).
    rewrite I1, I2, I3. split; [|split; reflexivity].
    apply list_filter_iff. intros x. unfold grazes.
    destruct (take_hit_frame (rng cur) p) as (-> & -> & _). tauto.
  - rewrite filter_cons_True by exact Eg.
    destruct (IH p cur) as (I1 & I2 & I3).
    destruct (enemy_bullets_vs_player rng ebs p cur) as [[r p'] cur'].
    cbn in *. repeat split; congruence.
Qed.

End PlayerPasses.

Lemma existsb_same {A : Type} (f g : A -> bool) (l : list A) :
  (forall x, f x = g x) -> existsb f l = existsb g l.
Proof. intros H. induction l as [|x l IH]; cbn; [reflexivity|]. now rewrite H, IH. Qed.

(** X9.  In "enemies vs player" the player takes the hit of the first enemy it
    overlaps and no other: the player after the pass is [take_hit] applied
    once when some enemy overlaps it and is unchanged otherwise, at most one
    draw is made, and the enemies keep their number, health and radius (they
    are only pushed away). *)
Theorem contact_pass_hits_once
    (normalize : Vec -> Vec) (rng : nat -> Q)
    (es : list Enemy.t) (p : Player.t) (cur : nat) :
  (enemies_vs_player normalize rng es p cur).1.2
  = (if existsb (touches p) es then Player.take_hit (rng cur) p else p)
  /\ (cur <= (enemies_vs_player normalize rng es p cur).2 <= S cur)%nat
  /\ map Enemy.health (enemies_vs_player normalize rng es p cur).1.1
     = map Enemy.health es
  /\ map Enemy.radius (enemies_vs_player normalize rng es p cur).1.1
     = map Enemy.radius es
  /\ length (enemies_vs_player normalize rng es p cur).1.1 = length es.
Proof.
  destruct (enemies_vs_player_touched normalize rng es p cur)
    as (H1 & H2 & H3 & H4).
  split; [exact H1|]. split; [rewrite H2; destruct (_ && _); lia|].
  split; [exact H3|]. split; [exact H4|].
  rewrite <- (length_map Enemy.health), H3. apply length_map.
Qed.

(** X10.  "Enemy bullets vs player" removes exactly the enemy bullets that overlap
    the player and keeps the others in order.  Run after "enemies vs player",
    the two passes together apply [take_hit] once when an enemy or an enemy
    bullet overlaps the player and not at all otherwise: one tick never costs
    the player more than one hit. *)
Theorem one_hit_per_tick
    (normalize : Vec -> Vec) (rng : nat -> Q)
    (es : list Enemy.t) (ebs : list EnemyBullet.t) (p : Player.t)
    (cur : nat) :
  (enemy_bullets_vs_player rng ebs p cur).1.1
  = filter (fun eb => grazes p eb = false) ebs
  /\ (enemy_bullets_vs_player rng ebs
        (enemies_vs_player normalize rng es p cur).1.2
        (enemies_vs_player normalize rng es p cur).2).1.1
     = filter (fun eb => grazes p eb = false) ebs
  /\ exists u : Q,
       (enemy_bullets_vs_player rng ebs
          (enemies_vs_player normalize rng es p cur).1.2
          (enemies_vs_player normalize rng es p cur).2).1.2
       = (if existsb (touches p) es || existsb (grazes p) ebs
          then Player.take_hit u p else p).
Proof.
  destruct (enemies_vs_player_touched normalize rng es p cur)
    as (H1 & H2 & _).
  split; [apply enemy_bullets_vs_player_touched|].
  destruct (enemy_bullets_vs_player_touched rng ebs
              (enemies_vs_player normalize rng es p cur).1.2
              (enemies_vs_player normalize rng es p cur).2) as (G1 & G2 & _).
  assert (Hg : forall q, Player.position q = Player.position p ->
                         Player.radius q = Player.radius p ->
                         forall eb, grazes q eb = grazes p eb).
  { intros q Hp Hr eb. unfold grazes. now rewrite Hp, Hr. }
  assert (Hq : forall eb,
            grazes (enemies_vs_player normalize rng es p cur).1.2 eb
            = grazes p eb).
  { intros eb. apply Hg; rewrite H1; destruct (existsb _ es);
      try reflexivity; apply take_hit_frame. }
  split.
  - rewrite G1. apply list_filter_iff. intros eb. now rewrite Hq.
  - rewrite G2, (existsb_same _ (grazes p) ebs Hq). rewrite H1, H2.
    destruct (existsb (touches p) es); cbn [orb andb].
    + exists (rng cur). rewrite take_hit_twice.
      destruct (existsb (grazes p) ebs); reflexivity.
    + exists (rng cur). reflexivity.
Qed.

(** ** Coins *)

Lemma pickup_coins_split (cs : list Coin.t) (p0 : Player.t) :
  forall p : Player.t,
    Player.position p = Player.position p0 ->
    Player.radius p = Player.radius p0 ->
    (pickup_coins cs p).1 = filter (fun c => reaches p0 c = false) cs
    /\ Player.coins (pickup_coins cs p).2
       = Player.coins p + worth (filter (fun c => reaches p0 c = true) cs)
    /\ Player.set_coins 0 (pickup_coins cs p).2 = Player.set_coins 0 p.
Proof.
  induction cs as [|c cs IH]; intros p Hp Hr;
    [cbn; split; [reflexivity | split; [lia | reflexivity]]|].
  destruct (reaches p0 c) eqn:Er; pose proof Er as Et; unfold reaches in Et;
    cbn [pickup_coins]; rewrite Hp, Hr, Et.
  - rewrite filter_cons_False by (rewrite Er; discriminate).
    rewrite filter_cons_True by exact Er.
    destruct (IH (Player.set_coins (Player.coins p + Coin.value c) p) Hp Hr)
      as (I1 & I2 & I3).
    rewrite I1, I2, I3. unfold worth. cbn [Player.coins Player.set_coins foldr].
    split; [reflexivity | split; [lia | reflexivity]].
  - rewrite filter_cons_True by exact Er.
    rewrite filter_cons_False by (rewrite Er; discriminate).
    destruct (IH p Hp Hr) as (I1 & I2 & I3).
    destruct (pickup_coins cs p) as [r p']. cbn in *.
    repeat split; congruence.
Qed.

(** X11.  The pickup pass removes exactly the coins within reach (player radius
    plus 4) and keeps the others in order; the balance grows by the worth of
    the coins removed, so no value is lost or made, and nothing else about
    the player changes. *)
Theorem pickup_conserves_value (cs : list Coin.t) (p : Player.t) :
  (pickup_coins cs p).1 = filter (fun c => reaches p c = false) cs
  /\ Player.coins (pickup_coins cs p).2 + worth (pickup_coins cs p).1
     = Player.coins p + worth cs
  /\ Player.set_coins 0 (pickup_coins cs p).2 = Player.set_coins 0 p.
Proof.
  destruct (pickup_coins_split cs p p eq_refl eq_refl) as (H1 & H2 & H3).
  split; [exact H1|]. split; [|exact H3]. rewrite H1, H2.
  clear. induction cs as [|c cs IH]; [cbn; lia|].
  destruct (reaches p c) eqn:Er.
  - rewrite filter_cons_True by exact Er.
    rewrite filter_cons_False by (rewrite Er; discriminate).
    unfold worth in *. cbn [foldr] in *. lia.
  - rewrite filter_cons_False by (rewrite Er; discriminate).
    rewrite filter_cons_True by exact Er.
    unfold worth in *. cbn [foldr] in *. lia.
Qed.

(** X12.  After [Coin.update] the coin lies inside the window inset by its radius,
    whatever the drag, the magnet and the time step did to it, provided the
    window is at least as wide and as high as the coin; its value and radius
    are unchanged. *)
Theorem coin_update_in_bounds
    (win : Window) (normalize : Vec -> Vec) (dt : Q) (player_pos : Vec)
    (magnet_radius : Q) (c : Coin.t) :
  (Coin.radius c <= WINDOW_WIDTH win - Coin.radius c)%Q ->
  (Coin.radius c <= WINDOW_HEIGHT win - Coin.radius c)%Q ->
  let c' := Coin.update win normalize dt player_pos magnet_radius c in
  (Coin.radius c <= vx (Coin.position c'))%Q
  /\ (vx (Coin.position c') <= WINDOW_WIDTH win - Coin.radius c)%Q
  /\ (Coin.radius c <= vy (Coin.position c'))%Q
  /\ (vy (Coin.position c') <= WINDOW_HEIGHT win - Coin.radius c)%Q
  /\ Coin.value c' = Coin.value c
  /\ Coin.radius c' = Coin.radius c.
Proof.
  intros Hw Hh c'. subst c'. unfold Coin.update.
  set (v := if Qltb _ (magnet_radius * magnet_radius) then _ else _).
  set (pos := vadd (Coin.position c) (vscale v dt)).
  clearbody pos. clearbody v. cbn zeta.
  destruct (Qltb (vx pos) (Coin.radius c)) eqn:E1;
    [apply Qltb_lt in E1 | apply Qltb_ge in E1];
    (destruct (Qltb (WINDOW_WIDTH win - Coin.radius c) _) eqn:E2;
     [apply Qltb_lt in E2 | apply Qltb_ge in E2]);
    (destruct (Qltb (vy pos) (Coin.radius c)) eqn:E3;
     [apply Qltb_lt in E3 | apply Qltb_ge in E3]);
    (destruct (Qltb (WINDOW_HEIGHT win - Coin.radius c) _) eqn:E4;
     [apply Qltb_lt in E4 | apply Qltb_ge in E4]);
    cbn; repeat split; lra.
Qed.

Lemma coin_update_in_bounds_witness :
  (vx (Coin.position
         (Coin.update sample_window unit_x 1 (Vector2 480 270) 60
            (Coin.mk (Vector2 950 100) 2 (Vector2 180 0) 6))) <= 954)%Q.
Proof.
  destruct (coin_update_in_bounds sample_window unit_x 1 (Vector2 480 270) 60
              (Coin.mk (Vector2 950 100) 2 (Vector2 180 0) 6))
    as (_ & H & _); [qclosed | qclosed | exact H].
Defined.

(** ** The spawner *)

(** X13.  Every enemy [spawn_enemy] makes is at full health, is no boss, and has
    at least one point of health from level 1 on.  Below level 2 it is always
    a plain enemy and three draws are made; a shooter starts with its timer
    at its cooldown, which is at least 0.9 s.  With the place draw in [0, 1]
    the enemy starts on one of the four lines 28 pixels outside the window. *)
Theorem spawn_enemy_shape
    (win : Window) (rng : nat -> Q) (cur : nat) (s : EnemySpawner.t) :
  let e := (EnemySpawner.spawn_enemy win rng cur s).1 in
  let cur' := (EnemySpawner.spawn_enemy win rng cur s).2 in
  Enemy.health e = Enemy.max_health e
  /\ Enemy.is_boss e = false
  /\ (1 <= EnemySpawner.level s -> 1 <= Enemy.health e)
  /\ (EnemySpawner.level s < 2 ->
      Enemy.kind e = Plain /\ cur' = (cur + 3)%nat)
  /\ (Enemy.kind e = Plain ->
      Enemy.health e = 1 + (EnemySpawner.level s - 1) / 3
      /\ Enemy.radius e = ENEMY_RADIUS)
  /\ (forall t c : Q,
        Enemy.kind e = Shooter t c ->
        2 <= EnemySpawner.level s /\ t = c /\ (0.9 <= c)%Q
        /\ Enemy.health e = 3 + EnemySpawner.level s / 2)
  /\ ((0 <= rng (S cur))%Q -> (rng (S cur) <= 1)%Q ->
      (0 <= WINDOW_WIDTH win)%Q -> (0 <= WINDOW_HEIGHT win)%Q ->
      let x := vx (Enemy.position e) in
      let y := vy (Enemy.position e) in
      ((0 <= x)%Q /\ (x <= WINDOW_WIDTH win)%Q
       /\ ((y == -28)%Q \/ (y == WINDOW_HEIGHT win + 28)%Q))
      \/ ((0 <= y)%Q /\ (y <= WINDOW_HEIGHT win)%Q
          /\ ((x == -28)%Q \/ (x == WINDOW_WIDTH win + 28)%Q))).
Proof.
  unfold EnemySpawner.spawn_enemy.
  set (side := EnemySpawner.choose_side (rng cur)).
  assert (Hplace :
    (0 <= rng (S cur))%Q -> (rng (S cur) <= 1)%Q ->
    (0 <= WINDOW_WIDTH win)%Q -> (0 <= WINDOW_HEIGHT win)%Q ->
    forall w : Q, (0 <= w)%Q ->
      (0 <= uniform 0 w (rng (S cur)))%Q /\ (uniform 0 w (rng (S cur)) <= w)%Q).
  { intros H0 H1 _ _ w Hw. unfold uniform.
    assert (0 <= (w - 0) * rng (S cur))%Q by (apply Qmult_le_0_compat; lra).
    assert (0 <= (w - 0) * (1 - rng (S cur)))%Q
      by (apply Qmult_le_0_compat; lra).
    lra. }
  destruct (2 <=? EnemySpawner.level s) eqn:E2;
    [apply Z.leb_le in E2 | apply Z.leb_gt in E2].
  - destruct (Qltb _ _); cbn -[Z.div uniform].
    + split; [reflexivity|]. split; [reflexivity|].
      split; [intros _; pose proof (Z.div_pos (EnemySpawner.level s) 2); lia|].
      split; [lia|]. split; [discriminate|].
      split.
      { intros t c E. injection E as <- <-.
        repeat split; try lia. apply py_max_lower. }
      intros H0 H1 Hw Hh.
      destruct (Hplace H0 H1 Hw Hh _ Hw), (Hplace H0 H1 Hw Hh _ Hh).
      unfold ENEMY_RADIUS.
      destruct side; cbn -[uniform];
        [left | left | right | right]; (split; [|split]);
        auto; first [left; ring | right; ring].
    + split; [reflexivity|]. split; [reflexivity|].
      split; [intros _; pose proof (Z.div_pos (EnemySpawner.level s - 1) 3); lia|].
      split; [lia|]. split; [auto|]. split; [discriminate|].
      intros H0 H1 Hw Hh.
      destruct (Hplace H0 H1 Hw Hh _ Hw), (Hplace H0 H1 Hw Hh _ Hh).
      unfold ENEMY_RADIUS.
      destruct side; cbn -[uniform];
        [left | left | right | right]; (split; [|split]);
        auto; first [left; ring | right; ring].
  - cbn -[Z.div uniform].
    split; [reflexivity|]. split; [reflexivity|].
    split; [intros H; assert (EnemySpawner.level s = 1) as -> by lia;
            reflexivity|].
    split; [intros _; split; [reflexivity | lia]|].
    split; [auto|]. split; [discriminate|].
    intros H0 H1 Hw Hh.
    destruct (Hplace H0 H1 Hw Hh _ Hw), (Hplace H0 H1 Hw Hh _ Hh).
    unfold ENEMY_RADIUS.
    destruct side; cbn -[uniform];
      [left | left | right | right]; (split; [|split]);
      auto; first [left; ring | right; ring].
Qed.

Lemma spawn_enemy_shape_witness :
  Enemy.kind (EnemySpawner.spawn_enemy sample_window steady_rng 0
                EnemySpawner.init).1 = Plain
  /\ 1 <= Enemy.health (EnemySpawner.spawn_enemy sample_window steady_rng 0
                          EnemySpawner.init).1.
Proof.
  destruct (spawn_enemy_shape sample_window steady_rng 0
              EnemySpawner.init) as (_ & _ & Hh & Hp & _).
  split; [apply Hp; reflexivity | apply Hh; discriminate].
Defined.

(** X14.  The boss gate asks for a boss at most once: after it the spawner no
    longer wants one, so running it again changes nothing.  When it fires it
    appends one enemy, a boss at full health [280 + 120 * (level - 1)], and
    marks the boss active; otherwise it leaves the enemies and the match as
    they are. *)
Theorem boss_gate_once
    (rng : nat -> Q) (win : Window) (es : list Enemy.t) (m : Match) :
  EnemySpawner.should_spawn_boss (spawner (boss_gate rng win es m).2) = false
  /\ boss_gate rng win (boss_gate rng win es m).1 (boss_gate rng win es m).2
     = boss_gate rng win es m
  /\ (EnemySpawner.should_spawn_boss (spawner m) = true ->
      exists boss : Enemy.t,
        (boss_gate rng win es m).1 = es ++ [boss]
        /\ Enemy.is_boss boss = true
        /\ Enemy.health boss = 280 + 120 * (EnemySpawner.level (spawner m) - 1)
        /\ Enemy.max_health boss = Enemy.health boss
        /\ EnemySpawner.boss_active (spawner (boss_gate rng win es m).2) = true)
  /\ (EnemySpawner.should_spawn_boss (spawner m) = false ->
      boss_gate rng win es m = (es, m)).
Proof.
  assert (Hoff : EnemySpawner.should_spawn_boss
                   (spawner (boss_gate rng win es m).2) = false).
  { unfold boss_gate.
    destruct (EnemySpawner.should_spawn_boss (spawner m)) eqn:E;
      [reflexivity | exact E]. }
  split; [exact Hoff|]. split.
  - unfold boss_gate at 1. now rewrite Hoff, <- surjective_pairing.
  - unfold boss_gate.
    destruct (EnemySpawner.should_spawn_boss (spawner m)); split;
      try discriminate; try reflexivity.
    intros _. eexists. cbn. repeat split.
Qed.

Lemma boss_gate_once_witness :
  exists boss : Enemy.t,
    (boss_gate steady_rng sample_window []
       (mkMatch sample_player (EnemySpawner.mk 0.5 1.1 3 1 30 false 0 0)
                [] [] 30 0)).1 = [boss]
    /\ Enemy.health boss = 280.
Proof.
  destruct (boss_gate_once steady_rng sample_window []
              (mkMatch sample_player (EnemySpawner.mk 0.5 1.1 3 1 30 false 0 0)
                       [] [] 30 0)) as (_ & _ & Hfire & _).
  destruct (Hfire eq_refl) as (boss & E & _ & Hh & _).
  exists boss. split; [exact E | exact Hh].
Defined.

Lemma update_in_transition (dt : Q) (s : EnemySpawner.t) :
  (0 < EnemySpawner.level_transition_timer s)%Q ->
  EnemySpawner.update dt s
  = EnemySpawner.mk (EnemySpawner.timer s) (EnemySpawner.current_interval s)
      (EnemySpawner.accel_timer s) (EnemySpawner.level s)
      (EnemySpawner.kills_this_level s) (EnemySpawner.boss_active s)
      (EnemySpawner.level_transition_timer s - dt)
      (EnemySpawner.boss_banner_timer s).
Proof.
  intros H. apply Qltb_lt in H. unfold EnemySpawner.update. now rewrite H.
Qed.

Lemma updates_in_transition (dts : list Q) :
  forall s : EnemySpawner.t,
    Forall (fun dt => (0 <= dt)%Q) dts ->
    (fold_right Qplus 0 dts < EnemySpawner.level_transition_timer s)%Q ->
    let s' := fold_left (fun s dt => EnemySpawner.update dt s) dts s in
    (EnemySpawner.level_transition_timer s'
     == EnemySpawner.level_transition_timer s - fold_right Qplus 0 dts)%Q
    /\ EnemySpawner.timer s' = EnemySpawner.timer s
    /\ EnemySpawner.current_interval s' = EnemySpawner.current_interval s
    /\ EnemySpawner.accel_timer s' = EnemySpawner.accel_timer s
    /\ EnemySpawner.level s' = EnemySpawner.level s
    /\ EnemySpawner.kills_this_level s' = EnemySpawner.kills_this_level s.
Proof.
  induction dts as [|dt dts IH]; intros s Hpos Hsum; cbn in *.
  - repeat split. ring.
  - inversion Hpos as [|? ? Hdt Hrest]; subst.
    assert (Hsumpos : (0 <= fold_right Qplus 0 dts)%Q).
    { clear -Hrest. induction Hrest; cbn; lra. }
    assert (Ht : (0 < EnemySpawner.level_transition_timer s)%Q) by lra.
    rewrite (update_in_transition dt s Ht).
    match goal with
    | |- context [fold_left _ dts ?s1] =>
        destruct (IH s1 Hrest) as (I1 & I2 & I3 & I4 & I5 & I6);
          [cbn; lra|]
    end.
    cbn in *. rewrite I1. repeat split; try assumption. ring.
Qed.

(** X15.  While the level transition runs, [update] only counts the transition
    down: for time steps that are not negative and sum to less than the
    transition timer, the spawn timer, the interval, the acceleration timer,
    the level and the kill counter stay as they were and [should_spawn] is
    false; and with the spawn timer positive, as [on_boss_killed] leaves it,
    the spawn step of [run] adds no enemy. *)
Theorem transition_freezes_spawner (dts : list Q) (s : EnemySpawner.t) :
  Forall (fun dt => (0 <= dt)%Q) dts ->
  (fold_right Qplus 0 dts < EnemySpawner.level_transition_timer s)%Q ->
  let s' := fold_left (fun s dt => EnemySpawner.update dt s) dts s in
  EnemySpawner.should_spawn s' = false
  /\ EnemySpawner.timer s' = EnemySpawner.timer s
  /\ EnemySpawner.current_interval s' = EnemySpawner.current_interval s
  /\ EnemySpawner.accel_timer s' = EnemySpawner.accel_timer s
  /\ EnemySpawner.level s' = EnemySpawner.level s
  /\ EnemySpawner.kills_this_level s' = EnemySpawner.kills_this_level s
  /\ (forall (win : Window) (rng : nat -> Q) (dt : Q) (es : list Enemy.t)
             (cur : nat),
        (0 < EnemySpawner.timer s)%Q ->
        (spawn_step win rng dt es s' cur).1.1 = es
        /\ (spawn_step win rng dt es s' cur).2 = cur).
Proof.
  intros Hpos Hsum s'.
  destruct (updates_in_transition dts s Hpos Hsum)
    as (H1 & H2 & H3 & H4 & H5 & H6).
  fold s' in H1, H2, H3, H4, H5, H6.
  assert (Ht : (0 < EnemySpawner.level_transition_timer s')%Q)
    by (rewrite H1; lra).
  split.
  { unfold EnemySpawner.should_spawn.
    assert (E : Qle_bool (EnemySpawner.level_transition_timer s') 0 = false)
      by (apply Qle_bool_gt; exact Ht).
    rewrite E. apply andb_false_r. }
  repeat (split; [assumption|]).
  intros win rng dt es cur Htimer. unfold spawn_step.
  rewrite (update_in_transition dt s' Ht). cbn [EnemySpawner.timer].
  assert (E : Qle_bool (EnemySpawner.timer s') 0 = false)
    by (apply Qle_bool_gt; rewrite H2; exact Htimer).
  rewrite E. split; reflexivity.
Qed.

Lemma transition_freezes_spawner_witness :
  EnemySpawner.should_spawn
    (EnemySpawner.update 0.5
       (EnemySpawner.update 0.5
          (EnemySpawner.on_boss_killed EnemySpawner.init))) = false.
Proof.
  destruct (transition_freezes_spawner [0.5%Q; 0.5%Q]
              (EnemySpawner.on_boss_killed EnemySpawner.init)) as (H & _).
  - repeat constructor; qclosed.
  - apply Qltb_lt. reflexivity.
  - exact H.
Defined.

Lemma spawner_step_rises (s : EnemySpawner.t) (ev : SpawnerEvent) :
  EnemySpawner.level s <= EnemySpawner.level (spawner_step s ev)
  /\ (0 <= EnemySpawner.kills_this_level s ->
      0 <= EnemySpawner.kills_this_level (spawner_step s ev)).
Proof.
  destruct ev; cbn; try (split; lia).
  unfold EnemySpawner.update.
  destruct (Qltb 0 _); [cbn; split; lia|].
  destruct (Qle_bool _ _); cbn; split; lia.
Qed.

Lemma spawner_run_kills (evs : list SpawnerEvent) :
  0 <= EnemySpawner.kills_this_level (spawner_run evs).
Proof.
  induction evs as [|ev evs IH] using rev_ind.
  - cbn. lia.
  - rewrite spawner_run_snoc. now apply spawner_step_rises.
Qed.

(** X16.  Along every history of the spawner the level never goes down and is at
    least 1, and the kill counter is never negative. *)
Theorem spawner_level_never_falls (evs later : list SpawnerEvent) :
  EnemySpawner.level (spawner_run evs)
  <= EnemySpawner.level (spawner_run (evs ++ later))
  /\ 1 <= EnemySpawner.level (spawner_run evs)
  /\ 0 <= EnemySpawner.kills_this_level (spawner_run evs).
Proof.
  split; [|split; [apply spawner_run_level | apply spawner_run_kills]].
  induction later as [|ev later IH] using rev_ind.
  - rewrite app_nil_r. lia.
  - rewrite app_assoc, spawner_run_snoc.
    pose proof (spawner_step_rises (spawner_run (evs ++ later)) ev) as [H _].
    lia.
Qed.

(** ** Prices and caps *)

Lemma py_index_in_range (table : list Z) (i : Z) :
  - Z.of_nat (length table) <= i < Z.of_nat (length table) ->
  exists c, py_index table i = Some c /\ c ∈ table.
Proof.
  intros H. unfold py_index.
  destruct (0 <=? i) eqn:E; [apply Z.leb_le in E | apply Z.leb_gt in E].
  - destruct (lookup_lt_is_Some_2 table (Z.to_nat i)) as [c Hc]; [lia|].
    exists c. split; [exact Hc|]. eapply list_elem_of_lookup_2, Hc.
  - assert (Hi : (- Z.of_nat (length table) <=? i) = true)
      by (apply Z.leb_le; lia).
    rewrite Hi.
    destruct (lookup_lt_is_Some_2 table
                (Z.to_nat (Z.of_nat (length table) + i))) as [c Hc]; [lia|].
    exists c. split; [exact Hc|]. eapply list_elem_of_lookup_2, Hc.
Qed.

Lemma py_index_below (table : list Z) (i : Z) :
  i < - Z.of_nat (length table) -> py_index table i = None.
Proof.
  intros H. unfold py_index.
  assert (E1 : (0 <=? i) = false) by (apply Z.leb_gt; lia).
  assert (E2 : (- Z.of_nat (length table) <=? i) = false)
    by (apply Z.leb_gt; lia).
  now rewrite E1, E2.
Qed.

Lemma cost_entry_cases (table : list Z) (lvl : Z) :
  Forall (fun c => 0 < c) table ->
  (cost_entry table lvl = None <-> lvl < - Z.of_nat (length table))
  /\ (forall c, cost_entry table lvl = Some c ->
        0 <= c /\ (c = 0 <-> Z.of_nat (length table) <= lvl)).
Proof.
  intros Hpos. unfold cost_entry.
  destruct (lvl <? Z.of_nat (length table)) eqn:E;
    [apply Z.ltb_lt in E | apply Z.ltb_ge in E].
  - destruct (Z_lt_le_dec lvl (- Z.of_nat (length table))) as [Hlow|Hin].
    + rewrite (py_index_below table lvl Hlow).
      split; [tauto | discriminate].
    + destruct (py_index_in_range table lvl) as (c & Hc & Hel); [lia|].
      rewrite Hc. rewrite Forall_forall in Hpos. specialize (Hpos c Hel).
      split; [split; [discriminate | lia]|].
      intros c' Ec. injection Ec as <-. lia.
  - split; [split; [discriminate | lia]|].
    intros c Ec. injection Ec as <-. lia.
Qed.

Ltac table_pos := repeat constructor; lia.

Lemma compute_costs_cases (s : Shop) :
  (compute_costs s = None <-> exists u, counter u s < - cap u)
  /\ (forall costs, compute_costs s = Some costs ->
        forall u, 0 <= cost_of u costs
                  /\ (cost_of u costs = 0 <-> cap u <= counter u s)).
Proof.
  unfold compute_costs.
  destruct (cost_entry_cases [10; 20; 35; 55] (speed_levels s))
    as [N1 S1]; [table_pos|].
  destruct (cost_entry_cases [12; 24; 40; 60; 85] (firerate_levels s))
    as [N2 S2]; [table_pos|].
  destruct (cost_entry_cases [15; 30; 50] (pierce_levels s))
    as [N3 S3]; [table_pos|].
  destruct (cost_entry_cases [12; 24; 40] (size_levels s))
    as [N4 S4]; [table_pos|].
  destruct (cost_entry_cases [10; 20; 32; 48] (magnet_levels s))
    as [N5 S5]; [table_pos|].
  destruct (cost_entry_cases [20; 40; 70; 110; 160] (hp_levels s))
    as [N6 S6]; [table_pos|].
  destruct (cost_entry_cases [18; 36; 60; 90; 130]
              (Player.bullet_damage_level (buyer s)))
    as [N7 S7]; [table_pos|].
  destruct (cost_entry_cases [14; 28; 50]
              (Player.coin_gain_level (buyer s)))
    as [N8 S8]; [table_pos|].
  repeat match goal with
    | H : context [Z.of_nat ?n] |- _ =>
        let v := eval vm_compute in (Z.of_nat n) in
        change (Z.of_nat n) with v in H
    end.
  assert (Hlow : (exists u, counter u s < - cap u)
                 <-> speed_levels s < -4 \/ firerate_levels s < -5
                     \/ pierce_levels s < -3 \/ size_levels s < -3
                     \/ magnet_levels s < -4 \/ hp_levels s < -5
                     \/ Player.bullet_damage_level (buyer s) < -5
                     \/ Player.coin_gain_level (buyer s) < -3).
  { split.
    - intros [u Hu]. destruct u; cbn in Hu; tauto.
    - intros [H|[H|[H|[H|[H|[H|[H|H]]]]]]];
        [exists UpSpeed | exists UpFirerate | exists UpPierce | exists UpSize
        | exists UpMagnet | exists UpHp | exists UpDmg | exists UpCoin];
        exact H. }
  rewrite Hlow. clear Hlow.
  destruct (cost_entry _ (speed_levels s)) as [c1|];
    [|cbn [mbind option_bind];
      split; [split; [intros _; left; now apply N1 | reflexivity]
             | intros ? E; discriminate E]].
  destruct (cost_entry _ (firerate_levels s)) as [c2|];
    [|cbn [mbind option_bind];
      split; [split; [intros _; right; left; now apply N2 | reflexivity]
             | intros ? E; discriminate E]].
  destruct (cost_entry _ (pierce_levels s)) as [c3|];
    [|cbn [mbind option_bind];
      split; [split; [intros _; do 2 right; left; now apply N3 | reflexivity]
             | intros ? E; discriminate E]].
  destruct (cost_entry _ (size_levels s)) as [c4|];
    [|cbn [mbind option_bind];
      split; [split; [intros _; do 3 right; left; now apply N4 | reflexivity]
             | intros ? E; discriminate E]].
  destruct (cost_entry _ (magnet_levels s)) as [c5|];
    [|cbn [mbind option_bind];
      split; [split; [intros _; do 4 right; left; now apply N5 | reflexivity]
             | intros ? E; discriminate E]].
  destruct (cost_entry _ (hp_levels s)) as [c6|];
    [|cbn [mbind option_bind];
      split; [split; [intros _; do 5 right; left; now apply N6 | reflexivity]
             | intros ? E; discriminate E]].
  destruct (cost_entry _ (Player.bullet_damage_level (buyer s))) as [c7|];
    [|cbn [mbind option_bind];
      split; [split; [intros _; do 6 right; left; now apply N7 | reflexivity]
             | intros ? E; discriminate E]].
  destruct (cost_entry _ (Player.coin_gain_level (buyer s))) as [c8|];
    [|cbn [mbind option_bind];
      split; [split; [intros _; do 7 right; now apply N8 | reflexivity]
             | intros ? E; discriminate E]].
  cbn [mbind option_bind]. split.
  - split; [discriminate|].
    intros [H|[H|[H|[H|[H|[H|[H|H]]]]]]];
      [apply N1 in H | apply N2 in H | apply N3 in H | apply N4 in H
      | apply N5 in H | apply N6 in H | apply N7 in H | apply N8 in H];
      discriminate H.
  - intros costs E. injection E as <-.
    intros u. destruct u; cbn; auto.
Qed.

(** X17.  [compute_costs] raises exactly when some counter is below minus the
    length of its price table.  Otherwise no price is negative, and a price
    is 0 exactly when the counter has reached the length of the table. *)
Theorem compute_costs_maxed (s : Shop) :
  (compute_costs s = None <-> exists u, counter u s < - cap u)
  /\ (forall costs, compute_costs s = Some costs ->
        forall u, 0 <= cost_of u costs
                  /\ (cost_of u costs = 0 <-> cap u <= counter u s)).
Proof. apply compute_costs_cases. Qed.

Lemma compute_costs_maxed_witness :
  cost_of UpSpeed sample_costs <> 0.
Proof.
  destruct (compute_costs_maxed sample_shop) as [_ H].
  destruct (H sample_costs eq_refl UpSpeed) as [_ Hz].
  intros E. apply Hz in E. revert E. cbn. lia.
Defined.

Lemma purchase_counter (u v : Upgrade) (costs : Costs) (s : Shop) :
  counter v (purchase u costs s) = counter v s
  \/ (v = u /\ 0 < cost_of u costs
      /\ counter v (purchase u costs s) = counter v s + 1).
Proof.
  unfold purchase. destruct (0 <? cost_of u costs) eqn:E; [|now left].
  apply Z.ltb_lt in E.
  destruct (cost_of u costs <=? Player.coins (buyer s)); [|now left].
  cbn [andb]. destruct u, v; cbn in *; first [now left | right; repeat split; lia].
Qed.

Lemma purchase_within_caps (u : Upgrade) (costs : Costs) (s : Shop) :
  compute_costs s = Some costs ->
  (forall v, 0 <= counter v s <= cap v) ->
  forall v, counter v s <= counter v (purchase u costs s) <= cap v.
Proof.
  intros Hc Hin v. destruct (compute_costs_cases s) as [_ Hs].
  destruct (purchase_counter u v costs s) as [E|(-> & Hpos & E)]; rewrite E.
  - specialize (Hin v). lia.
  - destruct (Hs costs Hc u) as [_ Hz]. specialize (Hin u).
    assert (~ cap u <= counter u s) by (intros H; apply Hz in H; lia). lia.
Qed.

(** X18.  No purchase in the shop, by key or by click, takes a counter past the
    length of its price table or lowers it: counters between 0 and their
    caps stay between them. *)
Theorem shop_counters_capped (s s' : Shop) :
  (forall v, 0 <= counter v s <= cap v) ->
  ((exists key, shop_keydown key s = Some s')
   \/ (exists idx, shop_click idx s = Some s')) ->
  forall v, counter v s <= counter v s' <= cap v.
Proof.
  intros Hin Hstep v.
  assert (Hself : counter v s <= counter v s <= cap v)
    by (specialize (Hin v); lia).
  destruct Hstep as [[key Hk]|[idx Hk]].
  - destruct (compute_costs s) as [costs|] eqn:Hc;
      [|unfold shop_keydown in Hk; rewrite Hc in Hk; discriminate].
    rewrite (shop_keydown_cases key s costs Hc) in Hk. injection Hk as <-.
    destruct (addressed key (shop_page s)) as [u|].
    + now apply purchase_within_caps.
    + destruct key; try exact Hself; destruct v; exact Hself.
  - destruct (compute_costs s) as [costs|] eqn:Hc;
      [|unfold shop_click in Hk; rewrite Hc in Hk; discriminate].
    destruct (shop_click_cases idx s costs Hc) as [E|[u E]];
      rewrite E in Hk; injection Hk as <-.
    + exact Hself.
    + now apply purchase_within_caps.
Qed.

Lemma shop_counters_capped_witness :
  counter UpSpeed (purchase UpSpeed sample_costs sample_shop) <= 4.
Proof.
  apply (shop_counters_capped sample_shop
           (purchase UpSpeed sample_costs sample_shop)).
  - intros v. destruct v; cbn; lia.
  - left. exists K_1. reflexivity.
Defined.



(** ** The item shop *)

Lemma py_int_of_integer (x : Q) (z : Z) : (x == inject_Z z)%Q -> py_int x = z.
Proof.
  unfold Qeq, py_int. cbn. rewrite Z.mul_1_r. intros ->.
  apply Z.quot_mul. discriminate.
Qed.

Lemma item_cost_linear (b l : Z) :
  item_cost (inject_Z (2 * b)) l = 2 * b + b * l.
Proof.
  unfold item_cost. apply py_int_of_integer.
  rewrite !inject_Z_plus, !inject_Z_mult. change (inject_Z 2) with 2%Q. field.
Qed.

(** X20.  The price of an item at level [l] is [base + base / 2 * l] (the seven
    bases are even, so [int] cuts nothing off).  With the seven item levels
    not negative and the chest draw below 1, a click either is declined and
    leaves the player exactly as it was, or lowers the balance; and it never
    lowers a level. *)
Theorem item_click_costs (kc : Item) (u1 u2 : Q) (p : Player.t) :
  (forall b l : Z, item_cost (inject_Z (2 * b)) l = 2 * b + b * l)
  /\ (0 <= Player.dodge_level p -> 0 <= Player.regen_level p ->
      0 <= Player.lifesteal_level p -> 0 <= Player.crit_level p ->
      0 <= Player.aoe_on_kill_level p -> 0 <= Player.magnet_bonus_level p ->
      0 <= Player.bullet_speed_level p -> (u2 < 1)%Q ->
      let p' := item_click kc u1 u2 p in
      (p' = p \/ Player.coins p' < Player.coins p)
      /\ Player.dodge_level p <= Player.dodge_level p'
      /\ Player.regen_level p <= Player.regen_level p'
      /\ Player.lifesteal_level p <= Player.lifesteal_level p'
      /\ Player.crit_level p <= Player.crit_level p'
      /\ Player.aoe_on_kill_level p <= Player.aoe_on_kill_level p'
      /\ Player.magnet_bonus_level p <= Player.magnet_bonus_level p'
      /\ Player.bullet_speed_level p <= Player.bullet_speed_level p'
      /\ Player.bullet_damage_level p <= Player.bullet_damage_level p'
      /\ Player.armor p <= Player.armor p'
      /\ (Player.health p <= Player.max_health p ->
          Player.health p <= Player.health p')).
Proof.
  split; [apply item_cost_linear|].
  intros H1 H2 H3 H4 H5 H6 H7 Hu p'. subst p'. unfold item_click.
  pose proof (item_cost_linear 8 (Player.dodge_level p)) as C1.
  pose proof (item_cost_linear 10 (Player.regen_level p)) as C2.
  pose proof (item_cost_linear 14 (Player.lifesteal_level p)) as C3.
  pose proof (item_cost_linear 12 (Player.crit_level p)) as C4.
  pose proof (item_cost_linear 15 (Player.aoe_on_kill_level p)) as C5.
  pose proof (item_cost_linear 6 (Player.magnet_bonus_level p)) as C6.
  pose proof (item_cost_linear 7 (Player.bullet_speed_level p)) as C7.
  change (inject_Z (2 * 8)) with 16%Q in C1.
  change (inject_Z (2 * 10)) with 20%Q in C2.
  change (inject_Z (2 * 14)) with 28%Q in C3.
  change (inject_Z (2 * 12)) with 24%Q in C4.
  change (inject_Z (2 * 15)) with 30%Q in C5.
  change (inject_Z (2 * 6)) with 12%Q in C6.
  change (inject_Z (2 * 7)) with 14%Q in C7.
  assert (Hchest : Qfloor (u2 * 8) <= 7).
  { assert (Hlt : (u2 * 8 < inject_Z 8)%Q)
      by (change (inject_Z 8) with 8%Q; lra).
    pose proof (Qfloor_le (u2 * 8)) as Hf.
    assert (Hz : (inject_Z (Qfloor (u2 * 8)) < inject_Z 8)%Q) by lra.
    rewrite <- Zlt_Qlt in Hz. lia. }
  unfold open_chest. set (k := Qfloor (u2 * 8)) in *. clearbody k.
  unfold Player.max_health, PLAYER_MAX_HEALTH.
  destruct kc;
    match goal with
    | |- context [if ?c <=? ?d then _ else _] =>
        destruct (c <=? d) eqn:E;
        [apply Z.leb_le in E | repeat split; try lia; now left]
    end.
  1-8: cbn; repeat split; lia.
  - unfold heal_one, Player.max_health, PLAYER_MAX_HEALTH. cbn.
    repeat split; lia.
  - unfold heal_one, Player.max_health, PLAYER_MAX_HEALTH.
    destruct (Qfloor (u1 * 4)) as [|[[q|q|]|[q|q|]|]|q]; cbn;
      repeat split; lia.
Qed.

Lemma item_click_costs_witness :
  Player.coins (item_click ItR 0 0 (Player.set_coins 30 sample_player)) < 30.
Proof.
  destruct (item_click_costs ItR 0 0 (Player.set_coins 30 sample_player))
    as [_ H].
  assert (Hu : (0 < 1)%Q) by reflexivity.
  destruct (H (Z.le_refl 0) (Z.le_refl 0) (Z.le_refl 0) (Z.le_refl 0)
              (Z.le_refl 0) (Z.le_refl 0) (Z.le_refl 0) Hu) as [[E|Hlt] _].
  - discriminate E.
  - exact Hlt.
Defined.

(** ** Saving and loading *)

(** X21.  What [save_state] writes, [load_save] reads back: a new player loaded
    from the save of a shop has the coins, the two multipliers, the magnet
    radius, the armor, the health bonus and the four levels that were saved,
    is at full health, and the six shop counters and all prices are as they
    were.  The seven item levels are not saved and start again at 0. *)
Theorem save_then_load
    (int_of_str : string -> option Z) (float_of_str : string -> option Q)
    (s : Shop) (pos : Vec) :
  let r := load_save int_of_str float_of_str (SaveDict (save_state s))
                     (Player.init pos) in
  let p := buyer s in
  Player.coins r.1 = Player.coins p
  /\ Player.speed_multiplier r.1 = Player.speed_multiplier p
  /\ Player.fire_rate_multiplier r.1 = Player.fire_rate_multiplier p
  /\ Player.bullet_size_level r.1 = Player.bullet_size_level p
  /\ Player.bullet_pierce_level r.1 = Player.bullet_pierce_level p
  /\ Player.magnet_radius r.1 = Player.magnet_radius p
  /\ Player.max_health_bonus r.1 = Player.max_health_bonus p
  /\ Player.armor r.1 = Player.armor p
  /\ Player.bullet_damage_level r.1 = Player.bullet_damage_level p
  /\ Player.coin_gain_level r.1 = Player.coin_gain_level p
  /\ Player.health r.1 = Player.max_health p
  /\ r.2 = mkLoaded (speed_levels s) (firerate_levels s) (pierce_levels s)
                    (size_levels s) (magnet_levels s) (hp_levels s)
  /\ compute_costs (open_shop r.1 r.2) = compute_costs s
  /\ Player.dodge_level r.1 = 0 /\ Player.regen_level r.1 = 0
  /\ Player.lifesteal_level r.1 = 0 /\ Player.crit_level r.1 = 0
  /\ Player.aoe_on_kill_level r.1 = 0 /\ Player.magnet_bonus_level r.1 = 0
  /\ Player.bullet_speed_level r.1 = 0.
Proof.
  destruct s as [p l1 l2 l3 l4 l5 l6 page]. destruct p. cbn zeta.
  repeat split; vm_compute; reflexivity.
Qed.

Section LoadFailure.
Variable int_of_str : string -> option Z.
Variable float_of_str : string -> option Q.

Ltac load_branches :=
  unfold load_fields, stmt;
  repeat match goal with
    | |- context [match get_int ?a ?d ?k ?v with _ => _ end] =>
        destruct (get_int a d k v) eqn:?
    | |- context [match get_float ?a ?d ?k ?v with _ => _ end] =>
        destruct (get_float a d k v) eqn:?
    end.

Ltac refute key v :=
  repeat match goal with
    | E : get_int _ _ key _ = Some _, H : _ !! key = Some v,
      N : int_of _ v = None |- _ =>
        unfold get_int in E; rewrite H, N in E; discriminate E
    | E : get_float _ _ key _ = Some _, H : _ !! key = Some v,
      N : float_of _ v = None |- _ =>
        unfold get_float in E; rewrite H, N in E; discriminate E
    end.

Lemma load_fields_int_failure
    (data : gmap string json) (p : Player.t) (key : string) (v : json) :
  key ∈ int_keys -> data !! key = Some v ->
  int_of int_of_str v = None ->
  (load_fields int_of_str float_of_str data p).2 = None.
Proof.
  intros Hk Hv Hn. unfold int_keys in Hk.
  repeat (apply elem_of_cons in Hk; destruct Hk as [->|Hk]);
    [..|now apply elem_of_nil in Hk];
    load_branches; try reflexivity;
    match goal with
    | H : _ !! ?k = Some _ |- _ => refute k v
    end.
Qed.

Lemma load_fields_float_failure
    (data : gmap string json) (p : Player.t) (key : string) (v : json) :
  key ∈ float_keys -> data !! key = Some v ->
  float_of float_of_str v = None ->
  (load_fields int_of_str float_of_str data p).2 = None.
Proof.
  intros Hk Hv Hn. unfold float_keys in Hk.
  repeat (apply elem_of_cons in Hk; destruct Hk as [->|Hk]);
    [..|now apply elem_of_nil in Hk];
    load_branches; try reflexivity;
    match goal with
    | H : _ !! ?k = Some _ |- _ => refute k v
    end.
Qed.

End LoadFailure.

(** X22.  A stored value that cannot be converted costs all six shop counters:
    when [int] or [float] raises on the value under any one of the sixteen
    keys, the counters are all loaded as 0, also those stored correctly. *)
Theorem load_failure_zeroes_counters
    (int_of_str : string -> option Z) (float_of_str : string -> option Q)
    (data : gmap string json) (p : Player.t) (key : string) (v : json) :
  data !! key = Some v ->
  (key ∈ int_keys /\ int_of int_of_str v = None)
  \/ (key ∈ float_keys /\ float_of float_of_str v = None) ->
  (load_save int_of_str float_of_str (SaveDict data) p).2 = loaded_zero.
Proof.
  intros Hv Hbad. cbn [load_save].
  assert (E : (load_fields int_of_str float_of_str data p).2 = None).
  { destruct Hbad as [[Hk Hn]|[Hk Hn]].
    - eapply load_fields_int_failure; eassumption.
    - eapply load_fields_float_failure; eassumption. }
  destruct (load_fields int_of_str float_of_str data p) as [p' [l|]];
    [discriminate E | reflexivity].
Qed.

Lemma load_failure_zeroes_counters_witness :
  (load_save (fun _ => None) (fun _ => None)
     (SaveDict (<["speed_levels" := JInt 3]> torn_save)) sample_player).2
  = loaded_zero.
Proof.
  apply (load_failure_zeroes_counters (fun _ => None) (fun _ => None)
           (<["speed_levels" := JInt 3]> torn_save) sample_player
           "armor" JNull).
  - reflexivity.
  - left. split; [|reflexivity]. unfold int_keys. repeat constructor.
Defined.

(** ** Kills, again *)

(** X23.  Without lifesteal [on_kill] does nothing.  With it, a kill counter that
    lies below the heal interval [max(1, 5 - lifesteal_level)] stays below
    it and is never negative; the health goes up by one exactly on the kill
    that completes the interval, never past [max_health()], and never goes
    down for a player that is not above [max_health()]. *)
Theorem on_kill_lifesteal (p : Player.t) :
  (Player.lifesteal_level p <= 0 -> Player.on_kill p = p)
  /\ (0 < Player.lifesteal_level p ->
      0 <= Player.lifesteal_kills p
           < Z.max 1 (5 - Player.lifesteal_level p) ->
      Player.health p <= Player.max_health p ->
      let due :=
        Player.lifesteal_kills p + 1
        =? Z.max 1 (5 - Player.lifesteal_level p) in
      0 <= Player.lifesteal_kills (Player.on_kill p)
           < Z.max 1 (5 - Player.lifesteal_level p)
      /\ Player.lifesteal_kills (Player.on_kill p)
         = (if due then 0 else Player.lifesteal_kills p + 1)
      /\ Player.health (Player.on_kill p)
         = (if due then Z.min (Player.max_health p) (Player.health p + 1)
            else Player.health p)
      /\ Player.health p <= Player.health (Player.on_kill p)
                         <= Player.max_health p).
Proof.
  split.
  - intros H. apply Z.ltb_ge in H. unfold Player.on_kill. now rewrite H.
  - intros Hl Hk Hh. cbn zeta. unfold Player.on_kill.
    apply Z.ltb_lt in Hl. rewrite Hl. cbn.
    change (PLAYER_MAX_HEALTH + Player.max_health_bonus p)
      with (Player.max_health p).
    destruct (Z.max 1 (5 - Player.lifesteal_level p)
              <=? Player.lifesteal_kills p + 1) eqn:E;
      [apply Z.leb_le in E | apply Z.leb_gt in E].
    + assert (Ed : (Player.lifesteal_kills p + 1
                    =? Z.max 1 (5 - Player.lifesteal_level p)) = true)
        by (apply Z.eqb_eq; lia).
      rewrite Ed. cbn.
      change (Player.max_health
                (Player.set_lifesteal_kills 0
                   (Player.set_lifesteal_kills
                      (Player.lifesteal_kills p + 1) p)))
        with (Player.max_health p).
      repeat split; lia.
    + assert (Ed : (Player.lifesteal_kills p + 1
                    =? Z.max 1 (5 - Player.lifesteal_level p)) = false)
        by (apply Z.eqb_neq; lia).
      rewrite Ed. cbn. repeat split; lia.
Qed.

Lemma on_kill_lifesteal_witness :
  Player.health
    (Player.on_kill (Player.set_lifesteal_level 4
                       (Player.set_health 3 sample_player))) = 4.
Proof.
  destruct (on_kill_lifesteal (Player.set_lifesteal_level 4
                                 (Player.set_health 3 sample_player)))
    as [_ H].
  destruct H as (_ & _ & Hh & _);
    [reflexivity
    | split; [intros H; discriminate H | reflexivity]
    | intros H; discriminate H |].
  exact Hh.
Defined.

Section KillCounts.
Variable rng : nat -> Q.

Lemma boss_coins_small (n : nat) (pos : Vec) (cur : nat) :
  Forall small_coin (boss_coins rng n pos cur).1.
Proof.
  revert cur. induction n as [|n IH]; intros cur; cbn; [constructor|].
  specialize (IH (S (S cur))).
  destruct (boss_coins rng n pos (S (S cur))) as [cs cur']. cbn in *.
  constructor; [now right | exact IH].
Qed.

Lemma kill_effects_counts (e : Enemy.t) (m : Match) :
  let m' := kill_effects rng e m in
  score m' = score m + 1
  /\ (exists cs, coins m' = coins m ++ cs /\ Forall small_coin cs
                 /\ (Enemy.is_boss e = false -> length cs <= 1)%nat)
  /\ (exists xs, explosions m' = explosions m ++ xs
                 /\ (Player.aoe_on_kill_level (player m) <= 0 -> xs = []))
  /\ (Enemy.is_boss e = false ->
      EnemySpawner.kills_this_level (spawner m')
      = EnemySpawner.kills_this_level (spawner m) + 1
      /\ EnemySpawner.level (spawner m') = EnemySpawner.level (spawner m)
      /\ Player.armor (player m') = Player.armor (player m))
  /\ Player.aoe_on_kill_level (player m')
     = Player.aoe_on_kill_level (player m)
  /\ Player.coins (player m') = Player.coins (player m).
Proof.
  assert (Hon : Player.aoe_on_kill_level (Player.on_kill (player m))
                = Player.aoe_on_kill_level (player m)
                /\ Player.coins (Player.on_kill (player m))
                   = Player.coins (player m)
                /\ Player.armor (Player.on_kill (player m))
                   = Player.armor (player m)).
  { unfold Player.on_kill. destruct (0 <? _); [|repeat split].
    destruct (_ <=? _); repeat split. }
  destruct Hon as (Ha & Hc & Hr).
  unfold kill_effects, drop_coins.
  cbn [player spawner coins explosions score cursor].
  rewrite Ha.
  assert (Hx : exists xs,
            (if 0 <? Player.aoe_on_kill_level (player m)
             then explosions m ++
                  [Explosion.mk (Enemy.position e) 0
                     (inject_Z (40 + 10 * Player.aoe_on_kill_level (player m)))
                     (1 + Player.aoe_on_kill_level (player m)) 0.3]
             else explosions m) = explosions m ++ xs
            /\ (Player.aoe_on_kill_level (player m) <= 0 -> xs = [])).
  { destruct (0 <? Player.aoe_on_kill_level (player m)) eqn:E.
    - apply Z.ltb_lt in E. eexists. split; [reflexivity | lia].
    - exists []. split; [now rewrite app_nil_r | reflexivity]. }
  destruct (Enemy.is_boss e).
  - pose proof (boss_coins_small 14 (Enemy.position e) (cursor m)) as Hs.
    destruct (boss_coins rng 14 (Enemy.position e) (cursor m)) as [cs cur].
    cbn in Hs. cbn [player spawner coins explosions score cursor].
    split; [reflexivity|]. split; [exists cs; repeat split; [exact Hs | discriminate]|].
    split; [exact Hx|]. split; [discriminate|].
    destruct (Qltb (rng cur) 0.5); cbn; split; assumption.
  - destruct (Qltb (rng (cursor m)) NORMAL_DROP_CHANCE);
      cbn [player spawner coins explosions score cursor];
      (split; [reflexivity|]); (split; [|split; [exact Hx|]]).
    + eexists. split; [reflexivity|]. split; [|cbn; lia].
      constructor; [|constructor]. unfold small_coin. cbn.
      destruct (Qltb _ 0.85); auto.
    + split; [intros _; repeat split; exact Hr | split; assumption].
    + exists []. split; [now rewrite app_nil_r|]. split; [constructor | cbn; lia].
    + split; [intros _; repeat split; exact Hr | split; assumption].
Qed.

End KillCounts.

Section PassCounts.
Variable rng : nat -> Q.
Variable bs : list Bullet.t.

Lemma fold_kill_counts (es : list Enemy.t) :
  forall m : Match,
    let m' := fold_left (kill_step rng bs) es m in
    let n := Z.of_nat (length (filter (fun e => killed bs e = true) es)) in
    score m' = score m + n
    /\ (exists cs, coins m' = coins m ++ cs /\ Forall small_coin cs
          /\ (Forall (fun e => killed bs e = true -> Enemy.is_boss e = false) es
              -> Z.of_nat (length cs) <= n))
    /\ (exists xs, explosions m' = explosions m ++ xs
          /\ (Player.aoe_on_kill_level (player m) <= 0 -> xs = []))
    /\ Player.aoe_on_kill_level (player m')
       = Player.aoe_on_kill_level (player m)
    /\ Player.coins (player m') = Player.coins (player m)
    /\ (Forall (fun e => killed bs e = true -> Enemy.is_boss e = false) es ->
        EnemySpawner.kills_this_level (spawner m')
        = EnemySpawner.kills_this_level (spawner m) + n
        /\ EnemySpawner.level (spawner m') = EnemySpawner.level (spawner m)
        /\ Player.armor (player m') = Player.armor (player m)).
Proof.
  induction es as [|e es IH]; intros m.
  - cbn. split; [lia|]. split; [exists []; rewrite app_nil_r; repeat split;
                              [constructor | cbn; lia]|].
    split; [exists []; now rewrite app_nil_r|]. repeat split; lia.
  - cbn [fold_left]. destruct (killed bs e) eqn:Ek.
    + assert (Es : kill_step rng bs m e = kill_effects rng (hurt e) m)
        by (unfold kill_step; now rewrite Ek).
      rewrite Es. clear Es.
      rewrite filter_cons_True by exact Ek. cbn [length].
      destruct (kill_effects_counts rng (hurt e) m)
        as (K1 & (cs1 & K2 & K3 & K4) & (xs1 & K5 & K6) & K7 & K8 & K9).
      destruct (IH (kill_effects rng (hurt e) m))
        as (I1 & (cs2 & I2 & I3 & I4) & (xs2 & I5 & I6) & I7 & I8 & I9).
      cbn beta iota zeta in *.
      split; [lia|].
      split.
      { exists (cs1 ++ cs2). split; [rewrite I2, K2; now rewrite app_assoc|].
        split; [now apply Forall_app|].
        intros Hnb. inversion Hnb as [|? ? Hb Hrest]; subst.
        specialize (K4 (Hb Ek)). specialize (I4 Hrest).
        rewrite length_app. lia. }
      split.
      { exists (xs1 ++ xs2). split; [rewrite I5, K5; now rewrite app_assoc|].
        intros Ha. rewrite (K6 Ha), I6; [reflexivity | lia]. }
      split; [congruence|]. split; [congruence|].
      intros Hnb. inversion Hnb as [|? ? Hb Hrest]; subst.
      destruct (K7 (Hb Ek)) as (K7a & K7b & K7c).
      destruct (I9 Hrest) as (I9a & I9b & I9c).
      repeat split; try congruence. lia.
    + assert (Es : kill_step rng bs m e = m)
        by (unfold kill_step; now rewrite Ek).
      rewrite Es. clear Es.
      rewrite filter_cons_False by (rewrite Ek; discriminate).
      destruct (IH m)
        as (I1 & (cs2 & I2 & I3 & I4) & (xs2 & I5 & I6) & I7 & I8 & I9).
      cbn beta iota zeta in *.
      split; [exact I1|].
      split.
      { exists cs2. repeat split; try assumption.
        intros Hnb. inversion Hnb; subst. auto. }
      split; [exists xs2; split; assumption|].
      split; [exact I7|]. split; [exact I8|].
      intros Hnb. inversion Hnb; subst. auto.
Qed.

End PassCounts.

(** X24.  What a bullet/enemy pass does to the match, counted in kills: the score
    goes up by the number of enemies killed; coins and explosions are only
    added at the end of their lists, every new coin is worth 1 or 2, and no
    explosion is added without the AOE upgrade; the balance of the player is
    not touched (coins must be picked up).  When no boss is among the dead,
    at most one coin drops per kill, the kill counter goes up by the number
    of kills and the level and the armor stay as they were. *)
Theorem pass_counts_kills
    (rng : nat -> Q) (win : Window)
    (es : list Enemy.t) (bs : list Bullet.t) (m : Match) :
  let m' := (bullets_vs_enemies rng win es bs m).2 in
  let n := Z.of_nat (length (filter (fun e => killed bs e = true) es)) in
  score m' = score m + n
  /\ (exists cs, coins m' = coins m ++ cs /\ Forall small_coin cs
        /\ (Forall (fun e => killed bs e = true -> Enemy.is_boss e = false) es
            -> Z.of_nat (length cs) <= n))
  /\ (exists xs, explosions m' = explosions m ++ xs
        /\ (Player.aoe_on_kill_level (player m) <= 0 -> xs = []))
  /\ Player.aoe_on_kill_level (player m') = Player.aoe_on_kill_level (player m)
  /\ Player.coins (player m') = Player.coins (player m)
  /\ (Forall (fun e => killed bs e = true -> Enemy.is_boss e = false) es ->
      EnemySpawner.kills_this_level (spawner m')
      = EnemySpawner.kills_this_level (spawner m) + n
      /\ EnemySpawner.level (spawner m') = EnemySpawner.level (spawner m)
      /\ Player.armor (player m') = Player.armor (player m)).
Proof.
  intros m' n. subst m'. unfold bullets_vs_enemies.
  destruct (enemies_loop_spec rng es bs bs m (same_shape_refl bs)) as [_ E].
  destruct (enemies_loop rng es bs m) as [[alive bs'] m']. cbn in E |- *.
  subst m'. exact (fold_kill_counts rng bs es m).
Qed.

Lemma pass_counts_kills_witness :
  EnemySpawner.kills_this_level
    (spawner (bullets_vs_enemies steady_rng sample_window
                [sample_grunt 100] [sample_bullet 0] new_match).2) = 1.
Proof.
  destruct (pass_counts_kills steady_rng sample_window [sample_grunt 100]
              [sample_bullet 0] new_match) as (_ & _ & _ & _ & _ & H).
  destruct H as (Hk & _); [repeat constructor | exact Hk].
Defined.

(** ** Spawning and moving the enemies *)

Lemma spawn_enemy_rest
    (win : Window) (rng : nat -> Q) (cur : nat) (s : EnemySpawner.t) :
  Enemy.health (EnemySpawner.spawn_enemy win rng cur s).1
  = Enemy.max_health (EnemySpawner.spawn_enemy win rng cur s).1
  /\ Enemy.is_boss (EnemySpawner.spawn_enemy win rng cur s).1 = false.
Proof.
  unfold EnemySpawner.spawn_enemy.
  destruct (2 <=? EnemySpawner.level s); [destruct (Qltb _ _)|];
    split; reflexivity.
Qed.

Lemma update_keeps_interval_positive (dt : Q) (sp : EnemySpawner.t) :
  (0 < EnemySpawner.current_interval sp)%Q ->
  (0 < EnemySpawner.current_interval (EnemySpawner.update dt sp))%Q.
Proof.
  intros Hi. unfold EnemySpawner.update.
  destruct (Qltb 0 _); [exact Hi|].
  destruct (Qle_bool _ _); cbn; [|exact Hi].
  pose proof (py_max_lower 0.25
    (EnemySpawner.current_interval sp * ENEMY_SPAWN_ACCEL_FACTOR)).
  lra.
Qed.

Lemma update_keeps_timer_positive (dt : Q) (sp : EnemySpawner.t) :
  (0 <= dt)%Q -> (dt < EnemySpawner.timer sp)%Q ->
  (0 < EnemySpawner.timer (EnemySpawner.update dt sp))%Q.
Proof.
  intros H0 Hlt. unfold EnemySpawner.update.
  destruct (Qltb 0 _); [cbn; lra|].
  destruct (Qle_bool _ _); cbn; lra.
Qed.

(** X25.  The spawn step of a tick adds at most one enemy, at the end of the list
    and at full health, and never a boss; it adds none while the spawn timer
    exceeds the time step; and with a positive spawn interval it always
    leaves the spawn timer positive, so that one tick never spawns twice. *)
Theorem spawn_step_adds_one
    (win : Window) (rng : nat -> Q) (dt : Q) (es : list Enemy.t)
    (sp : EnemySpawner.t) (cur : nat) :
  let r := spawn_step win rng dt es sp cur in
  (r.1.1 = es
   \/ exists e, r.1.1 = es ++ [e] /\ Enemy.health e = Enemy.max_health e
                /\ Enemy.is_boss e = false)
  /\ ((0 < EnemySpawner.current_interval sp)%Q ->
      (0 < EnemySpawner.timer r.1.2)%Q)
  /\ ((0 <= dt)%Q -> (dt < EnemySpawner.timer sp)%Q ->
      r.1.1 = es /\ r.2 = cur).
Proof.
  intros r. subst r. unfold spawn_step.
  pose proof (update_keeps_interval_positive dt sp) as Hpos.
  pose proof (update_keeps_timer_positive dt sp) as Htim.
  set (sp1 := EnemySpawner.update dt sp) in *.
  destruct (Qle_bool (EnemySpawner.timer sp1) 0) eqn:E.
  - apply Qle_bool_iff in E.
    destruct (spawn_enemy_rest win rng cur sp1) as (Hh & Hb).
    destruct (EnemySpawner.spawn_enemy win rng cur sp1) as [e cur'].
    cbn [fst snd] in *.
    split; [right; exists e; auto|]. split.
    + intros Hi. cbn. now apply Hpos.
    + intros H0 Hlt. specialize (Htim H0 Hlt). lra.
  - apply Qle_bool_gt in E. cbn [fst snd].
    split; [now left|]. split; [intros _; exact E | intros _ _; now split].
Qed.

Lemma spawn_step_adds_one_witness :
  (spawn_step sample_window steady_rng 0.016 [] EnemySpawner.init 0).1.1 = [].
Proof.
  destruct (spawn_step_adds_one sample_window steady_rng 0.016 []
              EnemySpawner.init 0) as (_ & _ & H).
  apply H; [qclosed | apply Qltb_lt; reflexivity].
Defined.

Section EnemiesUpdate.
Variable normalize : Vec -> Vec.

Lemma enemy_update_frame (dt : Q) (target : Vec) (e : Enemy.t) :
  let e' := Enemy.update normalize dt target e in
  Enemy.health e' = Enemy.health e
  /\ Enemy.max_health e' = Enemy.max_health e
  /\ Enemy.radius e' = Enemy.radius e
  /\ Enemy.is_boss e' = Enemy.is_boss e
  /\ Enemy.speed e' = Enemy.speed e
  /\ is_shooter e' = is_shooter e
  /\ ((length_squared (vsub target (Enemy.position e)) <= 0.000001)%Q ->
      Enemy.position e' = Enemy.position e).
Proof.
  destruct e as [p sp r mh h b k]. unfold Enemy.update, is_shooter.
  cbn [Enemy.position Enemy.speed Enemy.radius Enemy.max_health Enemy.health
       Enemy.is_boss Enemy.kind].
  set (q := length_squared (vsub target p)).
  destruct (Qltb 0.000001 q) eqn:E; destruct k; cbn; repeat split;
    intros H; apply Qltb_lt in E; lra.
Qed.

Lemma enemies_update_shots (dt : Q) (pos : Vec) (level : Z)
    (es : list Enemy.t) :
  forall ebs : list EnemyBullet.t,
    let r := enemies_update normalize dt pos level es ebs in
    map Enemy.health r.1 = map Enemy.health es
    /\ map Enemy.radius r.1 = map Enemy.radius es
    /\ map Enemy.is_boss r.1 = map Enemy.is_boss es
    /\ (exists shots,
          r.2 = ebs ++ shots
          /\ (length shots <= length (filter (fun e => is_shooter e = true) es))%nat
          /\ Forall (fun b => EnemyBullet.radius b = 3%Q
                              /\ EnemyBullet.lifetime b = 3%Q) shots).
Proof.
  induction es as [|e es IH]; intros ebs.
  - cbn. repeat split. exists []. rewrite app_nil_r. repeat split; constructor.
  - cbn [enemies_update].
    destruct (enemy_update_frame dt pos e) as (Hh & _ & Hr & Hb & _ & Hs & _).
    set (e1 := Enemy.update normalize dt pos e) in *.
    assert (Hready : Enemy.ready_to_shoot e1 = true -> is_shooter e = true).
    { rewrite <- Hs. unfold Enemy.ready_to_shoot, is_shooter.
      destruct (Enemy.kind e1); [discriminate | reflexivity]. }
    assert (Hreset : Enemy.health (Enemy.reset_shoot e1) = Enemy.health e1
                     /\ Enemy.radius (Enemy.reset_shoot e1) = Enemy.radius e1
                     /\ Enemy.is_boss (Enemy.reset_shoot e1) = Enemy.is_boss e1).
    { unfold Enemy.reset_shoot. destruct (Enemy.kind e1); repeat split. }
    destruct Hreset as (R1 & R2 & R3).
    destruct (Enemy.ready_to_shoot e1) eqn:Er;
      [destruct (Qltb 0.000001 _)|].
    + specialize (Hready eq_refl).
      match goal with
      | |- context [enemies_update _ _ _ _ es ?b] =>
          destruct (IH b) as (I1 & I2 & I3 & shots & I4 & I5 & I6)
      end.
      destruct (enemies_update normalize dt pos level es _) as [es' ebs'].
      cbn [fst snd map] in *. rewrite I1, I2, I3, R1, R2, R3, Hh, Hr, Hb.
      repeat split.
      eexists (_ :: shots). rewrite I4, <- app_assoc. split; [reflexivity|].
      rewrite filter_cons_True by exact Hready. cbn [length].
      split; [lia|]. constructor; [split; reflexivity | exact I6].
    + destruct (IH ebs) as (I1 & I2 & I3 & shots & I4 & I5 & I6).
      destruct (enemies_update normalize dt pos level es ebs) as [es' ebs'].
      cbn [fst snd map] in *. rewrite I1, I2, I3, Hh, Hr, Hb. repeat split.
      exists shots. split; [exact I4|]. split; [|exact I6].
      destruct (decide (is_shooter e = true)) as [Hd|Hd];
        [rewrite filter_cons_True by exact Hd; cbn [length]; lia
        | rewrite filter_cons_False by exact Hd; exact I5].
    + destruct (IH ebs) as (I1 & I2 & I3 & shots & I4 & I5 & I6).
      destruct (enemies_update normalize dt pos level es ebs) as [es' ebs'].
      cbn [fst snd map] in *. rewrite I1, I2, I3, Hh, Hr, Hb. repeat split.
      exists shots. split; [exact I4|]. split; [|exact I6].
      destruct (decide (is_shooter e = true)) as [Hd|Hd];
        [rewrite filter_cons_True by exact Hd; cbn [length]; lia
        | rewrite filter_cons_False by exact Hd; exact I5].
Qed.

End EnemiesUpdate.

(** X26.  Moving the enemies never changes their number, health, radius or boss
    flag.  Enemy bullets are only added at the end of their list, at most one
    per shooter and none from plain enemies, each with radius 3 and lifetime
    3; and an enemy that already stands on its target (within a thousandth of
    a pixel) is not moved. *)
Theorem enemies_update_fires_once
    (normalize : Vec -> Vec) (dt : Q) (pos : Vec) (level : Z)
    (es : list Enemy.t) (ebs : list EnemyBullet.t) :
  let r := enemies_update normalize dt pos level es ebs in
  map Enemy.health r.1 = map Enemy.health es
  /\ map Enemy.radius r.1 = map Enemy.radius es
  /\ map Enemy.is_boss r.1 = map Enemy.is_boss es
  /\ length r.1 = length es
  /\ (exists shots,
        r.2 = ebs ++ shots
        /\ (length shots
            <= length (filter (fun e => is_shooter e = true) es))%nat
        /\ Forall (fun b => EnemyBullet.radius b = 3%Q
                            /\ EnemyBullet.lifetime b = 3%Q) shots)
  /\ (forall e : Enemy.t,
        (length_squared (vsub pos (Enemy.position e)) <= 0.000001)%Q ->
        Enemy.position (Enemy.update normalize dt pos e) = Enemy.position e).
Proof.
  intros r. subst r.
  destruct (enemies_update_shots normalize dt pos level es ebs)
    as (H1 & H2 & H3 & H4).
  split; [exact H1|]. split; [exact H2|]. split; [exact H3|].
  split; [rewrite <- (length_map Enemy.health), H1; apply length_map|].
  split; [exact H4|].
  intros e He. now apply enemy_update_frame.
Qed.

Lemma enemies_update_fires_once_witness :
  Enemy.position (Enemy.update unit_x 1 (Vector2 100 100) sample_boss)
  = Vector2 100 100.
Proof.
  destruct (enemies_update_fires_once unit_x 1 (Vector2 100 100) 1 [] [])
    as (_ & _ & _ & _ & _ & H).
  apply (H sample_boss). qclosed.
Defined.

(** ** Lifetimes *)

Section Expiry.
Variable win : Window.





End Expiry.


